(** * CodeSlice: the Jira issue fetcher (src/services/jiraService.ts)

    A shallow embedding of [JiraService]: the paginated fetch
    [getCurrentUserIssues], the normalizer [transformIssue] and the
    description extractor [extractDescription], followed by the properties
    of the specification that concern them.

    JavaScript values are untyped at run time ([issue: any], [desc: any]),
    so raw issues are modelled as JSON values; strings are sequences of
    UTF-16 code units, which is what [length], [slice], [trim] and the
    regular expressions of the source operate on. *)

From Stdlib Require Import List ZArith NArith Lia Bool Ascii String DecimalString.
Import ListNotations.
Local Open Scope Z_scope.
#[local] Set Warnings "-register-all,-notation-for-abbreviation".

(** ** Strings *)

(** A JavaScript string: its UTF-16 code units. *)
Definition jsstring : Type := list N.

(** An ASCII literal of the source as a JavaScript string. *)
Definition lit (s : string) : jsstring :=
  map N_of_ascii (list_ascii_of_string s).

Fixpoint str_eqb (a b : jsstring) : bool :=
  match a, b with
  | [], [] => true
  | x :: a', y :: b' => N.eqb x y && str_eqb a' b'
  | _, _ => false
  end.

Definition is_nil {A : Type} (l : list A) : bool :=
  match l with [] => true | _ :: _ => false end.

(** [s || d] on strings: the empty string is the only falsy string. *)
Definition or_default (s d : jsstring) : jsstring :=
  if is_nil s then d else s.

(** The code units matched by [\s] and removed by [String.prototype.trim]:
    ECMAScript WhiteSpace and LineTerminator. *)
Definition is_ws (c : N) : bool :=
  ((9 <=? c) && (c <=? 13) || (c =? 32) || (c =? 160) || (c =? 5760)
   || (8192 <=? c) && (c <=? 8202) || (c =? 8232) || (c =? 8233)
   || (c =? 8239) || (c =? 8287) || (c =? 12288) || (c =? 65279))%N.

Definition space : N := 32%N.

Fixpoint trim_start (s : jsstring) : jsstring :=
  match s with
  | [] => []
  | c :: s' => if is_ws c then trim_start s' else s
  end.

Fixpoint trim_end (s : jsstring) : jsstring :=
  match s with
  | [] => []
  | c :: s' =>
      let r := trim_end s' in
      if is_ws c && is_nil r then [] else c :: r
  end.

(** [s.trim()] *)
Definition trim (s : jsstring) : jsstring := trim_end (trim_start s).

(** [s.replace(/\s+/g, ' ')]: every maximal run of white space becomes one
    space.  [in_run] tells that the previous code unit was white space, so
    that the run's replacement has already been emitted. *)
Fixpoint collapse_from (in_run : bool) (s : jsstring) : jsstring :=
  match s with
  | [] => []
  | c :: s' =>
      if is_ws c
      then (if in_run then collapse_from true s' else space :: collapse_from true s')
      else c :: collapse_from false s'
  end.

Definition collapse_ws (s : jsstring) : jsstring := collapse_from false s.

(** [parts.join(sep)] on an array of strings. *)
Fixpoint join (sep : jsstring) (parts : list jsstring) : jsstring :=
  match parts with
  | [] => []
  | [p] => p
  | p :: rest => p ++ sep ++ join sep rest
  end.

Definition slash : N := 47%N.

(** [s.replace(/\/+$/, '')]: the trailing run of slashes is removed. *)
Fixpoint strip_trailing_slashes (s : jsstring) : jsstring :=
  match s with
  | [] => []
  | c :: s' =>
      let r := strip_trailing_slashes s' in
      if N.eqb c slash && is_nil r then [] else c :: r
  end.

(** [String(n)] for an integer. *)
Definition decimal (z : Z) : jsstring :=
  lit (NilZero.string_of_int (Z.to_int z)).

(** ** Exceptions *)

Inductive Exn : Type :=
| TypeError
| Error (message : jsstring).

Inductive Result (A : Type) : Type :=
| Ok (a : A)
| Throw (e : Exn).

Arguments Ok {A} a.
Arguments Throw {A} e.

Definition bind {A B : Type} (r : Result A) (k : A -> Result B) : Result B :=
  match r with
  | Ok a => k a
  | Throw e => Throw e
  end.

Notation "x <- r ;; k" := (bind r (fun x => k))
  (at level 61, r at next level, right associativity).

(** ** JSON values *)

(** What the code needs of JavaScript numbers inside a raw issue: whether a
    number is falsy ([0], [-0], [NaN]) and its [ToString]. *)
Class NumberModel : Type := {
  number : Type;
  number_falsy : number -> bool;
  number_toString : number -> jsstring
}.

(** Integers printed in decimal, for concrete issues.  JavaScript prints
    the same digits for the integers a double holds exactly, below 10^21;
    the properties below hold for every [NumberModel]. *)
#[export] Instance IntegerNumbers : NumberModel := {
  number := Z;
  number_falsy := fun z => z =? 0;
  number_toString := decimal
}.

Section Values.
Context {NM : NumberModel}.

(** A value as [res.json()] produces it; [JUndefined] is what reading a
    missing property gives.  An object is its table of own properties, each
    key once. *)
Inductive JsVal : Type :=
| JUndefined
| JNull
| JBool (b : bool)
| JNum (n : number)
| JStr (s : jsstring)
| JArr (xs : list JsVal)
| JObj (props : list (jsstring * JsVal)).

Definition nullish (v : JsVal) : bool :=
  match v with
  | JUndefined | JNull => true
  | _ => false
  end.

(** [!!v] *)
Definition truthy (v : JsVal) : bool :=
  match v with
  | JUndefined | JNull => false
  | JBool b => b
  | JNum n => negb (number_falsy n)
  | JStr s => negb (is_nil s)
  | JArr _ | JObj _ => true
  end.

Fixpoint assoc (k : jsstring) (props : list (jsstring * JsVal)) : JsVal :=
  match props with
  | [] => JUndefined
  | (k', v) :: ps => if str_eqb k k' then v else assoc k ps
  end.

Fixpoint has_own (k : jsstring) (props : list (jsstring * JsVal)) : bool :=
  match props with
  | [] => false
  | (k', _) :: ps => str_eqb k k' || has_own k ps
  end.

(** [v.k] for a [v] that is neither [null] nor [undefined].  None of the
    property names the source reads ([key], [fields], [summary],
    [description], [issuetype], [status], [priority], [name], [type],
    [text], [content]) exists on the prototypes of strings, numbers,
    booleans, arrays or plain objects, so only own properties of objects
    are found. *)
Definition prop (v : JsVal) (k : jsstring) : JsVal :=
  match v with
  | JObj ps => assoc k ps
  | _ => JUndefined
  end.

(** [v.k]: reading a property of [null] or [undefined] throws. *)
Definition get (v : JsVal) (k : jsstring) : Result JsVal :=
  if nullish v then Throw TypeError else Ok (prop v k).

(** [v?.k] *)
Definition opt_get (v : JsVal) (k : jsstring) : JsVal :=
  if nullish v then JUndefined else prop v k.

(** [v ?? d] *)
Definition coalesce (v d : JsVal) : JsVal :=
  if nullish v then d else v.

(** [Array.prototype.join]: [null] and [undefined] elements print as the
    empty string, the others through [ToString]. *)
Definition array_join (sep : jsstring) (elem : JsVal -> Result jsstring)
  : list JsVal -> Result jsstring :=
  fix go (xs : list JsVal) : Result jsstring :=
    match xs with
    | [] => Ok []
    | x :: rest =>
        s <- (if nullish x then Ok [] else elem x) ;;
        match rest with
        | [] => Ok s
        | _ :: _ => t <- go rest ;; Ok (s ++ sep ++ t)
        end
    end.

(** [ToString(v)].  An array prints as its elements joined by commas.  A
    plain object prints through [Object.prototype.toString], unless an own
    property named [toString] (never callable in parsed JSON) hides it:
    then no primitive is found and a [TypeError] is thrown. *)
Fixpoint toString (v : JsVal) : Result jsstring :=
  match v with
  | JUndefined => Ok (lit "undefined")
  | JNull => Ok (lit "null")
  | JBool true => Ok (lit "true")
  | JBool false => Ok (lit "false")
  | JNum n => Ok (number_toString n)
  | JStr s => Ok s
  | JArr xs => array_join (lit ",") toString xs
  | JObj ps =>
      if has_own (lit "toString") ps then Throw TypeError
      else Ok (lit "[object Object]")
  end.

(** [v === 'text'] *)
Definition is_text_tag (v : JsVal) : bool :=
  match v with
  | JStr s => str_eqb s (lit "text")
  | _ => false
  end.

End Values.

(** ** The description extractor *)

Section Extractor.
Context {NM : NumberModel}.

Definition NO_DESCRIPTION : jsstring := lit "No description".

(** What [walk] does with the node's own tag and payload:
    [if (node.type === 'text' && node.text) parts.push(node.text)]. *)
Definition own_text (ps : list (jsstring * JsVal)) : list JsVal :=
  if is_text_tag (assoc (lit "type") ps) && truthy (assoc (lit "text") ps)
  then [assoc (lit "text") ps]
  else [].

(** The closure [walk] of [extractDescription]; the result is what it
    pushes on [parts], in order.  A falsy node returns at once, and a truthy
    node that is not an object has neither [type] nor [content]. *)
Fixpoint walk (node : JsVal) : list JsVal :=
  match node with
  | JObj ps =>
      own_text ps ++
      (fix children (qs : list (jsstring * JsVal)) : list JsVal :=
         match qs with
         | [] => []
         | (k, v) :: qs' =>
             if str_eqb (lit "content") k
             then match v with
                  | JArr xs =>
                      (fix each (ys : list JsVal) : list JsVal :=
                         match ys with
                         | [] => []
                         | y :: ys' => walk y ++ each ys'
                         end) xs
                  | _ => []
                  end
             else children qs'
         end) ps
  | _ => []
  end.

(** [xs.forEach(walk)] *)
Definition walk_all (xs : list JsVal) : list JsVal := flat_map walk xs.

(** [parts.join(' ').replace(/\s+/g, ' ').trim()] *)
Definition normalize_ws (s : jsstring) : jsstring := trim (collapse_ws s).

Definition extractDescription (desc : JsVal) : jsstring :=
  if negb (truthy desc) then NO_DESCRIPTION
  else
    match desc with
    | JStr s => or_default (trim s) NO_DESCRIPTION
    | _ =>
        match prop desc (lit "content") with
        | JArr xs =>
            match array_join (lit " ") toString (walk_all xs) with
            | Ok joined => or_default (normalize_ws joined) NO_DESCRIPTION
            | Throw _ => NO_DESCRIPTION   (* catch: ignore and fall through *)
            end
        | _ => NO_DESCRIPTION
        end
    end.

End Extractor.

(** ** The normalizer *)

Section Normalizer.
Context {NM : NumberModel}.

(** The object [transformIssue] returns.  TypeScript's [JiraIssue] types
    all seven fields as strings, but the types are erased: [key] and the
    four coalesced fields hold whatever the server sent. *)
Record JiraIssue : Type := {
  key : JsVal;
  summary : JsVal;
  description : jsstring;
  issueType : JsVal;
  status : JsVal;
  priority : JsVal;
  url : jsstring
}.

Definition maxLength : nat := 100.

(** The string literal appended on truncation, as the source file has it:
    the three code units U+00E2, U+20AC, U+00A6. *)
Definition TRUNCATION_MARK : jsstring := [226; 8364; 166]%N.

Definition truncate (description : jsstring) : jsstring :=
  if (maxLength <? List.length description)%nat
  then firstn maxLength description ++ TRUNCATION_MARK
  else description.

Definition fields_of (issue : JsVal) : JsVal := opt_get issue (lit "fields").

Definition transformIssue (baseUrl : jsstring) (issue : JsVal) : Result JiraIssue :=
  let description := extractDescription (opt_get (fields_of issue) (lit "description")) in
  let truncated := truncate description in
  k <- get issue (lit "key") ;;
  k' <- get issue (lit "key") ;;
  ks <- toString k' ;;
  Ok {| key := k;
        summary := coalesce (opt_get (fields_of issue) (lit "summary")) (JStr (lit "No Summary"));
        description := truncated;
        issueType := coalesce (opt_get (opt_get (fields_of issue) (lit "issuetype")) (lit "name"))
                              (JStr (lit "Unknown"));
        status := coalesce (opt_get (opt_get (fields_of issue) (lit "status")) (lit "name"))
                           (JStr (lit "Unknown"));
        priority := coalesce (opt_get (opt_get (fields_of issue) (lit "priority")) (lit "name"))
                             (JStr (lit "Unknown"));
        url := strip_trailing_slashes baseUrl ++ lit "/browse/" ++ ks |}.

End Normalizer.

(** ** The paginated fetch *)

Section Fetcher.
Context {NM : NumberModel}.

(** The page parameters [getCurrentUserIssues] sets on the query string. *)
Record Request : Type := {
  rq_startAt : Z;
  rq_maxResults : Z
}.

(** The body of a successful response, at the type the source casts it to;
    the three numbers may be missing, which [??] provides for. *)
Record Page : Type := {
  pg_issues : list JsVal;
  pg_startAt : option Z;
  pg_maxResults : option Z;
  pg_total : option Z
}.

Record Response : Type := {
  res_status : Z;
  res_statusText : jsstring;
  res_text : jsstring;     (* await res.text() *)
  res_json : Page          (* await res.json() *)
}.

(** [res.ok]: the status is in the range 200-299. *)
Definition res_ok (res : Response) : bool :=
  (200 <=? res_status res) && (res_status res <=? 299).

(** The server, as one invocation sees it: the answer to the [n]-th request
    of the invocation (counted from 0). *)
Definition Server : Type := nat -> Request -> Response.

Definition AUTH_HINT : jsstring :=
  lit " Check your site URL (e.g. https://yourcompany.atlassian.net), email, and API token permissions.".

Definition JQL_HINT : jsstring :=
  lit " The JQL or fields may be invalid for this site.".

Definition hint (status : Z) : jsstring :=
  if (status =? 401) || (status =? 403) then AUTH_HINT
  else if status =? 400 then JQL_HINT
  else [].

Definition error_message (res : Response) : jsstring :=
  lit "Jira API error: " ++ decimal (res_status res) ++ lit " " ++ res_statusText res
    ++ lit " - " ++ res_text res ++ hint (res_status res).

(** [x ?? d] on an optional number. *)
Definition default (x : option Z) (d : Z) : Z :=
  match x with
  | Some z => z
  | None => d
  end.

(** The local variables of the loop. *)
Record LoopState : Type := {
  accumulated : list JiraIssue;
  startAt : Z
}.

Inductive Outcome : Type :=
| Returned (issues : list JiraIssue)
| Threw (e : Exn)
| OutOfFuel.

(** The records the caller receives. *)
Definition received (o : Outcome) : option (list JiraIssue) :=
  match o with
  | Returned issues => Some issues
  | _ => None
  end.

Variable server : Server.
Variable baseUrl : jsstring.
Variable maxToReturn : Z.

Definition pageSize : Z := Z.min 50 maxToReturn.

Definition len (acc : list JiraIssue) : Z := Z.of_nat (List.length acc).

(** The loop condition [accumulated.length < maxToReturn]. *)
Definition guard (st : LoopState) : bool := len (accumulated st) <? maxToReturn.

Definition request_of (st : LoopState) : Request :=
  {| rq_startAt := startAt st;
     rq_maxResults := Z.min pageSize (maxToReturn - len (accumulated st)) |}.

(** [for (const issue of data.issues) { push; if (length >= max) break; }] *)
Fixpoint push_issues (acc : list JiraIssue) (issues : list JsVal)
  : Result (list JiraIssue) :=
  match issues with
  | [] => Ok acc
  | issue :: rest =>
      r <- transformIssue baseUrl issue ;;
      let acc' := acc ++ [r] in
      if len acc' >=? maxToReturn then Ok acc' else push_issues acc' rest
  end.

(** The loop body after a successful response: the new state, and whether
    [if (startAt >= total) break] leaves the loop. *)
Definition after_page (st : LoopState) (data : Page) : Result (LoopState * bool) :=
  acc' <- push_issues (accumulated st) (pg_issues data) ;;
  let startAt' := default (pg_startAt data) (startAt st)
                  + default (pg_maxResults data) pageSize in
  let total := default (pg_total data) (len acc') in
  Ok ({| accumulated := acc'; startAt := startAt' |}, startAt' >=? total).

(** The [while] loop from a state in which [n] requests have been sent.
    [fuel] bounds the number of further requests; the result comes with
    the requests sent, in order. *)
Fixpoint loop (fuel : nat) (n : nat) (st : LoopState) : Outcome * list Request :=
  if guard st then
    match fuel with
    | O => (OutOfFuel, [])
    | S fuel' =>
        let req := request_of st in
        let res := server n req in
        if negb (res_ok res) then (Threw (Error (error_message res)), [req])
        else
          match after_page st (res_json res) with
          | Throw e => (Threw e, [req])
          | Ok (st', true) => (Returned (accumulated st'), [req])
          | Ok (st', false) =>
              let (o, reqs) := loop fuel' (S n) st' in (o, req :: reqs)
          end
    end
  else (Returned (accumulated st), []).

Definition getCurrentUserIssues (fuel : nat) : Outcome * list Request :=
  loop fuel O {| accumulated := []; startAt := 0 |}.

End Fetcher.

(** ** The specification's reading of a description field *)

(** The rich-text node of the specification's data model: an optional type
    tag, an optional literal text payload and an optional ordered sequence
    of child nodes. *)
Inductive RichTextNode : Type :=
| Node (type : option jsstring) (text : option jsstring)
       (content : option (list RichTextNode)).

(** The child nodes; none when the sequence is missing. *)
Definition children (content : option (list RichTextNode)) : list RichTextNode :=
  match content with
  | Some cs => cs
  | None => []
  end.

(** Induction on a node, given the property for its children. *)
Section RichTextInduction.

Variable P : RichTextNode -> Prop.
Hypothesis step : forall type text content,
  Forall P (children content) -> P (Node type text content).

Fixpoint RichTextNode_children_ind (node : RichTextNode) : P node :=
  match node with
  | Node type text content =>
      step type text content
        (match content as c return Forall P (children c) with
         | Some cs =>
             (fix all (l : list RichTextNode) : Forall P l :=
                match l with
                | [] => Forall_nil P
                | x :: l' => Forall_cons x (RichTextNode_children_ind x) (all l')
                end) cs
         | None => Forall_nil P
         end)
  end.

End RichTextInduction.

(** The three shapes of a description field the specification tells
    apart. *)
Inductive DescriptionField : Type :=
| Absent
| AbsentNull
| Plain (s : jsstring)
| Document (doc : RichTextNode).

(** Depth-first, pre-order: the payload of every text-tagged node. *)
Fixpoint spec_texts (node : RichTextNode) : list jsstring :=
  match node with
  | Node type text content =>
      (match type, text with
       | Some t, Some payload => if str_eqb t (lit "text") then [payload] else []
       | _, _ => []
       end)
      ++ match content with
         | Some cs => flat_map spec_texts cs
         | None => []
         end
  end.

(** The extraction policy, steps 1 to 4, as the specification states it. *)
Definition spec_extractText (field : DescriptionField) : jsstring :=
  match field with
  | Absent | AbsentNull => lit "No description"
  | Plain s => if is_nil (trim s) then lit "No description" else trim s
  | Document (Node _ _ content) =>
      let fragments := flat_map spec_texts (children content) in
      let flat := trim (collapse_ws (join (lit " ") fragments)) in
      if is_nil flat then lit "No description" else flat
  end.

Section Encoding.
Context {NM : NumberModel}.

Definition opt_prop (k : string) (v : option JsVal) : list (jsstring * JsVal) :=
  match v with
  | Some x => [(lit k, x)]
  | None => []
  end.

(** The JSON value of a rich-text node. *)
Fixpoint node_to_js (node : RichTextNode) : JsVal :=
  match node with
  | Node type text content =>
      JObj (opt_prop "type" (option_map JStr type)
            ++ opt_prop "text" (option_map JStr text)
            ++ opt_prop "content"
                 (match content with
                  | Some cs => Some (JArr (map node_to_js cs))
                  | None => None
                  end))
  end.

(** The own properties of that value. *)
Definition node_props (type text : option jsstring)
  (content : option (list RichTextNode)) : list (jsstring * JsVal) :=
  opt_prop "type" (option_map JStr type)
  ++ opt_prop "text" (option_map JStr text)
  ++ opt_prop "content"
       (match content with
        | Some cs => Some (JArr (map node_to_js cs))
        | None => None
        end).

Definition field_to_js (field : DescriptionField) : JsVal :=
  match field with
  | Absent => JUndefined
  | AbsentNull => JNull
  | Plain s => JStr s
  | Document doc => node_to_js doc
  end.

(** The cursor after a page as the specification words it: the reported
    [startAt] (or the local one) plus the reported [maxResults] (or the
    page size requested for this page). *)
Definition spec_next_startAt (st : LoopState) (req : Request) (data : Page) : Z :=
  default (pg_startAt data) (startAt st) + default (pg_maxResults data) (rq_maxResults req).

End Encoding.

(** ** Reading a received value as a rich-text document *)

(** Induction on a JSON value, given the property for the elements of an
    array and for the values of an object's properties. *)
Section JsValInduction.
Context {NM : NumberModel}.

Variable P : JsVal -> Prop.
Hypothesis on_undefined : P JUndefined.
Hypothesis on_null : P JNull.
Hypothesis on_bool : forall b, P (JBool b).
Hypothesis on_num : forall n, P (JNum n).
Hypothesis on_str : forall s, P (JStr s).
Hypothesis on_arr : forall xs, Forall P xs -> P (JArr xs).
Hypothesis on_obj : forall ps, Forall (fun kv => P (snd kv)) ps -> P (JObj ps).

Fixpoint JsVal_nested_ind (v : JsVal) : P v :=
  match v with
  | JUndefined => on_undefined
  | JNull => on_null
  | JBool b => on_bool b
  | JNum n => on_num n
  | JStr s => on_str s
  | JArr xs =>
      on_arr xs
        ((fix all (l : list JsVal) : Forall P l :=
            match l with
            | [] => Forall_nil P
            | x :: l' => Forall_cons x (JsVal_nested_ind x) (all l')
            end) xs)
  | JObj ps =>
      on_obj ps
        ((fix all (l : list (jsstring * JsVal)) : Forall (fun kv => P (snd kv)) l :=
            match l with
            | [] => Forall_nil _
            | (k, x) :: l' =>
                Forall_cons (P := fun kv => P (snd kv)) (k, x) (JsVal_nested_ind x) (all l')
            end) ps)
  end.

End JsValInduction.

Section Decoding.
Context {NM : NumberModel}.

(** The string a property holds, when it holds one. *)
Definition as_string (v : JsVal) : option jsstring :=
  match v with
  | JStr s => Some s
  | _ => None
  end.

(** A received value read as a node of the specification's data model.
    The type tag, the text payload and the child nodes are what its
    properties [type], [text] and [content] hold; whatever else the object
    carries ([version], [attrs], [marks], ...) and the order of its
    properties play no part.  A value that is not an object has none of
    the three. *)
Fixpoint read_node (v : JsVal) : RichTextNode :=
  match v with
  | JObj ps =>
      Node (as_string (assoc (lit "type") ps))
           (as_string (assoc (lit "text") ps))
           ((fix content (qs : list (jsstring * JsVal)) : option (list RichTextNode) :=
               match qs with
               | [] => None
               | (k, x) :: qs' =>
                   if str_eqb (lit "content") k
                   then match x with
                        | JArr xs =>
                            Some ((fix each (ys : list JsVal) : list RichTextNode :=
                                     match ys with
                                     | [] => []
                                     | y :: ys' => read_node y :: each ys'
                                     end) xs)
                        | _ => None
                        end
                   else content qs'
               end) ps)
  | _ => Node None None None
  end.

(** A received description field read as one of the three shapes of the
    specification: a value that is neither missing nor a string is a
    document. *)
Definition read_field (desc : JsVal) : DescriptionField :=
  match desc with
  | JUndefined => Absent
  | JNull => AbsentNull
  | JStr s => Plain s
  | _ => Document (read_node desc)
  end.

(** The payload of a text-tagged object is text: a string, unless it is
    missing or falsy. *)
Definition text_payload_ok (ps : list (jsstring * JsVal)) : bool :=
  negb (is_text_tag (assoc (lit "type") ps))
  || negb (truthy (assoc (lit "text") ps))
  || match assoc (lit "text") ps with
     | JStr _ => true
     | _ => false
     end.

(** Every text-tagged node of a document, down its [content] arrays, has a
    payload that is text. *)
Fixpoint payloads_are_text (v : JsVal) : bool :=
  match v with
  | JObj ps =>
      text_payload_ok ps
      && (fix content (qs : list (jsstring * JsVal)) : bool :=
            match qs with
            | [] => true
            | (k, x) :: qs' =>
                if str_eqb (lit "content") k
                then match x with
                     | JArr xs =>
                         (fix each (ys : list JsVal) : bool :=
                            match ys with
                            | [] => true
                            | y :: ys' => payloads_are_text y && each ys'
                            end) xs
                     | _ => true
                     end
                else content qs'
            end) ps
  | _ => true
  end.

End Decoding.

(** ** Concrete servers and issues *)

Section Concrete.
Context {NM : NumberModel}.

Definition mk_issue (k : string) : JsVal := JObj [(lit "key", JStr (lit k))].

Definition ok_response (data : Page) : Response :=
  {| res_status := 200; res_statusText := lit "OK"; res_text := []; res_json := data |}.

(** A server holding [all] issues that sends at most [limit] of them per
    page and reports the window it served. *)
Definition paging_server (limit : Z) (all : list JsVal) : Server :=
  fun _ req =>
    let m := Z.min (rq_maxResults req) limit in
    ok_response
      {| pg_issues := firstn (Z.to_nat m) (skipn (Z.to_nat (rq_startAt req)) all);
         pg_startAt := Some (rq_startAt req);
         pg_maxResults := Some m;
         pg_total := Some (Z.of_nat (List.length all)) |}.

Definition seven_issues : list JsVal :=
  map mk_issue ["K-1"; "K-2"; "K-3"; "K-4"; "K-5"; "K-6"; "K-7"]%string.

(** The same server, except that the second request is refused. *)
Definition unauthorized_on_second : Server :=
  fun n req =>
    match n with
    | 1%nat => {| res_status := 401; res_statusText := lit "Unauthorized";
                  res_text := lit "denied"; res_json := Build_Page [] None None None |}
    | _ => paging_server 5 seven_issues n req
    end.

(** A first page of one issue out of ten, then an empty page that reports
    only [total = 4]. *)
Definition short_second_page : Server :=
  fun n _ =>
    match n with
    | O => ok_response {| pg_issues := [mk_issue "K-1"]; pg_startAt := Some 0;
                          pg_maxResults := Some 1; pg_total := Some 10 |}
    | _ => ok_response {| pg_issues := []; pg_startAt := None;
                          pg_maxResults := None; pg_total := Some 4 |}
    end.

(** A server that never reports [total]: two issues on a page it reports
    as holding one, then empty pages reported at offset 0. *)
Definition no_total_server : Server :=
  fun n _ =>
    match n with
    | O => ok_response {| pg_issues := [mk_issue "K-1"; mk_issue "K-2"]; pg_startAt := None;
                          pg_maxResults := Some 1; pg_total := None |}
    | _ => ok_response {| pg_issues := []; pg_startAt := Some 0;
                          pg_maxResults := Some 1; pg_total := None |}
    end.

(** A single page without any pagination field. *)
Definition bare_page_server : Server :=
  fun _ _ => ok_response {| pg_issues := [mk_issue "K-1"; mk_issue "K-2"];
                            pg_startAt := None; pg_maxResults := None; pg_total := None |}.

Definition example_base : jsstring := lit "https://x.atlassian.net/".

(** The document [{content: [{content: [{type:"text", text:"foo"}]},
    {type:"text", text:"bar"}]}]. *)
Definition nested_document : RichTextNode :=
  Node None None
    (Some [Node None None (Some [Node (Some (lit "text")) (Some (lit "foo")) None]);
           Node (Some (lit "text")) (Some (lit "bar")) None]).

(** A server that refuses every request with the given status line and
    body. *)
Definition refusing_server (status : Z) (statusText body : string) : Server :=
  fun _ _ => {| res_status := status; res_statusText := lit statusText;
                res_text := lit body; res_json := Build_Page [] None None None |}.

End Concrete.

(** A document as Jira sends it (Atlassian Document Format): the root
    carries [version] and [type], text nodes carry [marks], other nodes
    carry [attrs], and the properties come in no fixed order. *)
Definition adf_document : JsVal :=
  JObj [(lit "version", JNum 1);
        (lit "type", JStr (lit "doc"));
        (lit "content",
         JArr [JObj [(lit "type", JStr (lit "paragraph"));
                     (lit "content",
                      JArr [JObj [(lit "type", JStr (lit "text"));
                                  (lit "text", JStr (lit "Users cannot"));
                                  (lit "marks", JArr [JObj [(lit "type", JStr (lit "strong"))]])];
                            JObj [(lit "type", JStr (lit "hardBreak"))];
                            JObj [(lit "text", JStr (lit "log in"));
                                  (lit "type", JStr (lit "text"))]])];
               JObj [(lit "type", JStr (lit "mention"));
                     (lit "attrs", JObj [(lit "id", JStr (lit "42"));
                                         (lit "text", JStr (lit "@ana"))])]])].

(** An issue in which the server filled every field. *)
Definition full_issue : JsVal :=
  JObj [(lit "key", JStr (lit "K-2"));
        (lit "fields",
         JObj [(lit "summary", JStr (lit "Fix login"));
               (lit "description", adf_document);
               (lit "issuetype", JObj [(lit "name", JStr (lit "Bug"))]);
               (lit "status", JObj [(lit "name", JStr (lit "To Do"))]);
               (lit "priority", JObj [(lit "name", JStr (lit "High"))])])].

(** ** Reading the normalizer's output *)

Section Populated.
Context {NM : NumberModel}.

(** [issue?.k1?.k2...] *)
Definition opt_path (v : JsVal) (ks : list jsstring) : JsVal :=
  fold_left opt_get ks v.

(** A field value that is neither [null], [undefined] nor the empty
    string. *)
Definition populated (v : JsVal) : bool :=
  match v with
  | JUndefined | JNull => false
  | JStr s => negb (is_nil s)
  | _ => true
  end.

Definition all_populated (r : JiraIssue) : bool :=
  populated (key r) && populated (summary r) && negb (is_nil (description r))
  && populated (issueType r) && populated (status r) && populated (priority r)
  && negb (is_nil (url r)).

End Populated.

Section ConcreteIssues.
Context {NM : NumberModel}.

(** The single code unit U+2026 HORIZONTAL ELLIPSIS. *)
Definition ELLIPSIS : jsstring := [8230%N].

Definition long_text : jsstring := repeat 97%N 101.

(** An issue whose description is a plain string of 101 code units. *)
Definition long_issue : JsVal :=
  JObj [(lit "key", JStr (lit "K-1"));
        (lit "fields", JObj [(lit "description", JStr long_text)])].

(** An issue whose summary is the empty string. *)
Definition blank_summary_issue : JsVal :=
  JObj [(lit "key", JStr (lit "K-1"));
        (lit "fields", JObj [(lit "summary", JStr [])])].

(** A page whose only issue is [null]. *)
Definition null_issue_server : Server :=
  fun _ _ => ok_response {| pg_issues := [JNull]; pg_startAt := Some 0;
                            pg_maxResults := Some 1; pg_total := Some 1 |}.

(** The record of the issue [{key: "K-1"}] under [example_base]. *)
Definition k1_record : JiraIssue :=
  {| key := JStr (lit "K-1");
     summary := JStr (lit "No Summary");
     description := lit "No description";
     issueType := JStr (lit "Unknown");
     status := JStr (lit "Unknown");
     priority := JStr (lit "Unknown");
     url := lit "https://x.atlassian.net/browse/K-1" |}.

(** The loop state after the first page of [short_second_page]. *)
Definition after_first_page : LoopState :=
  {| accumulated := [k1_record]; startAt := 1 |}.

(** The second page of [short_second_page]. *)
Definition second_page : Page :=
  {| pg_issues := []; pg_startAt := None; pg_maxResults := None; pg_total := Some 4 |}.

End ConcreteIssues.

(** ** Words: the normal form of white-space normalization *)

(** The segments between white-space code units: the first one, and the
    others. *)
Fixpoint split_ws (s : jsstring) : jsstring * list jsstring :=
  match s with
  | [] => ([], [])
  | c :: s' =>
      let (w, rest) := split_ws s' in
      if is_ws c then ([], w :: rest) else (c :: w, rest)
  end.

Definition nonempty (s : jsstring) : bool := negb (is_nil s).

Definition words (s : jsstring) : list jsstring :=
  let (w, rest) := split_ws s in filter nonempty (w :: rest).

(** ** What a run was served, and how it reads *)

Section Served.
Context {NM : NumberModel}.

(** The raw issues of the pages that answered [reqs], the first of which
    was the [n]-th request of the invocation. *)
Fixpoint served (server : Server) (n : nat) (reqs : list Request) : list JsVal :=
  match reqs with
  | [] => []
  | rq :: rest => pg_issues (res_json (server n rq)) ++ served server (S n) rest
  end.

(** A text payload that cannot be printed: an object whose own property
    [toString] hides [Object.prototype.toString]. *)
Definition unprintable : JsVal := JObj [(lit "toString", JNull)].

(** A document with a readable text node and an unprintable one. *)
Definition half_printable_document : JsVal :=
  JObj [(lit "content",
         JArr [JObj [(lit "type", JStr (lit "text")); (lit "text", JStr (lit "hello"))];
               JObj [(lit "type", JStr (lit "text")); (lit "text", unprintable)]])].

End Served.

(** Every white-space code unit of [s] is a U+0020 that is followed by a
    code unit that is not white space. *)
Fixpoint single_spaced (s : jsstring) : bool :=
  match s with
  | [] => true
  | c :: rest =>
      (if is_ws c
       then N.eqb c space && match rest with
                             | d :: _ => negb (is_ws d)
                             | [] => false
                             end
       else true)
      && single_spaced rest
  end.

Definition no_ws (w : jsstring) : bool := forallb (fun c => negb (is_ws c)) w.

(** * The rest of the extension

    The random selection, the file heuristics, the slice command and the
    sidebar that shows the tickets. *)

(** ** Random selection (utils/selection.ts) and the nonce (utils/webview.ts) *)

(** [draws k n] is the value of [Math.floor(Math.random() * n)] when
    [Math.random()] is evaluated for the [k]-th time.  [Math.random()] is
    in [0, 1), so the value is an index below [n]; the properties that need
    it assume so. *)
Definition Draws : Type := nat -> nat -> nat.

Section Selection.
Variable T : Type.
Variable draws : Draws.
Variable arr : list T.
Variable count : Z.

(** The [while] loop of [pickRandom], from the [k]-th draw on.  [used] is
    the set of indices, [picked] the array; [arr[i]] is [undefined] ([None])
    outside the array.  [fuel] bounds the number of draws; the result comes
    with the number of draws made so far. *)
Fixpoint pick_loop (fuel k : nat) (used : list nat) (picked : list (option T))
  : option (list (option T) * nat) :=
  if Z.of_nat (List.length picked) <? count then
    match fuel with
    | O => None
    | S fuel' =>
        let i := draws k (List.length arr) in
        if existsb (Nat.eqb i) used
        then pick_loop fuel' (S k) used picked
        else pick_loop fuel' (S k) (used ++ [i]) (picked ++ [nth_error arr i])
    end
  else Some (picked, k).

Definition pickRandom (fuel k : nat) : option (list (option T) * nat) :=
  if Z.of_nat (List.length arr) <=? count then Some (map Some arr, k)
  else pick_loop fuel k [] [].

End Selection.

(** The index drawn at the [k]-th evaluation for the array [arr]. *)
Definition index_at {T : Type} (draws : Draws) (arr : list T) (k : nat) : nat :=
  draws k (List.length arr).

Arguments pick_loop {T} draws arr count fuel k used picked.
Arguments pickRandom {T} draws arr count fuel k.

Definition NONCE_CHARS : jsstring :=
  lit "ABCDEFGHIJKLMNOPQRSTUVWXYZabcdefghijklmnopqrstuvwxyz0123456789".

(** [s.charAt(i)]: the empty string outside the string. *)
Definition charAt (s : jsstring) (i : nat) : jsstring :=
  match nth_error s i with
  | Some c => [c]
  | None => []
  end.

(** The [for] loop of [getNonce] with [n] turns left, from the [k]-th
    draw on. *)
Fixpoint nonce_loop (draws : Draws) (n k : nat) (nonce : jsstring) : jsstring :=
  match n with
  | O => nonce
  | S n' => nonce_loop draws n' (S k) (nonce ++ charAt NONCE_CHARS (draws k (List.length NONCE_CHARS)))
  end.

Definition getNonce (draws : Draws) (k : nat) : jsstring :=
  nonce_loop draws 32 k [].

(** ASCII letters and digits. *)
Definition is_alnum (c : N) : bool :=
  ((48 <=? c) && (c <=? 57) || (65 <=? c) && (c <=? 90) || (97 <=? c) && (c <=? 122))%N.

(** Draws that go round the indices. *)
Definition round_robin : Draws := fun k n => (k mod n)%nat.

(** Draws that always give the same index. *)
Definition stuck_at (i : nat) : Draws := fun _ _ => i.

(** ** Regular expressions *)

(** The regular expressions of utils/heuristics.ts use only literals,
    character classes, alternation, [?] and [+]; for these, [test] answers
    whether some substring (delimited by the anchors) is in the language. *)
Inductive regex : Type :=
| Void
| Eps
| Cls (p : N -> bool)
| Cat (r s : regex)
| Alt (r s : regex)
| Star (r : regex).

Fixpoint nullable (r : regex) : bool :=
  match r with
  | Void => false
  | Eps => true
  | Cls _ => false
  | Cat r s => nullable r && nullable s
  | Alt r s => nullable r || nullable s
  | Star _ => true
  end.

(** The derivative: what must follow the code unit [c]. *)
Fixpoint deriv (c : N) (r : regex) : regex :=
  match r with
  | Void | Eps => Void
  | Cls p => if p c then Eps else Void
  | Cat r s =>
      if nullable r then Alt (Cat (deriv c r) s) (deriv c s)
      else Cat (deriv c r) s
  | Alt r s => Alt (deriv c r) (deriv c s)
  | Star r => Cat (deriv c r) (Star r)
  end.

Fixpoint matches (r : regex) (s : jsstring) : bool :=
  match s with
  | [] => nullable r
  | c :: s' => matches (deriv c r) s'
  end.

(** The language of a regular expression. *)
Inductive Lang : regex -> jsstring -> Prop :=
| Lang_eps : Lang Eps []
| Lang_cls p c : p c = true -> Lang (Cls p) [c]
| Lang_cat r s a b : Lang r a -> Lang s b -> Lang (Cat r s) (a ++ b)
| Lang_alt_l r s a : Lang r a -> Lang (Alt r s) a
| Lang_alt_r r s a : Lang s a -> Lang (Alt r s) a
| Lang_star_nil r : Lang (Star r) []
| Lang_star_app r a b : Lang r a -> Lang (Star r) b -> Lang (Star r) (a ++ b).

Fixpoint Str (w : jsstring) : regex :=
  match w with
  | [] => Eps
  | c :: w' => Cat (Cls (N.eqb c)) (Str w')
  end.

(** A literal. *)
Definition Lit (s : string) : regex := Str (lit s).

(** [(w1|w2|...)] *)
Fixpoint OneOf (ws : list string) : regex :=
  match ws with
  | [] => Void
  | w :: ws' => Alt (Lit w) (OneOf ws')
  end.

(** [r?] and [r+] *)
Definition Opt (r : regex) : regex := Alt r Eps.
Definition Plus (r : regex) : regex := Cat r (Star r).

Definition any : regex := Cls (fun _ => true).

(** [/r/.test(s)], [/r$/.test(s)] and [/^r$/.test(s)]. *)
Definition test_anywhere (r : regex) (s : jsstring) : bool :=
  matches (Cat (Star any) (Cat r (Star any))) s.

Definition test_at_end (r : regex) (s : jsstring) : bool :=
  matches (Cat (Star any) r) s.

Definition test_whole (r : regex) (s : jsstring) : bool := matches r s.

(** ** File heuristics (utils/heuristics.ts) *)

(** [[a-z0-9]] *)
Definition lower_alnum (c : N) : bool :=
  ((97 <=? c) && (c <=? 122) || (48 <=? c) && (c <=? 57))%N.

(** [[\/\\]] *)
Definition is_sep (c : N) : bool := ((c =? 47) || (c =? 92))%N.

Definition dot : N := 46%N.

(** [\.[a-z0-9]+] *)
Definition EXTENSION : regex := Cat (Lit ".") (Plus (Cls lower_alnum)).

(** [/\.(test|spec)\.[a-z0-9]+$/] *)
Definition TEST_MARKER : regex :=
  Cat (Lit ".") (Cat (OneOf ["test"; "spec"]%string) EXTENSION).

(** [/(_|-)?test\.[a-z0-9]+$/] *)
Definition TEST_SUFFIX : regex :=
  Cat (Opt (Alt (Lit "_") (Lit "-"))) (Cat (Lit "test") EXTENSION).

(** [/\.(test|spec)\.(js|cjs|mjs|ts|tsx|jsx|vue|svelte)$/] *)
Definition TEST_MARKER_JS : regex :=
  Cat (Lit ".") (Cat (OneOf ["test"; "spec"]%string)
    (Cat (Lit ".") (OneOf ["js"; "cjs"; "mjs"; "ts"; "tsx"; "jsx"; "vue"; "svelte"]%string))).

(** [/(_|-)?test\.(js|cjs|mjs|ts|tsx|jsx|py|rb|go|java|kt|cs)$/] *)
Definition TEST_SUFFIX_LANG : regex :=
  Cat (Opt (Alt (Lit "_") (Lit "-")))
    (Cat (Lit "test")
       (Cat (Lit ".")
          (OneOf ["js"; "cjs"; "mjs"; "ts"; "tsx"; "jsx"; "py"; "rb"; "go"; "java"; "kt";
                  "cs"]%string))).

(** [/[\/\\]__tests__[\/\\]/] *)
Definition TESTS_DUNDER_DIR : regex :=
  Cat (Cls is_sep) (Cat (Lit "__tests__") (Cls is_sep)).

(** [/[\/\\](test|tests)[\/\\]/] *)
Definition TEST_DIR : regex :=
  Cat (Cls is_sep) (Cat (OneOf ["test"; "tests"]%string) (Cls is_sep)).

(** [/^(readme|changelog|contributing|license)(\.[a-z0-9]+)?$/] *)
Definition DOC_NAME : regex :=
  Cat (OneOf ["readme"; "changelog"; "contributing"; "license"]%string) (Opt EXTENSION).

(** [/\.(md|mdx|rst|adoc|asciidoc|org|txt)$/] *)
Definition DOC_EXTENSION : regex :=
  Cat (Lit ".") (OneOf ["md"; "mdx"; "rst"; "adoc"; "asciidoc"; "org"; "txt"]%string).

(** [/[\/\\](docs|documentation)[\/\\]/] *)
Definition DOC_DIR : regex :=
  Cat (Cls is_sep) (Cat (OneOf ["docs"; "documentation"]%string) (Cls is_sep)).

Section Heuristics.

(** Node's [path.basename], which depends on the platform. *)
Variable basename : jsstring -> jsstring.

Definition isTestFile (fsPathLower : jsstring) : bool :=
  let base := basename fsPathLower in
  if test_at_end TEST_MARKER base then true
  else if test_at_end TEST_SUFFIX base then true
  else if test_at_end TEST_MARKER_JS base then true
  else if test_at_end TEST_SUFFIX_LANG base then true
  else if test_anywhere TESTS_DUNDER_DIR fsPathLower then true
  else if test_anywhere TEST_DIR fsPathLower then true
  else false.

Definition isDocFile (fsPathLower : jsstring) : bool :=
  let base := basename fsPathLower in
  if test_whole DOC_NAME base then true
  else if test_at_end DOC_EXTENSION base then true
  else if test_anywhere DOC_DIR fsPathLower then true
  else false.

End Heuristics.

(** [base] ends with [marker], a dot and a non-empty extension of lower
    case letters and digits. *)
Definition ends_with_marker (marker : string) (base : jsstring) : Prop :=
  exists pre ext,
    base = pre ++ lit marker ++ dot :: ext
    /\ ext <> [] /\ forallb lower_alnum ext = true.

(** [path] has a directory component that is one of [names]. *)
Definition in_directory (names : list string) (path : jsstring) : Prop :=
  exists pre s1 name s2 suf,
    path = pre ++ s1 :: lit name ++ s2 :: suf
    /\ is_sep s1 = true /\ is_sep s2 = true /\ In name names.

(** [path.posix.basename]: the last component, trailing slashes apart. *)
Definition posix_basename (path : jsstring) : jsstring :=
  let fix drop (s : jsstring) : jsstring :=
    match s with
    | [] => []
    | c :: s' => if N.eqb c slash then drop s' else s
    end in
  let fix take (s : jsstring) : jsstring :=
    match s with
    | [] => []
    | c :: s' => if N.eqb c slash then [] else c :: take s'
    end in
  rev (take (drop (rev path))).

(** [base] is one of the documentation names, alone or with one
    extension of lower case letters and digits. *)
Definition has_doc_name (base : jsstring) : Prop :=
  exists name,
    In name ["readme"; "changelog"; "contributing"; "license"]%string
    /\ (base = lit name
        \/ exists ext, base = lit name ++ dot :: ext
                       /\ ext <> [] /\ forallb lower_alnum ext = true).

(** [base] ends with a dot and one of the documentation extensions. *)
Definition has_doc_extension (base : jsstring) : Prop :=
  exists pre e,
    In e ["md"; "mdx"; "rst"; "adoc"; "asciidoc"; "org"; "txt"]%string
    /\ base = pre ++ dot :: lit e.

(** ** Slicing the workspace (features/slice.ts) *)

Section Slice.
Variable Uri : Type.
Variable fsPath : Uri -> jsstring.

(** Node's [path.basename] and [String.prototype.toLowerCase]. *)
Variable basename : jsstring -> jsstring.
Variable toLowerCase : jsstring -> jsstring.
Variable draws : Draws.

(** The arrays [code], [tests] and [docs]. *)
Record Buckets : Type := {
  code : list Uri;
  tests : list Uri;
  docs : list Uri
}.

(** The [for] loop over the files found. *)
Fixpoint classify (all : list Uri) (b : Buckets) : Buckets :=
  match all with
  | [] => b
  | uri :: rest =>
      let lower := toLowerCase (fsPath uri) in
      if isDocFile basename lower
      then classify rest {| code := code b; tests := tests b; docs := docs b ++ [uri] |}
      else if isTestFile basename lower
      then classify rest {| code := code b; tests := tests b ++ [uri]; docs := docs b |}
      else classify rest {| code := code b ++ [uri]; tests := tests b; docs := docs b |}
  end.

(** What the three tree providers hold ([_files]). *)
Record Views : Type := {
  files_view : list (option Uri);
  tests_view : list (option Uri);
  docs_view : list (option Uri)
}.

Definition selected_message (nCode nTests nDocs : nat) : jsstring :=
  lit "Selected files - Code: " ++ decimal (Z.of_nat nCode)
  ++ lit ", Tests: " ++ decimal (Z.of_nat nTests)
  ++ lit ", Docs: " ++ decimal (Z.of_nat nDocs).

(** [sliceAndNotify] on the files [all] that [findFiles] found, from the
    [k]-th draw on: the new content of the providers, the information
    message shown and the number of draws made so far.  [fuel] bounds the
    draws of each selection. *)
Definition sliceAndNotify (all : list Uri) (fuel k : nat) (views : Views)
  : option (Views * jsstring * nat) :=
  if is_nil all
  then Some (views, lit "No files found in the current workspace.", k)
  else
    let b := classify all {| code := []; tests := []; docs := [] |} in
    match pickRandom draws (code b) 5 fuel k with
    | None => None
    | Some (selectedCode, k1) =>
        match pickRandom draws (tests b) 5 fuel k1 with
        | None => None
        | Some (selectedTests, k2) =>
            match pickRandom draws (docs b) 5 fuel k2 with
            | None => None
            | Some (selectedDocs, k3) =>
                Some ({| files_view := selectedCode;
                         tests_view := selectedTests;
                         docs_view := selectedDocs |},
                      selected_message (List.length selectedCode)
                        (List.length selectedTests) (List.length selectedDocs),
                      k3)
            end
        end
    end.

(** The three kinds of file, as the loop tells them apart. *)
Definition is_doc (uri : Uri) : bool := isDocFile basename (toLowerCase (fsPath uri)).

Definition is_test (uri : Uri) : bool :=
  negb (is_doc uri) && isTestFile basename (toLowerCase (fsPath uri)).

Definition is_code (uri : Uri) : bool :=
  negb (is_doc uri) && negb (isTestFile basename (toLowerCase (fsPath uri))).

End Slice.

Arguments code {Uri} b.
Arguments tests {Uri} b.
Arguments docs {Uri} b.
Arguments files_view {Uri} v.
Arguments tests_view {Uri} v.
Arguments docs_view {Uri} v.

(** ASCII lower case, for paths of ASCII characters. *)
Definition ascii_lower (s : jsstring) : jsstring :=
  map (fun c => if ((65 <=? c) && (c <=? 90))%N then (c + 32)%N else c) s.

(** A small workspace. *)
Definition small_workspace : list jsstring :=
  map lit ["/w/src/main.ts"; "/w/src/main.test.ts"; "/w/README.md"; "/w/docs/api.test.ts";
           "/w/src/util.ts"]%string.

(** Providers that hold nothing yet. *)
Definition no_views : Views jsstring :=
  {| files_view := []; tests_view := []; docs_view := [] |}.

(** [sliceAndNotify] on paths themselves, with POSIX base names, ASCII
    lower case and draws that go round. *)
Definition slice_paths (all : list jsstring) (fuel : nat)
  : option (Views jsstring * jsstring * nat) :=
  sliceAndNotify jsstring (fun p => p) posix_basename ascii_lower round_robin
    all fuel O no_views.

(** ** The sidebar (views/sliceViewProvider.ts) *)

Definition nl : N := 10%N.

(** A piece of markup of the source, written with a backquote where the
    source has a double quote. *)
Definition markup (s : string) : jsstring :=
  map (fun c => if N.eqb c 96 then 34%N else c) (lit s).

(** The lines of a stretch of a template literal. *)
Definition template_text (lines : list string) : jsstring :=
  join [nl] (map markup lines).

(** The policy template up to [${webview.cspSource}]. *)
Definition CSP_0 : jsstring :=
  template_text
    ["";
     "      default-src 'none';";
     "      img-src "]%string.

(** The policy template up to [${nonce}]. *)
Definition CSP_1 : jsstring :=
  template_text
    [" https:;";
     "      style-src 'nonce-"]%string.

(** The policy template up to [${nonce}]. *)
Definition CSP_2 : jsstring :=
  template_text
    ["';";
     "      script-src 'nonce-"]%string.

(** The policy template to its end. *)
Definition CSP_3 : jsstring :=
  template_text
    ["';";
     "    "]%string.

(** The ticket card template up to [${ticket.url}]. *)
Definition CARD_0 : jsstring :=
  template_text
    ["";
     "        <div class=`ticket-item` data-url=`"]%string.

(** The ticket card template up to [${ticket.key}]. *)
Definition CARD_1 : jsstring :=
  template_text
    ["`>";
     "          <div class=`ticket-header`>";
     "            <span class=`ticket-key`>"]%string.

(** The ticket card template up to [${ticket.issueType.toLowerCase()}]. *)
Definition CARD_2 : jsstring :=
  template_text
    ["</span>";
     "            <span class=`ticket-type "]%string.

(** The ticket card template up to [${ticket.issueType}]. *)
Definition CARD_3 : jsstring :=
  template_text
    ["`>"]%string.

(** The ticket card template up to [${ticket.summary}]. *)
Definition CARD_4 : jsstring :=
  template_text
    ["</span>";
     "          </div>";
     "          <div class=`ticket-title`>"]%string.

(** The ticket card template up to [${ticket.description}]. *)
Definition CARD_5 : jsstring :=
  template_text
    ["</div>";
     "            <div class=`ticket-description`>"]%string.

(** The ticket card template up to [${ticket.status}]. *)
Definition CARD_6 : jsstring :=
  template_text
    ["</div>";
     "            <div class=`ticket-status`>Status: "]%string.

(** The ticket card template to its end. *)
Definition CARD_7 : jsstring :=
  template_text
    ["</div>";
     "          </div>";
     "        "]%string.

(** The page template up to [${csp}]. *)
Definition PAGE_0 : jsstring :=
  template_text
    ["<!DOCTYPE html>";
     "      <html lang=`en`>";
     "      <head>";
     "        <meta charset=`UTF-8` />";
     "        <meta http-equiv=`Content-Security-Policy` content=`"]%string.

(** The page template up to [${nonce}]. *)
Definition PAGE_1 : jsstring :=
  template_text
    ["`>";
     "        <meta name=`viewport` content=`width=device-width, initial-scale=1.0` />";
     "        <title>CodeSlice</title>";
     "        <style nonce=`"]%string.

(** The page template up to [${ticketsHtml}]. *)
Definition PAGE_2 : jsstring :=
  template_text
    ["`>";
     "          body { font-family: var(--vscode-font-family); color: var(--vscode-foreground); padding: 12px; }";
     "          .welcome { margin-bottom: 12px; }";
     "          button {";
     "            background: var(--vscode-button-background);";
     "            color: var(--vscode-button-foreground);";
     "            border: none; padding: 6px 12px; cursor: pointer;";
     "          }";
     "          button:hover { background: var(--vscode-button-hoverBackground); }";
     "";
     "          .tickets-section {";
     "            border-top: 1px solid var(--vscode-panel-border);";
     "            padding-top: 16px;";
     "          }";
     "          .tickets-title {";
     "            font-weight: bold;";
     "            margin-bottom: 12px;";
     "            color: var(--vscode-foreground);";
     "          }";
     "          .ticket-item {";
     "            background: var(--vscode-editor-background);";
     "            border: 1px solid var(--vscode-panel-border);";
     "            border-radius: 4px;";
     "            padding: 10px;";
     "            margin-bottom: 8px;";
     "            cursor: pointer;";
     "            transition: background-color 0.1s;";
     "          }";
     "          .ticket-item:hover {";
     "            background: var(--vscode-list-hoverBackground);";
     "          }";
     "          .ticket-header {";
     "            display: flex;";
     "            justify-content: space-between;";
     "            align-items: center;";
     "            margin-bottom: 4px;";
     "          }";
     "          .ticket-key {";
     "            font-family: var(--vscode-editor-font-family);";
     "            font-size: 11px;";
     "            color: var(--vscode-textLink-foreground);";
     "            font-weight: bold;";
     "          }";
     "          .ticket-type {";
     "            font-size: 10px;";
     "            padding: 2px 6px;";
     "            border-radius: 10px;";
     "            text-transform: uppercase;";
     "            font-weight: bold;";
     "          }";
     "          .ticket-type.bug { background: #f14c4c; color: white; }";
     "          .ticket-type.story { background: #63ba3c; color: white; }";
     "          .ticket-type.task { background: #4a90e2; color: white; }";
     "          .ticket-type.epic { background: #904ee2; color: white; }";
     "          .ticket-type.feature { background: #f7931e; color: white; }";
     "          .ticket-title {";
     "            font-weight: 500;";
     "            margin-bottom: 4px;";
     "            line-height: 1.3;";
     "          }";
     "          .ticket-description {";
     "            font-size: 11px;";
     "            color: var(--vscode-descriptionForeground);";
     "            margin-bottom: 4px;";
     "            line-height: 1.2;";
     "          }";
     "          .ticket-status {";
     "            font-size: 10px;";
     "            color: var(--vscode-descriptionForeground);";
     "          }";
     "          .no-tickets {";
     "            color: var(--vscode-descriptionForeground);";
     "            font-style: italic;";
     "            text-align: center;";
     "            padding: 20px;";
     "          }";
     "        </style>";
     "      </head>";
     "      <body>";
     "        <!-- Welcome Message and Slice Button -->";
     "        <div class=`welcome`>Welcome to CodeSlice! Click Slice to pick 5 random files from your workspace.</div>";
     "        <button id=`sliceBtn` type=`button`>Slice</button>";
     "        <button id=`refreshBtn` type=`button`>Refresh Tickets</button>";
     "";
     "        <!-- Jira Tickets Section -->";
     "        <div class=`tickets-section`>";
     "          <div class=`tickets-title`>My Jira Tickets</div>";
     "          <div id=`tickets-container`>";
     "            "]%string.

(** The page template up to [${nonce}]. *)
Definition PAGE_3 : jsstring :=
  template_text
    ["";
     "          </div>";
     "        </div>";
     "";
     "        <script nonce=`"]%string.

(** The page template to its end. *)
Definition PAGE_4 : jsstring :=
  template_text
    ["`>";
     "          const vscode = acquireVsCodeApi();";
     "          document.getElementById('sliceBtn')?.addEventListener('click', () => {";
     "            vscode.postMessage({ type: 'slice' });";
     "          });";
     "          document.getElementById('refreshBtn')?.addEventListener('click', () => {";
     "  vscode.postMessage({ type: 'refreshTickets' });";
     "});";
     "";
     "          // Handle ticket clicks";
     "          document.querySelectorAll('.ticket-item').forEach(item => {";
     "            item.addEventListener('click', () => {";
     "              const url = item.getAttribute('data-url');";
     "              if (url) {";
     "                vscode.postMessage({ type: 'openTicket', url: url });";
     "              }";
     "            });";
     "          });";
     "        </script>";
     "      </body>";
     "      </html>"]%string.

Definition NO_TICKETS : jsstring :=
  markup "<div class=`no-tickets`>No Jira tickets found. Configure Jira integration in settings.</div>".

(** [s.replace(/\s{2,}/g, ' ')]: every maximal run of two or more white
    space code units becomes one space; a single one stays.  [skipping]
    tells that such a run is being passed over. *)
Fixpoint collapse_runs (skipping : bool) (s : jsstring) : jsstring :=
  match s with
  | [] => []
  | c :: s' =>
      if is_ws c then
        if skipping then collapse_runs true s'
        else
          match s' with
          | d :: _ => if is_ws d then space :: collapse_runs true s'
                      else c :: collapse_runs false s'
          | [] => [c]
          end
      else c :: collapse_runs false s'
  end.

Section Sidebar.
Context {NM : NumberModel}.

(** [String.prototype.toLowerCase]. *)
Variable toLowerCase : jsstring -> jsstring.
Variable draws : Draws.

(** [v.toLowerCase()]: only a string has the method. *)
Definition call_toLowerCase (v : JsVal) : Result jsstring :=
  match v with
  | JStr s => Ok (toLowerCase s)
  | _ => Throw TypeError
  end.

(** The template literal of one ticket. *)
Definition ticketCard (ticket : JiraIssue) : Result jsstring :=
  k <- toString (key ticket) ;;
  lowerType <- call_toLowerCase (issueType ticket) ;;
  type <- toString (issueType ticket) ;;
  title <- toString (summary ticket) ;;
  state <- toString (status ticket) ;;
  Ok (CARD_0 ++ url ticket ++ CARD_1 ++ k ++ CARD_2 ++ lowerType ++ CARD_3 ++ type
      ++ CARD_4 ++ title ++ CARD_5 ++ description ticket ++ CARD_6 ++ state ++ CARD_7).

(** [tickets.map(ticket => ...)] *)
Fixpoint ticketCards (tickets : list JiraIssue) : Result (list jsstring) :=
  match tickets with
  | [] => Ok []
  | ticket :: rest =>
      card <- ticketCard ticket ;;
      cards <- ticketCards rest ;;
      Ok (card :: cards)
  end.

Definition ticketsHtml (tickets : list JiraIssue) : Result jsstring :=
  if (0 <? List.length tickets)%nat
  then cards <- ticketCards tickets ;; Ok (List.concat cards)
  else Ok NO_TICKETS.

Definition contentSecurityPolicy (cspSource nonce : jsstring) : jsstring :=
  trim (collapse_runs false
          (CSP_0 ++ cspSource ++ CSP_1 ++ nonce ++ CSP_2 ++ nonce ++ CSP_3)).

(** [getHtml], from the [k]-th draw on; the nonce takes 32 draws. *)
Definition getHtml (tickets : list JiraIssue) (cspSource : jsstring) (k : nat)
  : Result jsstring * nat :=
  let nonce := getNonce draws k in
  let csp := contentSecurityPolicy cspSource nonce in
  (html <- ticketsHtml tickets ;;
   Ok (PAGE_0 ++ csp ++ PAGE_1 ++ nonce ++ PAGE_2 ++ html ++ PAGE_3 ++ nonce ++ PAGE_4),
   (k + 32)%nat).

(** The webview of a resolved view. *)
Record Webview : Type := {
  cspSource : jsstring;
  html : jsstring
}.

(** The provider: its tickets, its view if one was resolved, and the
    errors reported with [showErrorMessage], oldest first. *)
Record Sidebar : Type := {
  jiraTickets : list JiraIssue;
  view : option Webview;
  reported : list Exn
}.

(** The settings [codeslice.jira]; a setting that is not set reads as
    [undefined]. *)
Record JiraSettings : Type := {
  set_baseUrl : option jsstring;
  set_email : option jsstring;
  set_apiToken : option jsstring
}.

(** [!setting] *)
Definition unset (setting : option jsstring) : bool :=
  match setting with
  | Some (_ :: _) => false
  | _ => true
  end.

Definition report (e : Exn) (s : Sidebar) : Sidebar :=
  {| jiraTickets := jiraTickets s; view := view s; reported := reported s ++ [e] |}.

(** [updateWebview] *)
Definition updateWebview (s : Sidebar) (k : nat) : Result Sidebar * nat :=
  match view s with
  | None => (Ok s, k)
  | Some w =>
      match getHtml (jiraTickets s) (cspSource w) k with
      | (Ok page, k') =>
          (Ok {| jiraTickets := jiraTickets s;
                 view := Some {| cspSource := cspSource w; html := page |};
                 reported := reported s |}, k')
      | (Throw e, k') => (Throw e, k')
      end
  end.

(** [loadJiraTickets] (and [refreshJiraTickets], which awaits it), with
    the server the configured site answers as.  [None] stands for a fetch
    that does not end within [fuel] requests. *)
Definition loadJiraTickets (settings : JiraSettings) (server : Server)
  (fuel k : nat) (s : Sidebar) : option (Sidebar * nat) :=
  match set_baseUrl settings with
  | Some baseUrl =>
      if unset (set_baseUrl settings) || unset (set_email settings)
         || unset (set_apiToken settings)
      then Some (s, k)
      else
        match fst (getCurrentUserIssues server baseUrl 10 fuel) with
        | OutOfFuel => None
        | Threw e => Some (report e s, k)
        | Returned issues =>
            let s1 := {| jiraTickets := issues; view := view s; reported := reported s |} in
            match updateWebview s1 k with
            | (Ok s2, k') => Some (s2, k')
            | (Throw e, k') => Some (report e s1, k')
            end
        end
  | None => Some (s, k)
  end.

(** The text shown for an error thrown by the service:
    [`Failed to load Jira tickets: ${error}`]. *)
Definition failure_text (message : jsstring) : jsstring :=
  lit "Failed to load Jira tickets: Error: " ++ message.

(** A ticket that the templates can print. *)
Definition printable (ticket : JiraIssue) : bool :=
  match toString (key ticket), issueType ticket,
        toString (summary ticket), toString (status ticket) with
  | Ok _, JStr _, Ok _, Ok _ => true
  | _, _, _, _ => false
  end.

End Sidebar.

Section SidebarExamples.
Context {NM : NumberModel}.

Definition example_settings : JiraSettings :=
  {| set_baseUrl := Some example_base;
     set_email := Some (lit "me@example.com");
     set_apiToken := Some (lit "token") |}.

(** A provider whose view is not resolved yet. *)
Definition fresh_sidebar : Sidebar :=
  {| jiraTickets := []; view := None; reported := [] |}.

Definition blank_webview : Webview := {| cspSource := lit "vscode-webview:"; html := [] |}.

(** A provider with a resolved view and one ticket. *)
Definition shown_sidebar : Sidebar :=
  {| jiraTickets := [k1_record]; view := Some blank_webview; reported := [] |}.

End SidebarExamples.

(** A page whose issue has a number as issue type name. *)
Definition numeric_type_server : Server :=
  fun _ _ =>
    ok_response
      {| pg_issues := [JObj [(lit "key", JStr (lit "K-9"));
                             (lit "fields",
                              JObj [(lit "issuetype", JObj [(lit "name", JNum 5)])])]];
         pg_startAt := Some 0; pg_maxResults := Some 1; pg_total := Some 1 |}.

(** * Properties *)

(** ** Strings *)

Lemma str_eqb_eq (a b : jsstring) : str_eqb a b = true <-> a = b.
Proof.
  revert b; induction a as [|x a IH]; intros [|y b]; simpl; split; intro H;
    try reflexivity; try discriminate.
  - apply andb_true_iff in H as [Hx Hab].
    apply N.eqb_eq in Hx. apply IH in Hab. now subst.
  - injection H as -> ->. apply andb_true_iff; split.
    + apply N.eqb_refl.
    + now apply IH.
Qed.

Lemma is_nil_true {A : Type} (l : list A) : is_nil l = true <-> l = [].
Proof. destruct l; simpl; split; intro H; try reflexivity; discriminate. Qed.

Lemma or_default_nonempty (s d : jsstring) : d <> [] -> or_default s d <> [].
Proof.
  unfold or_default. destruct s; simpl; intros Hd; [assumption | discriminate].
Qed.

Lemma join_cons (sep p : jsstring) (rest : list jsstring) :
  join sep (p :: rest) = p ++ (if is_nil rest then [] else sep ++ join sep rest).
Proof. destruct rest; simpl; [now rewrite app_nil_r | reflexivity]. Qed.

Lemma join_is_nil (sep : jsstring) (l : list jsstring) :
  forallb nonempty l = true -> is_nil (join sep l) = is_nil l.
Proof.
  destruct l as [|p rest]; [reflexivity|].
  intros H. apply andb_true_iff in H as [Hp _].
  rewrite join_cons. destruct p; [discriminate | reflexivity].
Qed.

Lemma forallb_filter {A : Type} (f : A -> bool) (l : list A) :
  forallb f (filter f l) = true.
Proof.
  induction l as [|x l IH]; simpl; [reflexivity|].
  destruct (f x) eqn:E; simpl; [now rewrite E | assumption].
Qed.

Lemma collapse_true_no_leading_ws (s : jsstring) :
  trim_start (collapse_from true s) = collapse_from true s.
Proof.
  induction s as [|c s IH]; simpl; [reflexivity|].
  destruct (is_ws c) eqn:E; [assumption | simpl; now rewrite E].
Qed.

Lemma trim_start_collapse (s : jsstring) :
  trim_start (collapse_from false s) = collapse_from true s.
Proof.
  destruct s as [|c s]; simpl; [reflexivity|].
  destruct (is_ws c) eqn:E; simpl.
  - apply collapse_true_no_leading_ws.
  - now rewrite E.
Qed.

(** After collapsing, what is left between the trimmed ends are the words,
    one space apart. *)
Lemma trim_end_collapse (s : jsstring) :
  trim_end (collapse_from true s) = join [space] (words s)
  /\ trim_end (collapse_from false s) =
       fst (split_ws s) ++
       (if is_nil (filter nonempty (snd (split_ws s))) then []
        else space :: join [space] (filter nonempty (snd (split_ws s)))).
Proof.
  unfold words.
  induction s as [|c s [IHt IHf]]; simpl; [split; reflexivity|].
  destruct (split_ws s) as [w rest] eqn:Es. simpl in IHf.
  destruct (is_ws c) eqn:Ec; simpl.
  - split; [exact IHt|].
    rewrite IHt. change (is_ws space) with true. simpl.
    rewrite join_is_nil by apply (forallb_filter nonempty (w :: rest)).
    reflexivity.
  - rewrite Ec. simpl. rewrite IHf. split; [|reflexivity].
    destruct (filter nonempty rest); simpl; [now rewrite app_nil_r | reflexivity].
Qed.

Lemma normalize_ws_words (s : jsstring) :
  trim (collapse_ws s) = join [space] (words s).
Proof.
  unfold trim, collapse_ws. rewrite trim_start_collapse.
  apply trim_end_collapse.
Qed.

Lemma split_ws_app (a b : jsstring) (c : N) :
  is_ws c = true ->
  split_ws (a ++ c :: b) =
    (fst (split_ws a), snd (split_ws a) ++ fst (split_ws b) :: snd (split_ws b)).
Proof.
  intros Hc. induction a as [|x a IH]; simpl.
  - rewrite Hc. now destruct (split_ws b).
  - rewrite IH. destruct (split_ws a) as [wa ra]. simpl.
    now destruct (is_ws x).
Qed.

Lemma words_app (a b : jsstring) (c : N) :
  is_ws c = true -> words (a ++ c :: b) = words a ++ words b.
Proof.
  intros Hc. unfold words. rewrite (split_ws_app a b c Hc).
  destruct (split_ws a) as [wa ra], (split_ws b) as [wb rb].
  cbn [fst snd]. rewrite app_comm_cons. apply filter_app.
Qed.

Lemma words_join (parts : list jsstring) :
  words (join [space] parts) = flat_map words parts.
Proof.
  induction parts as [|p rest IH]; [reflexivity|].
  destruct rest as [|q rest].
  - simpl. now rewrite app_nil_r.
  - change (join [space] (p :: q :: rest)) with (p ++ space :: join [space] (q :: rest)).
    rewrite words_app by reflexivity. now rewrite IH.
Qed.

(** Empty fragments leave no trace once white space is normalized. *)
Lemma normalize_join_nonempty (parts : list jsstring) :
  trim (collapse_ws (join [space] (filter nonempty parts)))
  = trim (collapse_ws (join [space] parts)).
Proof.
  rewrite !normalize_ws_words, !words_join. f_equal.
  induction parts as [|p rest IH]; [reflexivity|].
  destruct p as [|c p]; cbn [filter nonempty is_nil negb flat_map].
  - exact IH.
  - now rewrite IH.
Qed.

(** ** The extractor *)

Section ExtractorProperties.
Context {NM : NumberModel}.

(** The equation of [walk] on an object, as the source reads. *)
Lemma walk_object (ps : list (jsstring * JsVal)) :
  walk (JObj ps) =
    own_text ps ++
    match assoc (lit "content") ps with
    | JArr xs => flat_map walk xs
    | _ => []
    end.
Proof.
  cbn [walk]. f_equal.
  induction ps as [|[k v] ps IH]; [reflexivity|].
  cbn [assoc]. destruct (str_eqb (lit "content") k); [|exact IH].
  destruct v; reflexivity.
Qed.

Lemma extractDescription_falsy (desc : JsVal) :
  truthy desc = false -> extractDescription desc = NO_DESCRIPTION.
Proof. unfold extractDescription. now intros ->. Qed.

Lemma extractDescription_string (s : jsstring) :
  extractDescription (JStr s) = or_default (trim s) NO_DESCRIPTION.
Proof.
  unfold extractDescription. destruct s as [|c s]; [reflexivity|]. reflexivity.
Qed.

Lemma extractDescription_object (ps : list (jsstring * JsVal)) :
  extractDescription (JObj ps) =
    match assoc (lit "content") ps with
    | JArr xs =>
        match array_join (lit " ") toString (walk_all xs) with
        | Ok joined => or_default (normalize_ws joined) NO_DESCRIPTION
        | Throw _ => NO_DESCRIPTION
        end
    | _ => NO_DESCRIPTION
    end.
Proof. reflexivity. Qed.

(** The extractor never yields the empty string. *)
Lemma extractDescription_nonempty (desc : JsVal) : extractDescription desc <> [].
Proof.
  assert (Hs : NO_DESCRIPTION <> []) by discriminate.
  destruct desc as [| |b|n|s|xs|ps]; unfold extractDescription;
    cbn [truthy negb prop]; try exact Hs.
  - destruct b; exact Hs.
  - destruct (number_falsy n); exact Hs.
  - destruct (negb (negb (is_nil s))); [exact Hs | now apply or_default_nonempty].
  - destruct (assoc _ _); try exact Hs.
    destruct (array_join _ _ _); [now apply or_default_nonempty | exact Hs].
Qed.

Lemma array_join_strings (sep : jsstring) (l : list jsstring) :
  array_join sep toString (map JStr l) = Ok (join sep l).
Proof.
  induction l as [|p rest IH]; [reflexivity|].
  cbn [map array_join nullish toString bind]. fold (array_join sep toString).
  destruct rest as [|q rest]; [reflexivity|].
  cbn [map] in *. rewrite IH. reflexivity.
Qed.

Lemma content_of_node type text content :
  assoc (lit "content") (node_props type text content) =
    match content with
    | Some cs => JArr (map node_to_js cs)
    | None => JUndefined
    end.
Proof. destruct type, text, content; reflexivity. Qed.

Lemma type_of_node type text content :
  assoc (lit "type") (node_props type text content) =
    match type with
    | Some t => JStr t
    | None => JUndefined
    end.
Proof. destruct type, text, content; reflexivity. Qed.

Lemma text_of_node type text content :
  assoc (lit "text") (node_props type text content) =
    match text with
    | Some payload => JStr payload
    | None => JUndefined
    end.
Proof. destruct type, text, content; reflexivity. Qed.

Lemma own_text_of_node type text content :
  own_text (node_props type text content) =
    map JStr (filter nonempty
      match type, text with
      | Some t, Some payload => if str_eqb t (lit "text") then [payload] else []
      | _, _ => []
      end).
Proof.
  unfold own_text. rewrite type_of_node, text_of_node.
  destruct type as [t|]; [|reflexivity].
  cbn [is_text_tag]. destruct (str_eqb t (lit "text")).
  - destruct text as [[|c payload]|]; reflexivity.
  - destruct text; reflexivity.
Qed.

Lemma walk_children (cs : list RichTextNode) :
  Forall (fun n => walk (node_to_js n) = map JStr (filter nonempty (spec_texts n))) cs ->
  flat_map walk (map node_to_js cs) =
    map JStr (filter nonempty (flat_map spec_texts cs)).
Proof.
  induction 1 as [|n cs Hn _ IH]; [reflexivity|].
  cbn [map flat_map]. now rewrite Hn, IH, filter_app, map_app.
Qed.

(** On the JSON of a rich-text node, [walk] pushes the non-empty payloads
    of the text-tagged nodes, in pre-order. *)
Lemma walk_node (node : RichTextNode) :
  walk (node_to_js node) = map JStr (filter nonempty (spec_texts node)).
Proof.
  induction node as [type text content IH] using RichTextNode_children_ind.
  change (node_to_js (Node type text content)) with (JObj (node_props type text content)).
  rewrite walk_object, content_of_node, own_text_of_node.
  cbn [spec_texts]. rewrite filter_app, map_app. f_equal.
  destruct content as [cs|]; [|reflexivity].
  now apply walk_children.
Qed.

Lemma assoc_Forall (P : JsVal -> Prop) (k : jsstring) (ps : list (jsstring * JsVal)) :
  P JUndefined -> Forall (fun kv => P (snd kv)) ps -> P (assoc k ps).
Proof.
  intros Hu. induction 1 as [|[k' v] ps Hv _ IH]; [exact Hu|].
  cbn [assoc]. destruct (str_eqb k k'); [exact Hv | exact IH].
Qed.

(** Induction on a value, given the property for the elements of its
    [content] array. *)
Lemma JsVal_content_ind (P : JsVal -> Prop) :
  (forall v,
     (forall ps xs, v = JObj ps -> assoc (lit "content") ps = JArr xs -> Forall P xs) ->
     P v) ->
  forall v, P v.
Proof.
  intros step.
  cut (forall v, P v /\ forall xs, v = JArr xs -> Forall P xs); [intros H v; apply H|].
  induction v as [| |b|n|s|xs IH|ps IH] using JsVal_nested_ind;
    (split; [apply step|]); try discriminate.
  - intros xs' H. injection H as <-.
    revert IH. apply Forall_impl. now intros x [Hx _].
  - intros ps' xs H Hc. injection H as <-.
    apply (assoc_Forall (fun v => P v /\ forall xs, v = JArr xs -> Forall P xs)
             (lit "content")) in IH.
    + now apply IH.
    + split; [apply step|]; discriminate.
Qed.

(** The equations of [read_node] and [payloads_are_text] on an object. *)
Lemma read_node_object (ps : list (jsstring * JsVal)) :
  read_node (JObj ps) =
    Node (as_string (assoc (lit "type") ps)) (as_string (assoc (lit "text") ps))
         match assoc (lit "content") ps with
         | JArr xs => Some (map read_node xs)
         | _ => None
         end.
Proof.
  cbn [read_node]. f_equal.
  induction ps as [|[k v] ps IH]; [reflexivity|].
  cbn [assoc]. destruct (str_eqb (lit "content") k); [|exact IH].
  destruct v as [| | | | |xs|]; reflexivity.
Qed.

Lemma payloads_are_text_object (ps : list (jsstring * JsVal)) :
  payloads_are_text (JObj ps) =
    text_payload_ok ps
    && match assoc (lit "content") ps with
       | JArr xs => forallb payloads_are_text xs
       | _ => true
       end.
Proof.
  cbn [payloads_are_text]. f_equal.
  induction ps as [|[k v] ps IH]; [reflexivity|].
  cbn [assoc]. destruct (str_eqb (lit "content") k); [|exact IH].
  destruct v as [| | | | |xs|]; reflexivity.
Qed.

(** What [walk] pushes for a node whose payload is text: the payload, when
    the node is text-tagged and the payload is not empty. *)
Lemma own_text_read (ps : list (jsstring * JsVal)) :
  text_payload_ok ps = true ->
  own_text ps =
    map JStr (filter nonempty
      match as_string (assoc (lit "type") ps), as_string (assoc (lit "text") ps) with
      | Some t, Some payload => if str_eqb t (lit "text") then [payload] else []
      | _, _ => []
      end).
Proof.
  unfold own_text, text_payload_ok.
  destruct (assoc (lit "type") ps) as [| | | |t| |]; try reflexivity.
  cbn [is_text_tag as_string]. destruct (str_eqb t (lit "text")).
  - destruct (assoc (lit "text") ps) as [| |b|n|[|c payload]| |];
      cbn [truthy negb andb orb as_string is_nil]; try reflexivity;
      try discriminate.
    + destruct b; [discriminate | reflexivity].
    + destruct (number_falsy n); [reflexivity | discriminate].
  - intros _. now destruct (as_string (assoc (lit "text") ps)).
Qed.

(** On a document whose payloads are text, [walk] pushes the non-empty
    payloads of the text-tagged nodes, in pre-order, whatever else the
    nodes carry. *)
Lemma walk_read_node (v : JsVal) :
  payloads_are_text v = true ->
  walk v = map JStr (filter nonempty (spec_texts (read_node v))).
Proof.
  induction v as [v IH] using JsVal_content_ind.
  destruct v as [| | | | | |ps]; try reflexivity.
  rewrite payloads_are_text_object, walk_object, read_node_object.
  intros H. apply andb_true_iff in H as [Hown Hch].
  cbn [spec_texts]. rewrite (own_text_read ps Hown), filter_app, map_app. f_equal.
  destruct (assoc (lit "content") ps) as [| | | | |xs|] eqn:Hc; try reflexivity.
  specialize (IH ps xs eq_refl Hc). clear Hc.
  induction IH as [|x xs Hx _ IHxs]; [reflexivity|].
  cbn [forallb] in Hch. apply andb_true_iff in Hch as [Hpx Hpxs].
  cbn [map flat_map]. now rewrite (Hx Hpx), (IHxs Hpxs), filter_app, map_app.
Qed.

Lemma walk_all_read (xs : list JsVal) :
  forallb payloads_are_text xs = true ->
  walk_all xs = map JStr (filter nonempty (flat_map spec_texts (map read_node xs))).
Proof.
  unfold walk_all. induction xs as [|x xs IH]; [reflexivity|].
  cbn [forallb]. intros H. apply andb_true_iff in H as [Hx Hxs].
  cbn [map flat_map]. now rewrite (walk_read_node x Hx), (IH Hxs), filter_app, map_app.
Qed.

(** C5. [extractDescription] follows the specification's policy on every
    value it can receive whose text payloads are strings, whatever other
    properties the objects carry and in whatever order: the sentinel for an
    absent or empty field, the trimmed string (or the sentinel) for a plain
    string, and for a rich-text document the payloads of all text-tagged
    nodes in depth-first pre-order, joined by one space, white space
    collapsed and trimmed, or the sentinel when nothing is left.  The same
    holds of the JSON of every field of the specification's data model, and
    the nested document of P5 gives "foo bar". *)
Theorem extractDescription_follows_policy :
  (forall desc : JsVal,
     payloads_are_text desc = true ->
     extractDescription desc = spec_extractText (read_field desc))
  /\ (forall field : DescriptionField,
        extractDescription (field_to_js field) = spec_extractText field)
  /\ extractDescription (field_to_js (Document nested_document)) = lit "foo bar".
Proof.
  split; [|split; [|reflexivity]].
  - intros [| |b|n|s|xs|ps] H; try reflexivity.
    + now destruct b.
    + unfold extractDescription. cbn [truthy]. now destruct (number_falsy n).
    + apply extractDescription_string.
    + rewrite payloads_are_text_object in H. apply andb_true_iff in H as [_ H].
      cbn [read_field]. rewrite extractDescription_object, read_node_object.
      cbn [spec_extractText children].
      destruct (assoc (lit "content") ps) as [| | | | |xs|]; try reflexivity.
      rewrite (walk_all_read xs H), array_join_strings.
      unfold normalize_ws, or_default. change (lit " ") with [space].
      now rewrite normalize_join_nonempty.
  - intros [| |s|[type text content]].
    + reflexivity.
    + reflexivity.
    + apply extractDescription_string.
    + change (field_to_js (Document (Node type text content)))
        with (JObj (node_props type text content)).
      rewrite extractDescription_object, content_of_node.
      destruct content as [cs|]; [|reflexivity].
      cbn [spec_extractText children]. unfold walk_all.
      rewrite walk_children by (apply Forall_forall; intros; apply walk_node).
      rewrite array_join_strings. unfold normalize_ws, or_default.
      change (lit " ") with [space].
      now rewrite normalize_join_nonempty.
Qed.

(** P4 and P6: a plain string is trimmed; an empty document and an absent
    field give the sentinel. *)
Example extract_plain_string :
  extractDescription (JStr (lit "  hello world  ")) = lit "hello world".
Proof. reflexivity. Qed.

Example extract_empty_document :
  extractDescription (JObj [(lit "content", JArr [])]) = lit "No description"
  /\ extractDescription JUndefined = lit "No description".
Proof. split; reflexivity. Qed.

(** Runs of white space inside and between payloads collapse, and an empty
    payload leaves no trace. *)
Example extract_collapses_white_space :
  extractDescription
    (JObj [(lit "content",
            JArr [JObj [(lit "type", JStr (lit "text"));
                        (lit "text", JStr ([32; 32]%N ++ lit "foo" ++ [32; 9; 10; 32]%N
                                           ++ lit "bar" ++ [32]%N))];
                  JObj [(lit "type", JStr (lit "text")); (lit "text", JStr [])];
                  JObj [(lit "type", JStr (lit "text")); (lit "text", JStr (lit "baz"))]])])
  = lit "foo bar baz".
Proof. reflexivity. Qed.

End ExtractorProperties.

(** A document in Atlassian Document Format: the payloads of its two text
    nodes are read, the mention's [attrs.text] is not. *)
Lemma extractDescription_follows_policy_witness :
  payloads_are_text adf_document = true
  /\ read_field adf_document =
       Document (Node (Some (lit "doc")) None
                   (Some [Node (Some (lit "paragraph")) None
                            (Some [Node (Some (lit "text")) (Some (lit "Users cannot")) None;
                                   Node (Some (lit "hardBreak")) None None;
                                   Node (Some (lit "text")) (Some (lit "log in")) None]);
                          Node (Some (lit "mention")) None None]))
  /\ extractDescription adf_document = lit "Users cannot log in".
Proof.
  split; [reflexivity|]. split; [reflexivity|].
  rewrite (proj1 extractDescription_follows_policy adf_document eq_refl).
  reflexivity.
Defined.

(** ** The normalizer *)

Lemma strip_trailing_slashes_suffix (s : jsstring) :
  exists n : nat, s = strip_trailing_slashes s ++ repeat slash n.
Proof.
  induction s as [|c s [n IH]]; [now exists O|].
  cbn [strip_trailing_slashes].
  destruct (N.eqb c slash && is_nil (strip_trailing_slashes s)) eqn:E.
  - apply andb_true_iff in E as [Hc Hr].
    apply N.eqb_eq in Hc. apply is_nil_true in Hr. rewrite Hr in IH.
    exists (S n). cbn. now rewrite Hc, IH at 1.
  - exists n. cbn. now rewrite IH at 1.
Qed.

Lemma strip_trailing_slashes_end (s t : jsstring) :
  strip_trailing_slashes s <> t ++ [slash].
Proof.
  revert t; induction s as [|c s IH]; intros t; cbn [strip_trailing_slashes].
  - destruct t; discriminate.
  - destruct (N.eqb c slash && is_nil (strip_trailing_slashes s)) eqn:E.
    + destruct t; discriminate.
    + destruct t as [|x t]; cbn; intros H; injection H as Hc Hr.
      * rewrite Hc, Hr in E. cbn in E. discriminate.
      * now apply (IH t).
Qed.

Lemma truncate_short (d : jsstring) :
  (List.length d <= maxLength)%nat -> truncate d = d.
Proof.
  intros H. unfold truncate.
  destruct (Nat.ltb_spec maxLength (List.length d)); [lia | reflexivity].
Qed.

Lemma truncate_long (d : jsstring) :
  (maxLength < List.length d)%nat ->
  truncate d = firstn maxLength d ++ TRUNCATION_MARK.
Proof.
  intros H. unfold truncate.
  destruct (Nat.ltb_spec maxLength (List.length d)); [reflexivity | lia].
Qed.

Section NormalizerProperties.
Context {NM : NumberModel}.

Lemma truncate_nonempty (d : jsstring) : d <> [] -> truncate d <> [].
Proof.
  unfold truncate. intros Hd.
  destruct (maxLength <? List.length d)%nat; [|exact Hd].
  destruct d; [contradiction | discriminate].
Qed.

Lemma coalesce_not_nullish (v d : JsVal) :
  nullish d = false -> nullish (coalesce v d) = false.
Proof. unfold coalesce. destruct (nullish v) eqn:E; [trivial | now rewrite E]. Qed.

Lemma coalesce_nullish (v d : JsVal) : nullish v = true -> coalesce v d = d.
Proof. unfold coalesce. now intros ->. Qed.

Lemma opt_get_nullish (v : JsVal) (k : jsstring) :
  nullish v = true -> nullish (opt_get v k) = true.
Proof. unfold opt_get. now intros ->. Qed.

(** Once a level of an optional chain is missing or [null], the rest of
    the chain is [undefined]. *)
Lemma opt_path_nullish (v : JsVal) (ks more : list jsstring) :
  nullish (opt_path v ks) = true -> nullish (opt_path v (ks ++ more)) = true.
Proof.
  unfold opt_path. rewrite fold_left_app.
  generalize (fold_left opt_get ks v) as w.
  induction more as [|k more IH]; intros w Hw; [exact Hw|].
  cbn [fold_left]. apply IH. now apply opt_get_nullish.
Qed.

(** What [transformIssue] returns when it returns. *)
Lemma transformIssue_returns (baseUrl : jsstring) (issue : JsVal) (r : JiraIssue) :
  transformIssue baseUrl issue = Ok r ->
  nullish issue = false /\
  exists ks : jsstring,
    toString (prop issue (lit "key")) = Ok ks /\
    r = {| key := prop issue (lit "key");
           summary := coalesce (opt_path issue [lit "fields"; lit "summary"])
                               (JStr (lit "No Summary"));
           description :=
             truncate (extractDescription (opt_path issue [lit "fields"; lit "description"]));
           issueType := coalesce (opt_path issue [lit "fields"; lit "issuetype"; lit "name"])
                                 (JStr (lit "Unknown"));
           status := coalesce (opt_path issue [lit "fields"; lit "status"; lit "name"])
                              (JStr (lit "Unknown"));
           priority := coalesce (opt_path issue [lit "fields"; lit "priority"; lit "name"])
                                (JStr (lit "Unknown"));
           url := strip_trailing_slashes baseUrl ++ lit "/browse/" ++ ks |}.
Proof.
  unfold transformIssue, get. destruct (nullish issue); [discriminate|].
  cbn [bind]. destruct (toString (prop issue (lit "key"))) as [ks|e]; [|discriminate].
  cbn [bind]. intros H. injection H as <-. split; [reflexivity|].
  exists ks. split; reflexivity.
Qed.

(** A raw issue that is an object (or any value but [null] and
    [undefined]) whose key prints is normalized without an exception. *)
Lemma transformIssue_total_on_objects (baseUrl : jsstring) (issue : JsVal) (ks : jsstring) :
  nullish issue = false ->
  toString (prop issue (lit "key")) = Ok ks ->
  exists r, transformIssue baseUrl issue = Ok r.
Proof.
  intros Hn Hk. unfold transformIssue, get. rewrite Hn. cbn [bind]. rewrite Hk.
  cbn [bind]. eauto.
Qed.

End NormalizerProperties.

Section NormalizerClaims.
Context {NM : NumberModel}.

(** C4 (as amended).  Whenever [transformIssue] returns a record, its
    [summary], [issueType], [status] and [priority] are neither [null] nor
    [undefined]: each equals its sentinel as soon as some level of its
    access path is missing or [null], and is otherwise the value found at
    the end of the path, unchanged.  [description] is a non-empty string,
    and is the sentinel when the description field is absent or falsy.
    [key] is the issue's own [key] property as it is, [undefined] when the
    issue has none, and [url] is the base URL without its trailing slashes,
    then [/browse/], then that key as it prints. *)
Theorem transformIssue_sentinels (baseUrl : jsstring) (issue : JsVal) (r : JiraIssue) :
  transformIssue baseUrl issue = Ok r ->
  (nullish (summary r) = false /\ nullish (issueType r) = false
   /\ nullish (status r) = false /\ nullish (priority r) = false)
  /\ description r <> []
  /\ (forall ks more, ks ++ more = [lit "fields"; lit "summary"] ->
        nullish (opt_path issue ks) = true -> summary r = JStr (lit "No Summary"))
  /\ (forall ks more, ks ++ more = [lit "fields"; lit "issuetype"; lit "name"] ->
        nullish (opt_path issue ks) = true -> issueType r = JStr (lit "Unknown"))
  /\ (forall ks more, ks ++ more = [lit "fields"; lit "status"; lit "name"] ->
        nullish (opt_path issue ks) = true -> status r = JStr (lit "Unknown"))
  /\ (forall ks more, ks ++ more = [lit "fields"; lit "priority"; lit "name"] ->
        nullish (opt_path issue ks) = true -> priority r = JStr (lit "Unknown"))
  /\ (forall ks more, ks ++ more = [lit "fields"; lit "description"] ->
        nullish (opt_path issue ks) = true -> description r = lit "No description")
  /\ (truthy (opt_path issue [lit "fields"; lit "description"]) = false ->
        description r = lit "No description")
  /\ (nullish (opt_path issue [lit "fields"; lit "summary"]) = false ->
        summary r = opt_path issue [lit "fields"; lit "summary"])
  /\ (nullish (opt_path issue [lit "fields"; lit "issuetype"; lit "name"]) = false ->
        issueType r = opt_path issue [lit "fields"; lit "issuetype"; lit "name"])
  /\ (nullish (opt_path issue [lit "fields"; lit "status"; lit "name"]) = false ->
        status r = opt_path issue [lit "fields"; lit "status"; lit "name"])
  /\ (nullish (opt_path issue [lit "fields"; lit "priority"; lit "name"]) = false ->
        priority r = opt_path issue [lit "fields"; lit "priority"; lit "name"])
  /\ key r = opt_path issue [lit "key"]
  /\ (forall ps, issue = JObj ps ->
        key r = assoc (lit "key") ps
        /\ (has_own (lit "key") ps = false -> key r = JUndefined))
  /\ (exists ks : jsstring,
        toString (key r) = Ok ks
        /\ url r = strip_trailing_slashes baseUrl ++ lit "/browse/" ++ ks).
Proof.
  intros H. apply transformIssue_returns in H as [Hn [ks [Hks ->]]].
  cbn [summary issueType status priority description key url].
  assert (Hfalsy : forall v, truthy v = false ->
            truncate (extractDescription v) = lit "No description").
  { intros v Hv. now rewrite extractDescription_falsy. }
  assert (Hkeep : forall v d, nullish v = false -> coalesce v d = v).
  { intros v d Hv. unfold coalesce. now rewrite Hv. }
  repeat match goal with |- _ /\ _ => split end;
    try (apply coalesce_not_nullish; reflexivity);
    try (apply Hkeep).
  - apply truncate_nonempty, extractDescription_nonempty.
  - intros p more <- Hp. apply coalesce_nullish. now apply opt_path_nullish.
  - intros p more <- Hp. apply coalesce_nullish. now apply opt_path_nullish.
  - intros p more <- Hp. apply coalesce_nullish. now apply opt_path_nullish.
  - intros p more <- Hp. apply coalesce_nullish. now apply opt_path_nullish.
  - intros p more <- Hp. apply Hfalsy.
    apply (opt_path_nullish issue p more) in Hp.
    now destruct (opt_path issue (p ++ more)).
  - exact (Hfalsy _).
  - cbn [opt_path fold_left]. unfold opt_get. now rewrite Hn.
  - intros ps ->. split; [reflexivity|].
    cbn [prop]. clear. induction ps as [|[k v] ps IH]; [reflexivity|].
    cbn [has_own assoc]. destruct (str_eqb (lit "key") k); [discriminate | exact IH].
  - exists ks. split; [exact Hks | reflexivity].
Qed.

(** C6.  On a description of 101 code units the record's description is
    the first 100 code units followed by the three code units U+00E2,
    U+20AC, U+00A6 of the source's literal, which is not the ellipsis
    U+2026. *)
Theorem truncation_mark_is_not_an_ellipsis :
  exists r : JiraIssue,
    transformIssue example_base long_issue = Ok r
    /\ description r = firstn 100 long_text ++ [226; 8364; 166]%N
    /\ description r <> firstn 100 long_text ++ ELLIPSIS
    /\ List.length (description r) = 103%nat.
Proof.
  eexists. split; [reflexivity|].
  cbn [description]. repeat split; try reflexivity.
  intros H. apply app_inv_head in H. discriminate.
Qed.

(** C7.  [transformIssue] throws a [TypeError] on [null] and on
    [undefined], at [issue.key]; a page that holds a [null] issue makes the
    whole fetch throw it. *)
Theorem transformIssue_throws_on_null (baseUrl : jsstring) :
  transformIssue baseUrl JNull = Throw TypeError
  /\ transformIssue baseUrl JUndefined = Throw TypeError
  /\ forall fuel : nat,
       getCurrentUserIssues null_issue_server baseUrl 10 (S fuel)
       = (Threw TypeError, [{| rq_startAt := 0; rq_maxResults := 10 |}]).
Proof. repeat split. Qed.

(** C9.  For an issue whose key is the string [k], the record's [url] is
    the base URL without its trailing slashes, then [/browse/], then [k];
    what is removed from the base URL is a run of slashes and what is left
    does not end in a slash. *)
Theorem url_of_issue (baseUrl : jsstring) (issue : JsVal) (k : jsstring) :
  prop issue (lit "key") = JStr k ->
  (exists r : JiraIssue,
     transformIssue baseUrl issue = Ok r
     /\ url r = strip_trailing_slashes baseUrl ++ lit "/browse/" ++ k)
  /\ (exists n : nat, baseUrl = strip_trailing_slashes baseUrl ++ repeat slash n)
  /\ (forall t : jsstring, strip_trailing_slashes baseUrl <> t ++ [slash]).
Proof.
  intros Hk. split; [|split].
  - assert (Hn : nullish issue = false) by (destruct issue; try discriminate; reflexivity).
    destruct (transformIssue_total_on_objects baseUrl issue k Hn) as [r Hr].
    { now rewrite Hk. }
    exists r. split; [exact Hr|].
    apply transformIssue_returns in Hr as [_ [ks [Hks ->]]].
    rewrite Hk in Hks. cbn in Hks. injection Hks as <-. reflexivity.
  - apply strip_trailing_slashes_suffix.
  - apply strip_trailing_slashes_end.
Qed.

End NormalizerClaims.

(** The record of an issue that has only a key, and the record of an
    issue in which every field is filled. *)
Lemma transformIssue_sentinels_witness :
  (exists r : JiraIssue,
     transformIssue example_base (mk_issue "K-1") = Ok r
     /\ summary r = JStr (lit "No Summary")
     /\ status r = JStr (lit "Unknown")
     /\ description r = lit "No description"
     /\ key r = JStr (lit "K-1"))
  /\ (exists r : JiraIssue,
        transformIssue example_base full_issue = Ok r
        /\ key r = JStr (lit "K-2")
        /\ summary r = JStr (lit "Fix login")
        /\ issueType r = JStr (lit "Bug")
        /\ status r = JStr (lit "To Do")
        /\ priority r = JStr (lit "High")
        /\ url r = lit "https://x.atlassian.net/browse/K-2").
Proof.
  split.
  - eexists. split; [reflexivity|].
    destruct (transformIssue_sentinels example_base (mk_issue "K-1") _ eq_refl)
      as (_ & _ & Hsum & _ & Hst & _ & _ & Hd & _ & _ & _ & _ & Hk & _).
    split; [|split; [|split]].
    + apply (Hsum [lit "fields"] [lit "summary"]); reflexivity.
    + apply (Hst [lit "fields"] [lit "status"; lit "name"]); reflexivity.
    + apply Hd; reflexivity.
    + rewrite Hk. reflexivity.
  - eexists. split; [reflexivity|].
    destruct (transformIssue_sentinels example_base full_issue _ eq_refl)
      as (_ & _ & _ & _ & _ & _ & _ & _ & Hsum & Hty & Hst & Hpr & Hk & _ & Hu).
    split; [|split; [|split; [|split; [|split]]]].
    + rewrite Hk. reflexivity.
    + rewrite Hsum; reflexivity.
    + rewrite Hty; reflexivity.
    + rewrite Hst; reflexivity.
    + rewrite Hpr; reflexivity.
    + destruct Hu as [ks [Hks Hu]]. rewrite Hu.
      injection Hks as <-. reflexivity.
Defined.

(** C4 as stated fails: an issue without [key] gets the key [undefined]
    and a [url] that ends in [/browse/undefined], and an empty summary stays
    empty. *)
Lemma not_every_field_populated :
  ~ (forall (baseUrl : jsstring) (issue : JsVal) (r : JiraIssue),
       transformIssue baseUrl issue = Ok r -> all_populated r = true)
  /\ (exists r, transformIssue example_base (JObj []) = Ok r /\ key r = JUndefined
                /\ url r = lit "https://x.atlassian.net/browse/undefined")
  /\ (exists r, transformIssue example_base blank_summary_issue = Ok r
                /\ summary r = JStr []
                /\ key r = JStr (lit "K-1")
                /\ url r = lit "https://x.atlassian.net/browse/K-1").
Proof.
  split; [|split].
  - intros H. specialize (H example_base blank_summary_issue _ eq_refl). discriminate.
  - eexists. repeat split; reflexivity.
  - eexists. repeat split; reflexivity.
Qed.

(** P9: base URL "https://x.atlassian.net/" and key "ABC-1". *)
Lemma url_of_issue_witness :
  exists r : JiraIssue,
    transformIssue example_base (mk_issue "ABC-1") = Ok r
    /\ url r = lit "https://x.atlassian.net/browse/ABC-1".
Proof.
  destruct (url_of_issue example_base (mk_issue "ABC-1") (lit "ABC-1") eq_refl)
    as [[r [Hr Hu]] _].
  exists r. split; [exact Hr|]. rewrite Hu. reflexivity.
Defined.

(** ** The fetch loop *)

Section FetcherProperties.
Context {NM : NumberModel}.
Variable server : Server.
Variable baseUrl : jsstring.
Variable maxToReturn : Z.

Local Notation push := (push_issues baseUrl maxToReturn).
Local Notation turn := (after_page baseUrl maxToReturn).
Local Notation run := (loop server baseUrl maxToReturn).
Local Notation more := (guard maxToReturn).
Local Notation ask := (request_of maxToReturn).

Lemma len_app (acc : list JiraIssue) (r : JiraIssue) : len (acc ++ [r]) = len acc + 1.
Proof. unfold len. rewrite length_app. cbn. lia. Qed.

Lemma push_issues_step (acc : list JiraIssue) (issue : JsVal) (rest : list JsVal) :
  push acc (issue :: rest) =
    match transformIssue baseUrl issue with
    | Ok r => if len (acc ++ [r]) >=? maxToReturn then Ok (acc ++ [r])
              else push (acc ++ [r]) rest
    | Throw e => Throw e
    end.
Proof. cbn [push_issues bind]. now destruct (transformIssue baseUrl issue). Qed.

(** The inner [for] run never pushes past [maxToReturn]. *)
Lemma push_issues_bound (issues : list JsVal) (acc acc' : list JiraIssue) :
  len acc < maxToReturn -> push acc issues = Ok acc' -> len acc' <= maxToReturn.
Proof.
  revert acc; induction issues as [|issue rest IH]; intros acc Hlt H.
  - injection H as <-. lia.
  - rewrite push_issues_step in H.
    destruct (transformIssue baseUrl issue) as [r|e]; [|discriminate].
    destruct (Z.geb_spec (len (acc ++ [r])) maxToReturn) as [Hge|Hlt'].
    + injection H as <-. rewrite len_app in *. lia.
    + now apply (IH (acc ++ [r])).
Qed.

(** It pushes at most one record per issue of the page, and never removes
    one. *)
Lemma push_issues_length (issues : list JsVal) (acc acc' : list JiraIssue) :
  push acc issues = Ok acc' ->
  len acc <= len acc' <= len acc + Z.of_nat (List.length issues).
Proof.
  revert acc; induction issues as [|issue rest IH]; intros acc H.
  - injection H as <-. cbn. lia.
  - rewrite push_issues_step in H.
    destruct (transformIssue baseUrl issue) as [r|e]; [|discriminate].
    cbn [List.length]. destruct (len (acc ++ [r]) >=? maxToReturn).
    + injection H as <-. rewrite len_app. lia.
    + apply IH in H. rewrite len_app in H. lia.
Qed.

(** A page that holds an issue makes the accumulator grow. *)
Lemma push_issues_grows (issues : list JsVal) (acc acc' : list JiraIssue) :
  issues <> [] -> push acc issues = Ok acc' -> len acc < len acc'.
Proof.
  destruct issues as [|issue rest]; [contradiction|]. intros _ H.
  rewrite push_issues_step in H.
  destruct (transformIssue baseUrl issue) as [r|e]; [|discriminate].
  destruct (len (acc ++ [r]) >=? maxToReturn).
  - injection H as <-. rewrite len_app. lia.
  - apply push_issues_length in H. rewrite len_app in H. lia.
Qed.

Lemma after_page_returns (st st' : LoopState) (data : Page) (brk : bool) :
  turn st data = Ok (st', brk) ->
  push (accumulated st) (pg_issues data) = Ok (accumulated st')
  /\ startAt st' = default (pg_startAt data) (startAt st)
                  + default (pg_maxResults data) (pageSize maxToReturn)
  /\ brk = (startAt st' >=? default (pg_total data) (len (accumulated st'))).
Proof.
  unfold after_page.
  destruct (push (accumulated st) (pg_issues data)) as [acc'|e]; [|discriminate].
  cbn [bind]. intros H. injection H as <- <-. cbn. repeat split.
Qed.

(** One turn of the [while] loop. *)
Lemma loop_step (fuel n : nat) (st : LoopState) :
  run (S fuel) n st =
    if more st then
      let req := ask st in
      let res := server n req in
      if negb (res_ok res) then (Threw (Error (error_message res)), [req])
      else
        match turn st (res_json res) with
        | Throw e => (Threw e, [req])
        | Ok (st', true) => (Returned (accumulated st'), [req])
        | Ok (st', false) =>
            (fst (run fuel (S n) st'), req :: snd (run fuel (S n) st'))
        end
    else (Returned (accumulated st), []).
Proof.
  cbn [loop]. destruct (more st); [|reflexivity]. cbv zeta.
  destruct (negb _); [reflexivity|].
  destruct (turn st _) as [[st' [|]]|e]; try reflexivity.
  now destruct (loop _ _ _ fuel (S n) st').
Qed.

Lemma loop_exit (fuel n : nat) (st : LoopState) :
  more st = false -> run fuel n st = (Returned (accumulated st), []).
Proof. intros H. destruct fuel; cbn [loop]; now rewrite H. Qed.

Lemma loop_first_request (fuel n : nat) (st : LoopState) :
  more st = true ->
  exists rest, snd (run (S fuel) n st) = ask st :: rest.
Proof.
  intros H. rewrite loop_step, H. cbv zeta.
  destruct (negb _); [now exists []|].
  destruct (turn st _) as [[st' [|]]|e]; cbn [snd]; eauto.
Qed.

(** The accumulator stays within [maxToReturn] on every turn. *)
Lemma loop_bound (fuel n : nat) (st : LoopState) (acc : list JiraIssue) (reqs : list Request) :
  len (accumulated st) <= maxToReturn ->
  run fuel n st = (Returned acc, reqs) ->
  len acc <= maxToReturn.
Proof.
  revert n st reqs; induction fuel as [|fuel IH]; intros n st reqs Hst H.
  - cbn [loop] in H. destruct (more st); [discriminate|].
    injection H as <- _. exact Hst.
  - rewrite loop_step in H. destruct (more st) eqn:Hg.
    + cbv zeta in H. destruct (negb _); [discriminate|].
      destruct (turn st _) as [[st' brk]|e] eqn:Ha; [|discriminate].
      apply after_page_returns in Ha as [Hp _].
      apply push_issues_bound in Hp; [|unfold guard in Hg; lia].
      destruct brk.
      * injection H as <- _. exact Hp.
      * apply (IH (S n) st' (snd (run fuel (S n) st')) Hp).
        rewrite (surjective_pairing (run fuel (S n) st')).
        injection H as -> _. reflexivity.
    + injection H as <- _. exact Hst.
Qed.

(** When every page holds an issue the run ends within
    [maxToReturn - accumulated.length] requests. *)
Lemma loop_terminates_on_progress (fuel n : nat) (st : LoopState) :
  (forall k req, pg_issues (res_json (server k req)) <> []) ->
  (Z.to_nat (maxToReturn - len (accumulated st)) <= fuel)%nat ->
  fst (run fuel n st) <> OutOfFuel.
Proof.
  intros Hprog. revert n st; induction fuel as [|fuel IH]; intros n st Hfuel.
  - cbn [loop]. destruct (more st) eqn:Hg; [|discriminate].
    unfold guard in Hg. lia.
  - rewrite loop_step. destruct (more st) eqn:Hg; [|discriminate].
    cbv zeta. destruct (negb _); [discriminate|].
    destruct (turn st _) as [[st' brk]|e] eqn:Ha; [|discriminate].
    destruct brk; [discriminate|]. cbn [fst].
    apply IH. apply after_page_returns in Ha as [Hp _].
    apply push_issues_grows in Hp; [|apply Hprog].
    unfold guard in Hg. lia.
Qed.

(** A refused request ends the run with the error built from it; the
    requests before it were all accepted. *)
Lemma loop_refused (fuel n : nat) (st : LoopState) (i : nat) (rq : Request) :
  nth_error (snd (run fuel n st)) i = Some rq ->
  res_ok (server (n + i)%nat rq) = false ->
  fst (run fuel n st) = Threw (Error (error_message (server (n + i)%nat rq)))
  /\ List.length (snd (run fuel n st)) = S i.
Proof.
  revert n st i; induction fuel as [|fuel IH]; intros n st i Hi Hbad.
  - cbn [loop] in Hi. destruct (more st); destruct i; discriminate.
  - rewrite loop_step in *. destruct (more st); [|destruct i; discriminate].
    cbv zeta in *.
    assert (Hone : nth_error [ask st] i = Some rq -> i = O /\ rq = ask st).
    { intros Ho. destruct i as [|[|i]]; try discriminate.
      injection Ho as <-. now split. }
    destruct (negb (res_ok (server n (ask st)))) eqn:Hok.
    + destruct (Hone Hi) as [-> ->]. rewrite Nat.add_0_r. now split.
    + apply negb_false_iff in Hok.
      destruct (turn st _) as [[st' [|]]|e]; cbn [fst snd] in *.
      * destruct (Hone Hi) as [-> ->]. rewrite Nat.add_0_r in Hbad. congruence.
      * destruct i as [|i].
        -- injection Hi as <-. rewrite Nat.add_0_r in Hbad. congruence.
        -- cbn [nth_error] in Hi. rewrite <- Nat.add_succ_comm in *.
           destruct (IH (S n) st' i Hi Hbad) as [Ho Hl]. cbn [List.length].
           now rewrite Hl.
      * destruct (Hone Hi) as [-> ->]. rewrite Nat.add_0_r in Hbad. congruence.
Qed.

End FetcherProperties.

Section FetcherClaims.
Context {NM : NumberModel}.
Variable server : Server.
Variable baseUrl : jsstring.
Variable maxToReturn : Z.

(** C1.  For a positive [maxToReturn], whatever the server answers, the
    sequence [getCurrentUserIssues] returns has at most [maxToReturn]
    records. *)
Theorem fetch_is_bounded (fuel : nat) (issues : list JiraIssue) (reqs : list Request) :
  0 < maxToReturn ->
  getCurrentUserIssues server baseUrl maxToReturn fuel = (Returned issues, reqs) ->
  Z.of_nat (List.length issues) <= maxToReturn.
Proof.
  intros Hpos H. apply (loop_bound _ _ _ _ _ _ _ reqs) in H; [exact H|].
  cbn. lia.
Qed.

(** C2 (as amended).  A turn of the loop asks for [startAt] and for
    [maxResults = min(50, maxToReturn - accumulated.length)]; after a
    successful page the cursor is the reported [startAt] (or the local one)
    plus the reported [maxResults] (or [min(50, maxToReturn)], the page size
    fixed when the fetch starts); and a further request follows exactly when
    the accumulator is below [maxToReturn] and the cursor is below the
    reported [total] (or the accumulated count). *)
Theorem pagination_step (fuel n : nat) (st st' : LoopState) (brk : bool) :
  guard maxToReturn st = true ->
  res_ok (server n (request_of maxToReturn st)) = true ->
  after_page baseUrl maxToReturn st (res_json (server n (request_of maxToReturn st))) = Ok (st', brk) ->
  let data := res_json (server n (request_of maxToReturn st)) in
  let reqs := snd (loop server baseUrl maxToReturn (S (S fuel)) n st) in
  nth_error reqs 0 =
    Some {| rq_startAt := startAt st;
            rq_maxResults := Z.min 50 (maxToReturn - len (accumulated st)) |}
  /\ startAt st' = default (pg_startAt data) (startAt st)
                  + default (pg_maxResults data) (Z.min 50 maxToReturn)
  /\ ((exists req', nth_error reqs 1 = Some req') <->
      len (accumulated st') < maxToReturn
      /\ startAt st' < default (pg_total data) (len (accumulated st'))).
Proof.
  intros Hg Hok Ht data reqs. subst data reqs.
  destruct (after_page_returns _ _ _ _ _ _ Ht) as (_ & Hs & Hb).
  split; [|split].
  - destruct (loop_first_request server baseUrl maxToReturn (S fuel) n st Hg) as [rest ->].
    cbn [nth_error]. unfold request_of, pageSize. do 2 f_equal.
    unfold len. lia.
  - exact Hs.
  - rewrite loop_step, Hg. cbv zeta. rewrite Hok, Ht. cbn [negb].
    destruct brk; cbn [snd nth_error].
    + split; [intros [req' H]; discriminate|].
      intros [_ Hlt]. symmetry in Hb. apply Z.geb_le in Hb. lia.
    + symmetry in Hb. rewrite Z.geb_leb in Hb. apply Z.leb_gt in Hb.
      destruct (guard maxToReturn st') eqn:Hg'.
      * destruct (loop_first_request server baseUrl maxToReturn fuel (S n) st' Hg')
          as [rest ->].
        split; [|eauto]. intros _. split; [|exact Hb].
        unfold guard in Hg'. lia.
      * rewrite (loop_exit _ _ _ _ _ _ Hg'). cbn [snd nth_error].
        split; [intros [req' H]; discriminate|].
        intros [Hlt _]. unfold guard in Hg'. lia.
Qed.

(** C3.  If some request of a fetch is answered with a non-success status,
    the fetch throws an error whose message is [Jira API error: ], the
    status code, a space, the status text, [ - ], the body, and then a hint:
    for 401 and 403 the advice to check the site URL, the email and the API
    token permissions, for 400 the remark that the JQL or the fields may be
    invalid, and nothing for any other status.  The caller receives no
    records, and no request follows. *)
Theorem refused_page_aborts (fuel i : nat) (rq : Request) :
  nth_error (snd (getCurrentUserIssues server baseUrl maxToReturn fuel)) i = Some rq ->
  res_ok (server i rq) = false ->
  let res := server i rq in
  (exists h : jsstring,
     fst (getCurrentUserIssues server baseUrl maxToReturn fuel) =
       Threw (Error (lit "Jira API error: " ++ decimal (res_status res) ++ lit " "
                     ++ res_statusText res ++ lit " - " ++ res_text res ++ h))
     /\ (res_status res = 401 \/ res_status res = 403 ->
         h = lit " Check your site URL (e.g. https://yourcompany.atlassian.net), email, and API token permissions.")
     /\ (res_status res = 400 ->
         h = lit " The JQL or fields may be invalid for this site.")
     /\ (res_status res <> 401 -> res_status res <> 403 -> res_status res <> 400 ->
         h = []))
  /\ fst (getCurrentUserIssues server baseUrl maxToReturn fuel) =
       Threw (Error (lit "Jira API error: " ++ decimal (res_status res) ++ lit " "
                     ++ res_statusText res ++ lit " - " ++ res_text res
                     ++ hint (res_status res)))
  /\ received (fst (getCurrentUserIssues server baseUrl maxToReturn fuel)) = None
  /\ List.length (snd (getCurrentUserIssues server baseUrl maxToReturn fuel)) = S i.
Proof.
  intros Hi Hbad res.
  destruct (loop_refused server baseUrl maxToReturn fuel O _ i rq Hi Hbad) as [Ho Hl].
  unfold getCurrentUserIssues. rewrite Ho.
  split; [|repeat split; exact Hl].
  exists (hint (res_status res)). split; [reflexivity|].
  unfold hint. repeat split.
  - intros [-> | ->]; reflexivity.
  - intros ->; reflexivity.
  - intros H1 H3 H0.
    destruct (Z.eqb_spec (res_status res) 401); [contradiction|].
    destruct (Z.eqb_spec (res_status res) 403); [contradiction|].
    destruct (Z.eqb_spec (res_status res) 400); [contradiction|].
    reflexivity.
Qed.

(** C8 (as amended).  When a successful response omits [total], the loop
    stops after that page, with no further request, provided the cursor
    base (the reported [startAt], or the local one) is at least the count
    accumulated so far and the page holds no more issues than the reported
    [maxResults] (or [min(50, maxToReturn)]). *)
Theorem absent_total_stops (fuel n : nat) (st : LoopState) :
  guard maxToReturn st = true ->
  res_ok (server n (request_of maxToReturn st)) = true ->
  let data := res_json (server n (request_of maxToReturn st)) in
  pg_total data = None ->
  len (accumulated st) <= default (pg_startAt data) (startAt st) ->
  Z.of_nat (List.length (pg_issues data)) <= default (pg_maxResults data) (pageSize maxToReturn) ->
  snd (loop server baseUrl maxToReturn (S fuel) n st) = [request_of maxToReturn st]
  /\ fst (loop server baseUrl maxToReturn (S fuel) n st) <> OutOfFuel
  /\ forall st' brk, after_page baseUrl maxToReturn st data = Ok (st', brk) ->
       fst (loop server baseUrl maxToReturn (S fuel) n st) = Returned (accumulated st').
Proof.
  intros Hg Hok data Htot Hbase Hsize. subst data.
  rewrite loop_step, Hg. cbv zeta. rewrite Hok. cbn [negb].
  destruct (after_page baseUrl maxToReturn st _) as [[st' brk]|e] eqn:Ht.
  - destruct (after_page_returns _ _ _ _ _ _ Ht) as (Hp & Hs & Hb).
    apply push_issues_length in Hp. rewrite Htot in Hb. cbn [default] in Hb.
    assert (brk = true) as ->.
    { rewrite Hb. apply Z.geb_le. lia. }
    repeat split; try discriminate.
    intros st'' brk' H. now injection H as <- _.
  - repeat split; discriminate.
Qed.

(** C10.  With [maxToReturn <= 0] the loop condition is false on entry:
    the fetch returns the empty sequence and sends no request. *)
Theorem nonpositive_max_fetches_nothing (fuel : nat) :
  maxToReturn <= 0 -> getCurrentUserIssues server baseUrl maxToReturn fuel = (Returned [], []).
Proof.
  intros H. unfold getCurrentUserIssues. apply loop_exit.
  unfold guard. cbn. lia.
Qed.

End FetcherClaims.

(** ** The properties at concrete servers *)

(** P7: a server that reports [total = 7] and sends pages of 5, then 2. *)
Lemma fetch_is_bounded_witness :
  exists issues reqs,
    getCurrentUserIssues (paging_server 5 seven_issues) example_base 100 10
      = (Returned issues, reqs)
    /\ List.length issues = 7%nat
    /\ List.length reqs = 2%nat
    /\ Z.of_nat (List.length issues) <= 100.
Proof.
  do 2 eexists. split; [reflexivity|]. split; [reflexivity|]. split; [reflexivity|].
  apply (fetch_is_bounded (paging_server 5 seven_issues) example_base 100 10 _ _
           eq_refl eq_refl).
Defined.

Example fetch_three_of_seven :
  exists issues,
    getCurrentUserIssues (paging_server 5 seven_issues) example_base 3 10
      = (Returned issues, [{| rq_startAt := 0; rq_maxResults := 3 |}])
    /\ List.length issues = 3%nat.
Proof. eexists. split; reflexivity. Qed.

Example k1_record_is_normalized :
  transformIssue example_base (mk_issue "K-1") = Ok k1_record.
Proof. reflexivity. Qed.

(** The first turn against [short_second_page]: one record, cursor 1, and a
    second request follows. *)
Lemma pagination_step_witness :
  exists req',
    nth_error (snd (getCurrentUserIssues short_second_page example_base 3 2)) 1 = Some req'.
Proof.
  destruct (pagination_step short_second_page example_base 3 O O
              {| accumulated := []; startAt := 0 |} after_first_page false
              eq_refl eq_refl eq_refl) as (_ & _ & Hnext).
  apply Hnext. split; reflexivity.
Defined.

(** C2 as stated fails.  With [maxToReturn = 3], one record accumulated and
    the cursor at 1, the second request asks for 2 results.  The answer
    reports neither [startAt] nor [maxResults], and [total = 4]: the cursor
    becomes 1 + min(50, 3) = 4, not 1 + 2 = 3, and the fetch stops after
    two requests although 3 < 4. *)
Lemma cursor_fallback_is_not_the_requested_size :
  ~ (forall (maxToReturn : Z) (st st' : LoopState) (data : Page) (brk : bool),
       guard maxToReturn st = true ->
       after_page example_base maxToReturn st data = Ok (st', brk) ->
       startAt st' = spec_next_startAt st (request_of maxToReturn st) data)
  /\ getCurrentUserIssues short_second_page example_base 3 10
     = (Returned [k1_record],
        [{| rq_startAt := 0; rq_maxResults := 3 |}; {| rq_startAt := 1; rq_maxResults := 2 |}])
  /\ spec_next_startAt after_first_page (request_of 3 after_first_page) second_page = 3.
Proof.
  split; [|split; reflexivity].
  intros H.
  specialize (H 3 after_first_page _ second_page _ eq_refl eq_refl).
  discriminate H.
Qed.

(** P8: the first page succeeds, the second request is answered 401.  A
    query refused with 400 and a server error 500. *)
Lemma refused_page_aborts_witness :
  (fst (getCurrentUserIssues unauthorized_on_second example_base 100 10)
   = Threw (Error (lit "Jira API error: 401 Unauthorized - denied Check your site URL (e.g. https://yourcompany.atlassian.net), email, and API token permissions."))
   /\ received (fst (getCurrentUserIssues unauthorized_on_second example_base 100 10)) = None
   /\ List.length (snd (getCurrentUserIssues unauthorized_on_second example_base 100 10))
      = 2%nat)
  /\ fst (getCurrentUserIssues (refusing_server 400 "Bad Request" "no such field")
            example_base 10 10)
     = Threw (Error (lit "Jira API error: 400 Bad Request - no such field The JQL or fields may be invalid for this site."))
  /\ fst (getCurrentUserIssues (refusing_server 403 "Forbidden" "no")
            example_base 10 10)
     = Threw (Error (lit "Jira API error: 403 Forbidden - no Check your site URL (e.g. https://yourcompany.atlassian.net), email, and API token permissions."))
  /\ fst (getCurrentUserIssues (refusing_server 500 "Internal Server Error" "oops")
            example_base 10 10)
     = Threw (Error (lit "Jira API error: 500 Internal Server Error - oops")).
Proof.
  split; [|split; [|split]].
  - destruct (refused_page_aborts unauthorized_on_second example_base 100 10 1
                {| rq_startAt := 5; rq_maxResults := 50 |} eq_refl eq_refl)
      as ((h & Ho & Hauth & _) & _ & Hr & Hl).
    split; [|split; [exact Hr | exact Hl]].
    rewrite Ho, (Hauth (or_introl eq_refl)). reflexivity.
  - destruct (refused_page_aborts (refusing_server 400 "Bad Request" "no such field")
                example_base 10 10 0
                {| rq_startAt := 0; rq_maxResults := 10 |} eq_refl eq_refl)
      as ((h & Ho & _ & Hjql & _) & _).
    rewrite Ho, (Hjql eq_refl). reflexivity.
  - destruct (refused_page_aborts (refusing_server 403 "Forbidden" "no")
                example_base 10 10 0
                {| rq_startAt := 0; rq_maxResults := 10 |} eq_refl eq_refl)
      as ((h & Ho & Hauth & _) & _).
    rewrite Ho, (Hauth (or_intror eq_refl)). reflexivity.
  - destruct (refused_page_aborts (refusing_server 500 "Internal Server Error" "oops")
                example_base 10 10 0
                {| rq_startAt := 0; rq_maxResults := 10 |} eq_refl eq_refl)
      as ((h & Ho & _ & _ & Hnone) & _).
    rewrite Ho, Hnone by discriminate. reflexivity.
Defined.

(** A first page without any pagination field ends the fetch. *)
Lemma absent_total_stops_witness :
  snd (getCurrentUserIssues bare_page_server example_base 5 1)
  = [{| rq_startAt := 0; rq_maxResults := 5 |}]
  /\ fst (getCurrentUserIssues bare_page_server example_base 5 1) <> OutOfFuel.
Proof.
  destruct (absent_total_stops bare_page_server example_base 5 O O
              {| accumulated := []; startAt := 0 |}
              eq_refl eq_refl eq_refl ltac:(cbn; lia) ltac:(cbn; lia))
    as (Hs & Ho & _).
  split; [exact Hs | exact Ho].
Defined.

Lemma no_total_server_spins (fuel n : nat) (r1 r2 : JiraIssue) :
  loop no_total_server example_base 5 fuel (S n) {| accumulated := [r1; r2]; startAt := 1 |}
  = (OutOfFuel, repeat {| rq_startAt := 1; rq_maxResults := 3 |} fuel).
Proof.
  revert n; induction fuel as [|fuel IH]; intros n; [reflexivity|].
  rewrite loop_step.
  change (guard 5 {| accumulated := [r1; r2]; startAt := 1 |}) with true.
  cbv zeta.
  change (request_of 5 {| accumulated := [r1; r2]; startAt := 1 |})
    with {| rq_startAt := 1; rq_maxResults := 3 |}.
  cbn [no_total_server ok_response res_ok res_status res_json negb andb Z.leb Z.compare
       Pos.compare Pos.compare_cont after_page pg_issues push_issues accumulated bind].
  cbn [pg_startAt pg_maxResults pg_total default startAt len List.length Z.of_nat
       Pos.of_succ_nat Pos.succ Z.add Pos.add Z.geb Z.compare Pos.compare Pos.compare_cont].
  rewrite IH. reflexivity.
Qed.

(** C8 as stated fails.  [no_total_server] never reports [total]; its
    first page holds two issues but reports [maxResults = 1], so the cursor
    (1) stays below the accumulated count (2), a second request follows,
    and on the empty pages that come next the loop never ends: whatever the
    number of requests allowed, all of them are sent and nothing is
    returned. *)
Lemma absent_total_may_paginate_forever :
  ~ (forall (server : Server) (maxToReturn : Z),
       (forall n req, res_ok (server n req) = true
                      /\ pg_total (res_json (server n req)) = None) ->
       exists fuel,
         fst (getCurrentUserIssues server example_base maxToReturn fuel) <> OutOfFuel)
  /\ (forall fuel, fst (getCurrentUserIssues no_total_server example_base 5 fuel) = OutOfFuel)
  /\ (forall fuel,
        List.length (snd (getCurrentUserIssues no_total_server example_base 5 fuel)) = fuel).
Proof.
  cut ((forall n req, res_ok (no_total_server n req) = true
                      /\ pg_total (res_json (no_total_server n req)) = None)
       /\ (forall fuel,
             fst (getCurrentUserIssues no_total_server example_base 5 fuel) = OutOfFuel)
       /\ (forall fuel,
             List.length (snd (getCurrentUserIssues no_total_server example_base 5 fuel))
             = fuel)).
  { intros (Hnone & Hspin & Hall). split; [|split; assumption].
    intros Hclaim. destruct (Hclaim no_total_server 5 Hnone) as [fuel Hfuel].
    now apply Hfuel. }
  assert (H : forall fuel,
            getCurrentUserIssues no_total_server example_base 5 (S fuel)
            = (OutOfFuel, {| rq_startAt := 0; rq_maxResults := 5 |}
                          :: repeat {| rq_startAt := 1; rq_maxResults := 3 |} fuel)).
  { intros fuel. unfold getCurrentUserIssues. rewrite loop_step.
    set (st0 := {| accumulated := []; startAt := 0 |}).
    assert (Hp : exists r1 r2,
              after_page example_base 5 st0 (res_json (no_total_server O (request_of 5 st0)))
              = Ok ({| accumulated := [r1; r2]; startAt := 1 |}, false))
      by (do 2 eexists; reflexivity).
    destruct Hp as (r1 & r2 & Hp).
    change (guard 5 st0) with true. cbv zeta.
    change (negb (res_ok (no_total_server O (request_of 5 st0)))) with false.
    rewrite Hp, no_total_server_spins. reflexivity. }
  split; [intros [|n] req; split; reflexivity|]. split.
  - intros [|fuel]; [reflexivity|]. now rewrite H.
  - intros [|fuel]; [reflexivity|]. rewrite H. cbn [snd List.length].
    now rewrite repeat_length.
Qed.

(** No request is sent for a non-positive [maxToReturn]. *)
Lemma nonpositive_max_fetches_nothing_witness :
  getCurrentUserIssues (paging_server 5 seven_issues) example_base (-3) 10 = (Returned [], []).
Proof.
  apply (nonpositive_max_fetches_nothing (paging_server 5 seven_issues) example_base (-3) 10).
  lia.
Defined.

(** * Further properties *)

(** ** White space *)

Lemma trim_start_length (s : jsstring) :
  (List.length (trim_start s) <= List.length s)%nat.
Proof.
  induction s as [|c s IH]; cbn [trim_start]; [lia|].
  destruct (is_ws c); cbn [List.length]; lia.
Qed.

Lemma trim_start_fixed_head (c : N) (s : jsstring) :
  trim_start (c :: s) = c :: s -> is_ws c = false.
Proof.
  cbn [trim_start]. destruct (is_ws c); [|reflexivity].
  intros H. pose proof (trim_start_length s) as Hl. rewrite H in Hl.
  cbn [List.length] in Hl. lia.
Qed.

Lemma trim_start_no_leading_ws (s : jsstring) : trim_start (trim_start s) = trim_start s.
Proof.
  induction s as [|c s IH]; [reflexivity|]. cbn [trim_start].
  destruct (is_ws c) eqn:E; [exact IH|]. cbn [trim_start]. now rewrite E.
Qed.

Lemma trim_end_idempotent (s : jsstring) : trim_end (trim_end s) = trim_end s.
Proof.
  induction s as [|c s IH]; [reflexivity|]. cbn [trim_end].
  destruct (is_ws c && is_nil (trim_end s)) eqn:E; [reflexivity|].
  cbn [trim_end]. now rewrite IH, E.
Qed.

Lemma trim_end_keeps_head (s : jsstring) :
  trim_start s = s -> trim_start (trim_end s) = trim_end s.
Proof.
  destruct s as [|c s]; [reflexivity|]. intros H.
  apply trim_start_fixed_head in H. cbn [trim_end]. rewrite H.
  cbn [andb trim_start]. now rewrite H.
Qed.

Lemma trim_fixed (s : jsstring) :
  trim_start (trim s) = trim s /\ trim_end (trim s) = trim s.
Proof.
  unfold trim. split.
  - apply trim_end_keeps_head, trim_start_no_leading_ws.
  - apply trim_end_idempotent.
Qed.

Lemma trim_idempotent (s : jsstring) : trim (trim s) = trim s.
Proof.
  destruct (trim_fixed s) as [Hs He]. unfold trim at 1. now rewrite Hs, He.
Qed.

Lemma trim_end_fixed_last (s init : jsstring) (c : N) :
  trim_end s = s -> s = init ++ [c] -> is_ws c = false.
Proof.
  intros H ->. revert H. induction init as [|x init IH]; cbn [app trim_end].
  - cbn [is_nil]. destruct (is_ws c); [discriminate | reflexivity].
  - destruct (is_ws x && is_nil (trim_end (init ++ [c]))); [discriminate|].
    intros H. injection H as H. now apply IH.
Qed.

Lemma split_ws_no_ws (s : jsstring) :
  no_ws (fst (split_ws s)) = true /\ forallb no_ws (snd (split_ws s)) = true.
Proof.
  induction s as [|c s [IHw IHr]]; [split; reflexivity|].
  cbn [split_ws]. destruct (split_ws s) as [w rest]. cbn [fst snd] in *.
  destruct (is_ws c) eqn:E; cbn [fst snd forallb no_ws].
  - split; [reflexivity|]. fold (no_ws w). now rewrite IHw, IHr.
  - split; [|exact IHr]. rewrite E. cbn [negb andb]. exact IHw.
Qed.

Lemma forallb_filter_keeps {A : Type} (f g : A -> bool) (l : list A) :
  forallb f l = true -> forallb f (filter g l) = true.
Proof.
  induction l as [|x l IH]; [reflexivity|]. cbn [forallb filter].
  intros H. apply andb_true_iff in H as [Hx Hl].
  destruct (g x); cbn [forallb]; [rewrite Hx|]; now apply IH.
Qed.

Lemma words_clean (s : jsstring) :
  forallb nonempty (words s) = true /\ forallb no_ws (words s) = true.
Proof.
  unfold words. destruct (split_ws_no_ws s) as [Hw Hr].
  destruct (split_ws s) as [w rest]. cbn [fst snd] in *. split.
  - apply forallb_filter.
  - apply forallb_filter_keeps. cbn [forallb]. now rewrite Hw, Hr.
Qed.

Lemma single_spaced_after_word (w t : jsstring) :
  no_ws w = true -> single_spaced (w ++ t) = single_spaced t.
Proof.
  induction w as [|c w IH]; [reflexivity|]. cbn [no_ws forallb].
  intros H. apply andb_true_iff in H as [Hc Hw]. apply negb_true_iff in Hc.
  cbn [app single_spaced]. rewrite Hc. now apply IH.
Qed.

Lemma single_spaced_join (ws : list jsstring) :
  forallb nonempty ws = true -> forallb no_ws ws = true ->
  single_spaced (join [space] ws) = true.
Proof.
  induction ws as [|w rest IH]; [reflexivity|]. cbn [forallb].
  intros Hne Hnw. apply andb_true_iff in Hne as [_ Hne].
  apply andb_true_iff in Hnw as [Hw Hnw].
  rewrite join_cons, single_spaced_after_word by exact Hw.
  destruct rest as [|w2 rest]; [reflexivity|]. cbn [is_nil app].
  specialize (IH Hne Hnw).
  cbn [single_spaced]. change (is_ws space) with true. rewrite N.eqb_refl, IH.
  cbn [forallb] in Hne, Hnw. apply andb_true_iff in Hne as [Hne2 _].
  apply andb_true_iff in Hnw as [Hnw2 _].
  rewrite join_cons. destruct w2 as [|d w2]; [discriminate|].
  cbn [no_ws forallb] in Hnw2. apply andb_true_iff in Hnw2 as [Hd _].
  cbn [app]. now rewrite Hd.
Qed.

Lemma normalize_ws_single_spaced (s : jsstring) :
  single_spaced (trim (collapse_ws s)) = true.
Proof.
  rewrite normalize_ws_words. destruct (words_clean s). now apply single_spaced_join.
Qed.

(** ** More on the extractor *)

Section ExtractorExtras.
Context {NM : NumberModel}.

(** Whatever the value, the extractor answers the sentinel or a trimmed
    string. *)
Lemma extractDescription_shape (desc : JsVal) :
  extractDescription desc = NO_DESCRIPTION
  \/ exists x, extractDescription desc = trim x.
Proof.
  unfold extractDescription. destruct (negb (truthy desc)); [now left|].
  assert (Hd : forall x, or_default (trim x) NO_DESCRIPTION = NO_DESCRIPTION
                         \/ exists y, or_default (trim x) NO_DESCRIPTION = trim y).
  { intros x. unfold or_default. destruct (is_nil (trim x)); [now left | right; eauto]. }
  destruct desc; try (now left); try apply Hd.
  cbn [prop]. destruct (assoc _ _); try (now left).
  destruct (array_join _ _ _); [apply Hd | now left].
Qed.

(** For a value that is not a string, the answer is the sentinel or a
    white-space normalized string. *)
Lemma extractDescription_structured_shape (desc : JsVal) :
  (forall s, desc <> JStr s) ->
  extractDescription desc = NO_DESCRIPTION
  \/ exists x, extractDescription desc = trim (collapse_ws x).
Proof.
  intros Hns. unfold extractDescription. destruct (negb (truthy desc)); [now left|].
  destruct desc; try (now left).
  - now destruct (Hns s).
  - cbn [prop]. destruct (assoc _ _); try (now left).
    destruct (array_join _ _ _) as [joined|e]; [|now left].
    unfold or_default, normalize_ws.
    destruct (is_nil (trim (collapse_ws joined))); [now left | right; eauto].
Qed.

Lemma extractDescription_trimmed (desc : JsVal) :
  trim_start (extractDescription desc) = extractDescription desc
  /\ trim_end (extractDescription desc) = extractDescription desc.
Proof.
  destruct (extractDescription_shape desc) as [-> | [x ->]].
  - split; reflexivity.
  - apply trim_fixed.
Qed.

(** X1.  For every JSON value the extracted description is not empty and
    neither starts nor ends with a white-space code unit. *)
Theorem extracted_description_is_trimmed (desc : JsVal) :
  extractDescription desc <> []
  /\ (forall c rest, extractDescription desc = c :: rest -> is_ws c = false)
  /\ (forall init c, extractDescription desc = init ++ [c] -> is_ws c = false).
Proof.
  destruct (extractDescription_trimmed desc) as [Hs He].
  split; [apply extractDescription_nonempty|]. split.
  - intros c rest H. rewrite H in Hs. now apply trim_start_fixed_head in Hs.
  - intros init c H. now apply (trim_end_fixed_last _ init c He).
Qed.

(** X2.  Extraction is idempotent: an extracted description, given back
    to the extractor as a plain string, comes out unchanged. *)
Theorem extraction_is_idempotent (desc : JsVal) :
  extractDescription (JStr (extractDescription desc)) = extractDescription desc.
Proof.
  rewrite extractDescription_string.
  destruct (extractDescription_trimmed desc) as [Hs He].
  unfold trim. rewrite Hs, He. unfold or_default.
  pose proof (extractDescription_nonempty desc) as Hne.
  destruct (extractDescription desc); [contradiction | reflexivity].
Qed.

(** X3.  For every value that is not a plain string, the description is
    single-spaced: each white-space code unit in it is one U+0020 followed
    by a code unit that is not white space. *)
Theorem structured_description_is_single_spaced (desc : JsVal) :
  (forall s, desc <> JStr s) ->
  single_spaced (extractDescription desc) = true.
Proof.
  intros Hns. destruct (extractDescription_structured_shape desc Hns) as [-> | [x ->]].
  - reflexivity.
  - apply normalize_ws_single_spaced.
Qed.

Lemma array_join_throws (sep : jsstring) (l : list JsVal) (v : JsVal) (e : Exn) :
  In v l -> toString v = Throw e ->
  exists e', array_join sep toString l = Throw e'.
Proof.
  intros Hin Hv. induction l as [|x rest IH]; [contradiction|].
  cbn [array_join]. fold (array_join sep toString).
  destruct Hin as [-> | Hin].
  - assert (Hn : nullish v = false) by (destruct v; try discriminate; reflexivity).
    rewrite Hn, Hv. cbn [bind]. eauto.
  - destruct (if nullish x then Ok [] else toString x) as [s|e0]; cbn [bind]; [|eauto].
    destruct rest as [|y rest]; [contradiction|].
    destruct (IH Hin) as [e' ->]. cbn [bind]. eauto.
Qed.

(** X4.  If one of the payloads collected from a document cannot be
    printed, joining them throws inside the [try] block and the description
    is the sentinel, whatever the other text nodes hold. *)
Theorem unprintable_payload_gives_sentinel
  (ps : list (jsstring * JsVal)) (xs : list JsVal) (v : JsVal) (e : Exn) :
  assoc (lit "content") ps = JArr xs ->
  In v (walk_all xs) ->
  toString v = Throw e ->
  extractDescription (JObj ps) = lit "No description".
Proof.
  intros Hc Hin Hv. rewrite extractDescription_object, Hc.
  destruct (array_join_throws (lit " ") _ v e Hin Hv) as [e' ->]. reflexivity.
Qed.

End ExtractorExtras.

Lemma structured_description_is_single_spaced_witness :
  single_spaced (extractDescription (field_to_js (Document nested_document))) = true.
Proof.
  apply structured_description_is_single_spaced. intros s H. discriminate H.
Defined.

Lemma unprintable_payload_gives_sentinel_witness :
  extractDescription half_printable_document = lit "No description".
Proof.
  apply (unprintable_payload_gives_sentinel
           [(lit "content",
             JArr [JObj [(lit "type", JStr (lit "text")); (lit "text", JStr (lit "hello"))];
                   JObj [(lit "type", JStr (lit "text")); (lit "text", unprintable)]])]
           _ unprintable TypeError eq_refl).
  - right. left. reflexivity.
  - reflexivity.
Defined.

(** ** More on the normalizer and the fetch *)

Lemma strip_trailing_slashes_snoc (s : jsstring) :
  strip_trailing_slashes (s ++ [slash]) = strip_trailing_slashes s.
Proof.
  induction s as [|c s IH]; [reflexivity|].
  cbn [app strip_trailing_slashes]. now rewrite IH.
Qed.

Lemma strip_trailing_slashes_more (s : jsstring) (n : nat) :
  strip_trailing_slashes (s ++ repeat slash n) = strip_trailing_slashes s.
Proof.
  revert s; induction n as [|n IH]; intros s; cbn [repeat].
  - now rewrite app_nil_r.
  - change (s ++ slash :: repeat slash n) with (s ++ [slash] ++ repeat slash n).
    now rewrite app_assoc, IH, strip_trailing_slashes_snoc.
Qed.

Section FetcherExtras.
Context {NM : NumberModel}.
Variable server : Server.
Variable baseUrl : jsstring.
Variable maxToReturn : Z.

(** X5.  Trailing slashes on the configured base URL make no difference
    to the record of an issue. *)
Theorem trailing_slashes_do_not_matter (n : nat) (issue : JsVal) :
  transformIssue (baseUrl ++ repeat slash n) issue = transformIssue baseUrl issue.
Proof. unfold transformIssue. now rewrite strip_trailing_slashes_more. Qed.

Lemma loop_requests_bounded (fuel n : nat) (st : LoopState) (rq : Request) :
  In rq (snd (loop server baseUrl maxToReturn fuel n st)) ->
  1 <= rq_maxResults rq <= 50 /\ rq_maxResults rq <= maxToReturn.
Proof.
  revert n st; induction fuel as [|fuel IH]; intros n st.
  - cbn [loop]. destruct (guard maxToReturn st); intros [].
  - rewrite loop_step. destruct (guard maxToReturn st) eqn:Hg; [|intros []].
    cbv zeta.
    assert (Hreq : 1 <= rq_maxResults (request_of maxToReturn st) <= 50
                   /\ rq_maxResults (request_of maxToReturn st) <= maxToReturn).
    { unfold guard in Hg. unfold request_of, pageSize, len in *. cbn [rq_maxResults]. lia. }
    assert (Hone : In rq [request_of maxToReturn st] ->
                   1 <= rq_maxResults rq <= 50 /\ rq_maxResults rq <= maxToReturn).
    { intros [<- | []]. exact Hreq. }
    destruct (negb _); [exact Hone|].
    destruct (after_page _ _ st _) as [[st' [|]]|e]; cbn [snd]; try exact Hone.
    intros [<- | Hin]; [exact Hreq | now apply (IH (S n) st')].
Qed.

(** X6.  Every request of a fetch asks for at least 1 and at most 50
    results, and never for more than [maxToReturn]. *)
Theorem requests_are_within_bounds (fuel : nat) (rq : Request) :
  In rq (snd (getCurrentUserIssues server baseUrl maxToReturn fuel)) ->
  1 <= rq_maxResults rq <= 50 /\ rq_maxResults rq <= maxToReturn.
Proof. apply loop_requests_bounded. Qed.

Lemma loop_progress (fuel n : nat) (st : LoopState) :
  (forall k req, res_ok (server k req) = true ->
                 pg_issues (res_json (server k req)) <> []) ->
  (List.length (snd (loop server baseUrl maxToReturn fuel n st))
   <= Z.to_nat (maxToReturn - len (accumulated st)))%nat
  /\ ((Z.to_nat (maxToReturn - len (accumulated st)) <= fuel)%nat ->
      fst (loop server baseUrl maxToReturn fuel n st) <> OutOfFuel).
Proof.
  intros Hprog. revert n st; induction fuel as [|fuel IH]; intros n st.
  - cbn [loop]. destruct (guard maxToReturn st) eqn:Hg; cbn [fst snd List.length].
    + unfold guard in Hg. split; [lia|]. intros H. lia.
    + split; [lia | discriminate].
  - rewrite loop_step. destruct (guard maxToReturn st) eqn:Hg;
      [|cbn [fst snd List.length]; split; [lia | discriminate]].
    cbv zeta. unfold guard in Hg.
    destruct (negb (res_ok _)) eqn:Hok;
      [cbn [fst snd List.length]; split; [lia | discriminate]|].
    apply negb_false_iff in Hok.
    destruct (after_page _ _ st _) as [[st' brk]|e] eqn:Ha;
      [|cbn [fst snd List.length]; split; [lia | discriminate]].
    apply after_page_returns in Ha as [Hp _].
    apply push_issues_grows in Hp; [|now apply Hprog].
    destruct brk; cbn [fst snd List.length]; [split; [lia | discriminate]|].
    destruct (IH (S n) st') as [Hlen Hend]. split; [lia|].
    intros Hfuel. apply Hend. lia.
Qed.

(** X7.  If the server never answers with an empty successful page, a
    fetch sends at most [maxToReturn] requests, and [maxToReturn] requests
    are enough for it to end (by returning or by throwing). *)
Theorem fetch_ends_when_pages_are_not_empty (fuel : nat) :
  (forall k req, res_ok (server k req) = true ->
                 pg_issues (res_json (server k req)) <> []) ->
  (List.length (snd (getCurrentUserIssues server baseUrl maxToReturn fuel))
   <= Z.to_nat maxToReturn)%nat
  /\ ((Z.to_nat maxToReturn <= fuel)%nat ->
      fst (getCurrentUserIssues server baseUrl maxToReturn fuel) <> OutOfFuel).
Proof.
  intros Hprog. unfold getCurrentUserIssues.
  destruct (loop_progress fuel O {| accumulated := []; startAt := 0 |} Hprog) as [Hl He].
  cbn [accumulated len List.length Z.of_nat] in Hl, He.
  rewrite Z.sub_0_r in Hl, He. now split.
Qed.

(** The records pushed by the inner loop are the images of a prefix of
    the page; the prefix is the whole page unless the limit was reached. *)
Lemma push_issues_prefix (issues : list JsVal) (acc acc' : list JiraIssue) :
  push_issues baseUrl maxToReturn acc issues = Ok acc' ->
  exists rs,
    acc' = acc ++ rs
    /\ Forall2 (fun raw r => transformIssue baseUrl raw = Ok r)
               (firstn (List.length rs) issues) rs
    /\ (List.length rs = List.length issues \/ maxToReturn <= len acc').
Proof.
  revert acc; induction issues as [|issue rest IH]; intros acc H.
  - injection H as <-. exists []. rewrite app_nil_r. repeat split; [constructor | now left].
  - rewrite push_issues_step in H.
    destruct (transformIssue baseUrl issue) as [r|e] eqn:Hr; [|discriminate].
    destruct (Z.geb_spec (len (acc ++ [r])) maxToReturn) as [Hge|Hlt].
    + injection H as <-. exists [r]. repeat split.
      * cbn. constructor; [exact Hr | constructor].
      * right. lia.
    + destruct (IH _ H) as (rs & -> & Hall & Hend).
      exists (r :: rs). rewrite <- app_assoc. repeat split.
      * cbn [List.length firstn]. now constructor.
      * destruct Hend as [Hl | Hm]; [left; cbn [List.length]; lia | right].
        now rewrite <- app_assoc in Hm.
Qed.

Lemma Forall2_prefix_app {A B : Type} (R : A -> B -> Prop)
  (l l' : list A) (rs : list B) :
  Forall2 R (firstn (List.length rs) l) rs ->
  Forall2 R (firstn (List.length rs) (l ++ l')) rs.
Proof.
  intros H. pose proof (Forall2_length H) as Hl. rewrite length_firstn in Hl.
  rewrite firstn_app. replace (List.length rs - List.length l)%nat with O by lia.
  cbn [firstn]. now rewrite app_nil_r.
Qed.

Lemma loop_records (fuel n : nat) (st : LoopState)
  (issues : list JiraIssue) (reqs : list Request) :
  loop server baseUrl maxToReturn fuel n st = (Returned issues, reqs) ->
  exists rs,
    issues = accumulated st ++ rs
    /\ Forall2 (fun raw r => transformIssue baseUrl raw = Ok r)
               (firstn (List.length rs) (served server n reqs)) rs.
Proof.
  revert n st reqs; induction fuel as [|fuel IH]; intros n st reqs H.
  - cbn [loop] in H. destruct (guard maxToReturn st); [discriminate|].
    injection H as <- <-. exists []. rewrite app_nil_r. split; [reflexivity | constructor].
  - rewrite loop_step in H. destruct (guard maxToReturn st) eqn:Hg.
    2:{ injection H as <- <-. exists []. rewrite app_nil_r.
        split; [reflexivity | constructor]. }
    cbv zeta in H. destruct (negb _); [discriminate|].
    destruct (after_page _ _ st _) as [[st' brk]|e] eqn:Ha; [|discriminate].
    apply after_page_returns in Ha as [Hp _].
    destruct (push_issues_prefix _ _ _ Hp) as (rs1 & Hacc & Hall & Hend).
    destruct brk.
    + injection H as <- <-. exists rs1. split; [exact Hacc|].
      cbn [served]. now apply Forall2_prefix_app.
    + injection H as Ho Hreqs.
      destruct (guard maxToReturn st') eqn:Hg'.
      * destruct Hend as [Hfull | Hmax]; [|unfold guard in Hg'; lia].
        destruct (IH (S n) st' (snd (loop server baseUrl maxToReturn fuel (S n) st')))
          as (rs2 & Hacc2 & Hall2).
        { rewrite <- Ho. apply surjective_pairing. }
        exists (rs1 ++ rs2). rewrite Hacc2, Hacc, <- app_assoc. split; [reflexivity|].
        rewrite <- Hreqs. cbn [served].
        rewrite length_app, Hfull, firstn_app_2.
        apply Forall2_app; [|exact Hall2].
        rewrite Hfull, firstn_all in Hall. exact Hall.
      * rewrite (loop_exit _ _ _ _ _ _ Hg') in Ho, Hreqs. cbn [fst snd] in Ho, Hreqs.
        injection Ho as <-. subst reqs. exists rs1. split; [exact Hacc|].
        cbn [served]. now apply Forall2_prefix_app.
Qed.

(** X8.  The records a fetch returns are, in order, the normalized forms
    of the first raw issues the server sent: the pages are consumed in the
    order received, no issue is skipped, repeated or invented. *)
Theorem returned_records_follow_the_pages
  (fuel : nat) (issues : list JiraIssue) (reqs : list Request) :
  getCurrentUserIssues server baseUrl maxToReturn fuel = (Returned issues, reqs) ->
  Forall2 (fun raw r => transformIssue baseUrl raw = Ok r)
          (firstn (List.length issues) (served server O reqs)) issues.
Proof.
  intros H. apply loop_records in H as (rs & -> & Hall). exact Hall.
Qed.

(** X9.  Every record a fetch returns has a description of 1 to 103
    code units and a url that starts with the base URL, stripped of its
    trailing slashes, followed by [/browse/]. *)
Theorem returned_records_are_well_formed
  (fuel : nat) (issues : list JiraIssue) (reqs : list Request) (r : JiraIssue) :
  getCurrentUserIssues server baseUrl maxToReturn fuel = (Returned issues, reqs) ->
  In r issues ->
  (1 <= List.length (description r) <= 103)%nat
  /\ exists ks, url r = strip_trailing_slashes baseUrl ++ lit "/browse/" ++ ks.
Proof.
  intros H Hin. apply loop_records in H as (rs & -> & Hall). cbn [accumulated app] in Hin.
  assert (Hraw : exists raw, transformIssue baseUrl raw = Ok r).
  { clear -Hall Hin. induction Hall as [|raw r' l l' Hr _ IH]; [contradiction|].
    destruct Hin as [<- | Hin]; eauto. }
  destruct Hraw as [raw Hraw].
  apply transformIssue_returns in Hraw as (_ & ks & _ & ->).
  cbn [description url]. split; [|eauto].
  set (d := extractDescription _).
  assert (Hd : d <> []) by apply extractDescription_nonempty.
  unfold truncate, maxLength.
  destruct (Nat.ltb_spec 100 (List.length d)) as [Hlong|Hshort].
  - rewrite length_app, length_firstn. cbn [TRUNCATION_MARK List.length]. lia.
  - destruct d; [contradiction|]. cbn [List.length] in *. lia.
Qed.

End FetcherExtras.

Lemma requests_are_within_bounds_witness :
  In {| rq_startAt := 5; rq_maxResults := 50 |}
     (snd (getCurrentUserIssues (paging_server 5 seven_issues) example_base 100 10))
  /\ 1 <= rq_maxResults {| rq_startAt := 5; rq_maxResults := 50 |} <= 50.
Proof.
  assert (Hin : In {| rq_startAt := 5; rq_maxResults := 50 |}
                   (snd (getCurrentUserIssues (paging_server 5 seven_issues)
                           example_base 100 10)))
    by (right; left; reflexivity).
  split; [exact Hin|].
  apply (requests_are_within_bounds (paging_server 5 seven_issues) example_base 100 10
           {| rq_startAt := 5; rq_maxResults := 50 |} Hin).
Defined.

Lemma fetch_ends_when_pages_are_not_empty_witness :
  fst (getCurrentUserIssues bare_page_server example_base 5 5) <> OutOfFuel.
Proof.
  apply (fetch_ends_when_pages_are_not_empty bare_page_server example_base 5 5).
  - intros k req _. discriminate.
  - cbn. lia.
Defined.

Lemma returned_records_follow_the_pages_witness :
  exists issues,
    Forall2 (fun raw r => transformIssue example_base raw = Ok r)
            (firstn 7 seven_issues) issues.
Proof.
  eexists.
  apply (returned_records_follow_the_pages (paging_server 5 seven_issues) example_base
           100 10 _ _ eq_refl).
Defined.

Lemma returned_records_are_well_formed_witness :
  (1 <= List.length (description k1_record) <= 103)%nat
  /\ exists ks, url k1_record = strip_trailing_slashes example_base ++ lit "/browse/" ++ ks.
Proof.
  apply (returned_records_are_well_formed (paging_server 5 seven_issues) example_base
           100 10 _ _ k1_record eq_refl).
  left. reflexivity.
Defined.

(** ** The fetch against a server that honours the page parameters *)

Lemma firstn_add_split {A : Type} (a b : nat) (l : list A) :
  firstn (a + b) l = firstn a l ++ firstn b (skipn a l).
Proof.
  revert l; induction a as [|a IH]; intros l; [reflexivity|].
  destruct l as [|x l]; cbn [Nat.add firstn skipn app].
  - now rewrite firstn_nil.
  - now rewrite IH.
Qed.

Lemma Forall2_firstn {A B : Type} (R : A -> B -> Prop) (n : nat)
  (l : list A) (l' : list B) :
  Forall2 R l l' -> Forall2 R (firstn n l) (firstn n l').
Proof.
  intros H. revert n. induction H as [|x y l l' Hxy _ IH]; intros n.
  - rewrite !firstn_nil. constructor.
  - destruct n; cbn [firstn]; constructor; [exact Hxy | apply IH].
Qed.

Lemma Forall2_skipn {A B : Type} (R : A -> B -> Prop) (n : nat)
  (l : list A) (l' : list B) :
  Forall2 R l l' -> Forall2 R (skipn n l) (skipn n l').
Proof.
  intros H. revert n. induction H as [|x y l l' Hxy H IH]; intros n.
  - rewrite !skipn_nil. constructor.
  - destruct n; cbn [skipn]; [now constructor | apply IH].
Qed.

Section HonestServer.
Context {NM : NumberModel}.
Variable limit : Z.
Variable all : list JsVal.
Variable baseUrl : jsstring.
Variable maxToReturn : Z.
Variable records : list JiraIssue.

Hypothesis limit_positive : 1 <= limit.
Hypothesis all_normalized :
  Forall2 (fun raw r => transformIssue baseUrl raw = Ok r) all records.

(** A page that fits below the limit is pushed whole. *)
Lemma push_issues_whole (page : list JsVal) (prs acc : list JiraIssue) :
  Forall2 (fun raw r => transformIssue baseUrl raw = Ok r) page prs ->
  len acc + Z.of_nat (List.length page) <= maxToReturn ->
  push_issues baseUrl maxToReturn acc page = Ok (acc ++ prs).
Proof.
  intros H. revert acc. induction H as [|raw r page prs Hr Hrest IH]; intros acc Hfit.
  - now rewrite app_nil_r.
  - rewrite push_issues_step, Hr. cbn [List.length] in Hfit.
    destruct (Z.geb_spec (len (acc ++ [r])) maxToReturn) as [Hge|Hlt].
    + rewrite len_app in Hge. destruct page as [|raw' page]; [|cbn [List.length] in Hfit; lia].
      inversion Hrest. reflexivity.
    + rewrite IH by (rewrite len_app; lia). now rewrite <- app_assoc.
Qed.

Lemma honest_loop (fuel n k : nat) :
  (k <= List.length all)%nat ->
  (k <= Z.to_nat maxToReturn)%nat ->
  (Z.to_nat maxToReturn - k <= fuel)%nat ->
  fst (loop (paging_server limit all) baseUrl maxToReturn fuel n
         {| accumulated := firstn k records; startAt := Z.of_nat k |})
  = Returned (firstn (Z.to_nat maxToReturn) records).
Proof.
  pose proof (Forall2_length all_normalized) as Hlen.
  revert n k; induction fuel as [|fuel IH]; intros n k Hk Hmax Hfuel;
    set (st := {| accumulated := firstn k records; startAt := Z.of_nat k |});
    assert (Hacc : len (accumulated st) = Z.of_nat k)
      by (unfold len; cbn [accumulated st]; rewrite length_firstn; lia);
    destruct (guard maxToReturn st) eqn:Hg;
    unfold guard in Hg; rewrite Hacc in Hg.
  - lia.
  - rewrite loop_exit by (unfold guard; rewrite Hacc; exact Hg).
    cbn [fst accumulated st]. f_equal. f_equal. lia.
  - rewrite loop_step. unfold guard. rewrite Hacc, Hg. cbv zeta.
    set (m := Z.min (Z.min (pageSize maxToReturn) (maxToReturn - Z.of_nat k)) limit).
    assert (Hm : 1 <= m <= maxToReturn - Z.of_nat k) by (unfold m, pageSize; lia).
    assert (Hpage : after_page baseUrl maxToReturn st
                      (res_json (paging_server limit all n (request_of maxToReturn st)))
                    = Ok ({| accumulated := firstn (k + Z.to_nat m) records;
                             startAt := Z.of_nat k + m |},
                          Z.of_nat k + m >=? Z.of_nat (List.length all))).
    { unfold after_page, paging_server, request_of.
      cbn [ok_response res_json pg_issues pg_startAt pg_maxResults pg_total
           rq_startAt rq_maxResults default startAt st].
      rewrite Hacc. fold m. rewrite Nat2Z.id.
      rewrite (push_issues_whole _ (firstn (Z.to_nat m) (skipn k records))).
      - cbn [bind accumulated st]. now rewrite <- firstn_add_split.
      - now apply Forall2_firstn, Forall2_skipn.
      - rewrite Hacc, length_firstn. lia. }
    change (res_ok (paging_server limit all n (request_of maxToReturn st))) with true.
    cbn [negb]. rewrite Hpage.
    destruct (Z.geb_spec (Z.of_nat k + m) (Z.of_nat (List.length all))) as [Hge|Hlt];
      cbn [fst accumulated].
    + f_equal. rewrite !firstn_all2 by lia. reflexivity.
    + replace (Z.of_nat k + m) with (Z.of_nat (k + Z.to_nat m)) by lia.
      apply IH; lia.
  - rewrite loop_exit by (unfold guard; rewrite Hacc; exact Hg).
    cbn [fst accumulated st]. f_equal. f_equal. lia.
Qed.

(** X10.  Against a server that holds [all] issues, serves the window
    asked for (at most [limit >= 1] issues per page) and reports it
    together with the total, a fetch that is allowed [maxToReturn]
    requests returns exactly the records of the first [maxToReturn] issues,
    in order (all of them when there are fewer). *)
Theorem fetch_returns_the_first_issues (fuel : nat) :
  (Z.to_nat maxToReturn <= fuel)%nat ->
  fst (getCurrentUserIssues (paging_server limit all) baseUrl maxToReturn fuel)
  = Returned (firstn (Z.to_nat maxToReturn) records).
Proof.
  intros Hfuel. unfold getCurrentUserIssues.
  apply (honest_loop fuel O O); lia.
Qed.

End HonestServer.

Lemma fetch_returns_the_first_issues_witness :
  exists records,
    Forall2 (fun raw r => transformIssue example_base raw = Ok r) seven_issues records
    /\ fst (getCurrentUserIssues (paging_server 2 seven_issues) example_base 5 5)
       = Returned (firstn 5 records).
Proof.
  eexists. split.
  - repeat (apply Forall2_cons; [reflexivity|]). apply Forall2_nil.
  - apply (fetch_returns_the_first_issues 2 seven_issues example_base 5 _ ltac:(lia)).
    + repeat (apply Forall2_cons; [reflexivity|]). apply Forall2_nil.
    + cbn. lia.
Defined.

(** ** Random selection *)

Section SelectionProperties.
Variable T : Type.
Variable draws : Draws.
Variable arr : list T.
Variable count : Z.

Lemma existsb_eqb_In (i : nat) (l : list nat) :
  existsb (Nat.eqb i) l = true <-> In i l.
Proof.
  rewrite existsb_exists. split.
  - intros [x [Hin Hx]]. apply Nat.eqb_eq in Hx. now subst.
  - intros H. exists i. split; [exact H | apply Nat.eqb_refl].
Qed.

(** The loop keeps [picked] the reading of [arr] at the indices of [used],
    which are pairwise distinct. *)
Lemma pick_loop_invariant (fuel k : nat) (used : list nat)
  (res : list (option T)) (k' : nat) :
  NoDup used ->
  pick_loop draws arr count fuel k used (map (nth_error arr) used) = Some (res, k') ->
  exists idx,
    res = map (nth_error arr) idx
    /\ NoDup idx
    /\ (forall i, In i idx -> In i used \/ exists j, (k <= j < k')%nat /\ i = draws j (List.length arr))
    /\ count <= Z.of_nat (List.length idx)
    /\ (Z.of_nat (List.length used) <= count -> Z.of_nat (List.length idx) <= count)
    /\ (k <= k' <= k + fuel)%nat.
Proof.
  revert k used; induction fuel as [|fuel IH]; intros k used Hnd H; cbn [pick_loop] in H;
    rewrite length_map in H;
    destruct (Z.ltb_spec (Z.of_nat (List.length used)) count) as [Hlt|Hge];
    try discriminate.
  - injection H as <- <-. exists used. repeat split; auto; lia.
  - cbv zeta in H. destruct (existsb (Nat.eqb (draws k (List.length arr))) used) eqn:Hused.
    + destruct (IH (S k) used Hnd H) as (idx & Hres & Hnd' & Hfrom & Hmin & Hmax & Hk).
      exists idx. repeat split; auto; try lia.
      intros i Hi. destruct (Hfrom i Hi) as [Hin | (j & Hj & ->)]; [now left|].
      right. exists j. split; [lia | reflexivity].
    + assert (Hfresh : ~ In (draws k (List.length arr)) used).
      { intros Hin. apply existsb_eqb_In in Hin. congruence. }
      assert (Hnd2 : NoDup (used ++ [draws k (List.length arr)])).
      { apply NoDup_app; [exact Hnd | repeat constructor; intros [] |].
        intros x Hx [<- | []]. contradiction. }
      replace (map (nth_error arr) used ++ [nth_error arr (draws k (List.length arr))])
        with (map (nth_error arr) (used ++ [draws k (List.length arr)])) in H
        by (now rewrite map_app).
      destruct (IH (S k) _ Hnd2 H) as (idx & Hres & Hnd' & Hfrom & Hmin & Hmax & Hk).
      exists idx. repeat split; auto; try lia.
      * intros i Hi. destruct (Hfrom i Hi) as [Hin | (j & Hj & ->)].
        -- apply in_app_or in Hin as [Hin | [<- | []]]; [now left|].
           right. exists k. split; [lia | reflexivity].
        -- right. exists j. split; [lia | reflexivity].
      * intros _. apply Hmax. rewrite length_app. cbn [List.length]. lia.
  - injection H as <- <-. exists used. repeat split; auto; lia.
Qed.

Lemma map_nth_error_seq (l : list T) :
  map (nth_error l) (seq 0 (List.length l)) = map Some l.
Proof.
  induction l as [|x l IH]; [reflexivity|].
  cbn [List.length seq map nth_error]. f_equal.
  rewrite <- seq_shift, map_map. exact IH.
Qed.

Lemma pickRandom_positions
  (fuel k : nat) (res : list (option T)) (k' : nat) :
  (forall j, (draws j (List.length arr) < List.length arr)%nat) ->
  pickRandom draws arr count fuel k = Some (res, k') ->
  exists idx,
    res = map (nth_error arr) idx
    /\ NoDup idx
    /\ (forall i, In i idx -> (i < List.length arr)%nat)
    /\ Z.of_nat (List.length res) = Z.min (Z.of_nat (List.length arr)) (Z.max 0 count)
    /\ (Z.of_nat (List.length arr) <= count -> res = map Some arr /\ k' = k).
Proof.
  intros Hrange H. unfold pickRandom in H.
  destruct (Z.leb_spec (Z.of_nat (List.length arr)) count) as [Hle|Hgt].
  - injection H as <- <-. exists (seq 0 (List.length arr)).
    rewrite map_nth_error_seq, length_map. repeat split; try lia.
    + apply seq_NoDup.
    + intros i Hi. apply in_seq in Hi. lia.
  - destruct (pick_loop_invariant fuel k [] res k' (NoDup_nil _) H)
      as (idx & -> & Hnd & Hfrom & Hmin & Hmax & _).
    exists idx. rewrite length_map. repeat split; auto; try lia.
    + intros i Hi. destruct (Hfrom i Hi) as [[] | (j & _ & ->)]. apply Hrange.
    + cbn [List.length] in Hmax. destruct (Z.le_gt_cases 0 count); [lia|].
      assert (Z.of_nat (List.length idx) = 0); [|lia].
      cbn [pick_loop] in H. destruct fuel; cbn [pick_loop List.length] in H;
        destruct (Z.ltb_spec (Z.of_nat 0) count); try lia;
        injection H as Hm _; destruct idx; [reflexivity | discriminate | reflexivity | discriminate].
Qed.

(** X11.  When [pickRandom] returns, its result reads [arr] at pairwise
    distinct positions, each below [arr.length] when the draws are; it has
    [count] elements when [arr] is longer than [count] (none for a negative
    [count]), and is otherwise [arr] itself. *)
Theorem pickRandom_reads_distinct_positions
  (fuel k : nat) (res : list (option T)) (k' : nat) :
  (forall j, (draws j (List.length arr) < List.length arr)%nat) ->
  pickRandom draws arr count fuel k = Some (res, k') ->
  exists idx,
    res = map (nth_error arr) idx
    /\ NoDup idx
    /\ (forall i, In i idx -> (i < List.length arr)%nat)
    /\ Z.of_nat (List.length res) = Z.min (Z.of_nat (List.length arr)) (Z.max 0 count)
    /\ (Z.of_nat (List.length arr) <= count -> res = map Some arr /\ k' = k).
Proof. apply pickRandom_positions. Qed.

Lemma nth_error_distinct (l : list T) (i j : nat) (x : T) :
  NoDup l -> nth_error l i = Some x -> nth_error l j = Some x -> i = j.
Proof.
  intros Hnd Hi Hj.
  apply (proj1 (NoDup_nth_error l) Hnd i j).
  - apply nth_error_Some. congruence.
  - congruence.
Qed.

(** Reading [arr] at positions inside it gives elements of [arr], and
    distinct ones at distinct positions when [arr] has no duplicates. *)
Lemma read_positions (idx : list nat) :
  (forall i, In i idx -> (i < List.length arr)%nat) ->
  exists sel,
    map (nth_error arr) idx = map Some sel
    /\ incl sel arr
    /\ (NoDup arr -> NoDup idx -> NoDup sel).
Proof.
  induction idx as [|i idx IH]; intros Hin.
  - exists []. repeat split; [intros ? [] | constructor].
  - destruct IH as (sel & Hsel & Hincl & Hnds); [intros; apply Hin; now right|].
    destruct (nth_error arr i) as [x|] eqn:Hx.
    2:{ apply nth_error_None in Hx. specialize (Hin i (or_introl eq_refl)). lia. }
    exists (x :: sel). cbn [map]. rewrite Hx, Hsel. repeat split.
    + intros y [<- | Hy]; [now apply nth_error_In in Hx | now apply Hincl].
    + intros Harr Hnd. inversion_clear Hnd as [|? ? Hi Hnd'].
      constructor; [|now apply Hnds]. intros Hxin.
      assert (Hex : exists j, In j idx /\ nth_error arr j = Some x).
      { clear -Hsel Hxin. revert sel Hsel Hxin.
        induction idx as [|j idx IH]; intros [|y sel] Hsel Hxin; try discriminate;
          [contradiction|].
        cbn [map] in Hsel. injection Hsel as Hj Hsel.
        destruct Hxin as [-> | Hxin]; [exists j; split; [now left | exact Hj]|].
        destruct (IH sel Hsel Hxin) as (j' & Hj' & Hn).
        exists j'. split; [now right | exact Hn]. }
      destruct Hex as (j & Hj & Hn).
      rewrite (nth_error_distinct arr i j x Harr Hx Hn) in Hi. contradiction.
Qed.

Lemma pickRandom_selection (fuel k : nat) (res : list (option T)) (k' : nat) :
  (forall j n, (0 < n)%nat -> (draws j n < n)%nat) ->
  pickRandom draws arr count fuel k = Some (res, k') ->
  exists sel, res = map Some sel /\ incl sel arr /\ (NoDup arr -> NoDup sel).
Proof.
  intros Hrange H. destruct arr as [|x0 arr0] eqn:Harr.
  - unfold pickRandom in H. cbn [List.length Z.of_nat] in H.
    destruct (Z.leb_spec 0 count) as [Hle|Hgt].
    + injection H as <- _. exists []. repeat split; [intros ? [] | constructor].
    + destruct fuel; cbn [pick_loop List.length Z.of_nat] in H;
        destruct (Z.ltb_spec 0 count); try lia;
        injection H as <- _; exists []; repeat split; try (intros ? []); constructor.
  - rewrite <- Harr in *.
    assert (Hr : forall j, (draws j (List.length arr) < List.length arr)%nat).
    { intros j. apply Hrange. rewrite Harr. cbn [List.length]. lia. }
    destruct (pickRandom_positions fuel k res k' Hr H) as (idx & -> & Hnd & Hin & _).
    destruct (read_positions idx Hin) as (sel & Hsel & Hincl & Hnds).
    exists sel. repeat split; auto.
Qed.

Lemma pickRandom_length (fuel k : nat) (res : list (option T)) (k' : nat) :
  0 <= count ->
  pickRandom draws arr count fuel k = Some (res, k') ->
  Z.of_nat (List.length res) = Z.min (Z.of_nat (List.length arr)) count.
Proof.
  intros Hc H. unfold pickRandom in H.
  destruct (Z.leb_spec (Z.of_nat (List.length arr)) count) as [Hle|Hgt].
  - injection H as <- _. rewrite length_map. lia.
  - destruct (pick_loop_invariant fuel k [] res k' (NoDup_nil _) H)
      as (idx & -> & _ & _ & Hmin & Hmax & _).
    rewrite length_map. cbn [List.length] in Hmax. lia.
Qed.

(** X12.  If [arr] has no duplicates and the draws are indices of [arr],
    a selection has no duplicates either and holds only elements of
    [arr]. *)
Theorem pickRandom_selects_without_repetition
  (fuel k : nat) (res : list (option T)) (k' : nat) :
  NoDup arr ->
  (forall j, (draws j (List.length arr) < List.length arr)%nat) ->
  pickRandom draws arr count fuel k = Some (res, k') ->
  exists sel, res = map Some sel /\ NoDup sel /\ incl sel arr.
Proof.
  intros Harr Hrange H.
  destruct (pickRandom_positions fuel k res k' Hrange H) as (idx & -> & Hnd & Hin & _).
  destruct (read_positions idx Hin) as (sel & Hsel & Hincl & Hnds).
  exists sel. repeat split; auto.
Qed.

End SelectionProperties.

Section SelectionRuns.
Variable T : Type.
Variable arr : list T.
Variable count : Z.

Lemma pick_loop_done (draws : Draws) (fuel k : nat) (used : list nat)
  (picked : list (option T)) :
  count <= Z.of_nat (List.length picked) ->
  pick_loop draws arr count fuel k used picked = Some (picked, k).
Proof.
  intros H. destruct fuel; cbn [pick_loop];
    destruct (Z.ltb_spec (Z.of_nat (List.length picked)) count); try lia; reflexivity.
Qed.

Lemma pick_loop_fresh_draws (draws : Draws) (m fuel k : nat) (used : list nat) :
  NoDup (used ++ map (index_at draws arr) (seq k m)) ->
  (List.length used + m = Z.to_nat count)%nat ->
  (m <= fuel)%nat ->
  pick_loop draws arr count fuel k used (map (nth_error arr) used)
  = Some (map (nth_error arr) (used ++ map (index_at draws arr) (seq k m)), (k + m)%nat).
Proof.
  revert fuel k used; induction m as [|m IH]; intros fuel k used Hnd Hlen Hfuel.
  - cbn [seq map]. rewrite app_nil_r, Nat.add_0_r.
    apply pick_loop_done. rewrite length_map. lia.
  - destruct fuel as [|fuel]; [lia|]. cbn [pick_loop]. rewrite length_map.
    destruct (Z.ltb_spec (Z.of_nat (List.length used)) count); [|lia].
    cbv zeta. cbn [seq map] in Hnd.
    destruct (existsb (Nat.eqb (draws k (List.length arr))) used) eqn:Hused.
    + apply existsb_eqb_In in Hused. apply NoDup_remove_2 in Hnd.
      exfalso. apply Hnd. apply in_or_app. now left.
    + replace (map (nth_error arr) used ++ [nth_error arr (draws k (List.length arr))])
        with (map (nth_error arr) (used ++ [draws k (List.length arr)])) by (now rewrite map_app).
      rewrite IH.
      * cbn [seq map]. rewrite <- app_assoc. cbn [app]. do 2 f_equal. lia.
      * now rewrite <- app_assoc.
      * rewrite length_app. cbn [List.length]. lia.
      * lia.
Qed.

(** X13.  If [arr] is longer than [count] and the next [count] draws are
    pairwise distinct, [pickRandom] makes exactly these draws and returns
    the elements at the drawn positions, in the order drawn. *)
Theorem pickRandom_with_distinct_draws (draws : Draws) (fuel k : nat) :
  count < Z.of_nat (List.length arr) ->
  NoDup (map (index_at draws arr) (seq k (Z.to_nat count))) ->
  (Z.to_nat count <= fuel)%nat ->
  pickRandom draws arr count fuel k
  = Some (map (nth_error arr) (map (index_at draws arr) (seq k (Z.to_nat count))),
          (k + Z.to_nat count)%nat).
Proof.
  intros Hlong Hnd Hfuel. unfold pickRandom.
  destruct (Z.leb_spec (Z.of_nat (List.length arr)) count); [lia|].
  now apply (pick_loop_fresh_draws draws (Z.to_nat count) fuel k []).
Qed.

Lemma pick_loop_stuck (i : nat) (fuel k : nat) (x : option T) :
  1 < count ->
  pick_loop (stuck_at i) arr count fuel k [i] [x] = None.
Proof.
  intros Hc. revert k; induction fuel as [|fuel IH]; intros k; cbn [pick_loop List.length];
    destruct (Z.ltb_spec (Z.of_nat 1) count); try lia; [reflexivity|].
  cbv zeta. unfold stuck_at at 1. cbn [existsb]. rewrite Nat.eqb_refl. cbn [orb].
  apply IH.
Qed.

(** X14.  The selection loop need not end: if [arr] is longer than
    [count >= 2] and every draw gives the same index, no number of draws
    lets [pickRandom] return. *)
Theorem pickRandom_never_returns_on_stuck_draws (i fuel k : nat) :
  1 < count ->
  count < Z.of_nat (List.length arr) ->
  pickRandom (stuck_at i) arr count fuel k = None.
Proof.
  intros Hc Hlong. unfold pickRandom.
  destruct (Z.leb_spec (Z.of_nat (List.length arr)) count); [lia|].
  destruct fuel as [|fuel]; cbn [pick_loop List.length];
    destruct (Z.ltb_spec (Z.of_nat 0) count); try lia; [reflexivity|].
  cbv zeta. cbn [existsb app]. now apply pick_loop_stuck.
Qed.

End SelectionRuns.

Lemma round_robin_in_range (n j : nat) : (0 < n)%nat -> (round_robin j n < n)%nat.
Proof. intros H. unfold round_robin. apply Nat.mod_upper_bound. lia. Qed.

Lemma pickRandom_reads_distinct_positions_witness :
  exists idx,
    [Some 20%nat; Some 30%nat] = map (nth_error [10; 20; 30; 40]%nat) idx /\ NoDup idx.
Proof.
  destruct (pickRandom_reads_distinct_positions nat round_robin [10; 20; 30; 40]%nat 2
              5 1 [Some 20%nat; Some 30%nat] 3%nat
              (fun j => round_robin_in_range 4 j ltac:(lia)) eq_refl)
    as (idx & Hres & Hnd & _).
  exists idx. split; assumption.
Defined.

Lemma pickRandom_selects_without_repetition_witness :
  exists sel, [Some 20%nat; Some 30%nat] = map Some sel /\ NoDup sel
              /\ incl sel [10; 20; 30; 40]%nat.
Proof.
  apply (pickRandom_selects_without_repetition nat round_robin [10; 20; 30; 40]%nat 2
           5 1 [Some 20%nat; Some 30%nat] 3%nat).
  - repeat (constructor; [cbn; intuition discriminate|]). constructor.
  - intros j. apply (round_robin_in_range 4 j). lia.
  - reflexivity.
Defined.

Lemma pickRandom_with_distinct_draws_witness :
  pickRandom round_robin [10; 20; 30; 40]%nat 2 2 1
  = Some ([Some 20%nat; Some 30%nat], 3%nat).
Proof.
  apply (pickRandom_with_distinct_draws nat [10; 20; 30; 40]%nat 2 round_robin 2 1).
  - cbn. lia.
  - repeat (constructor; [cbn; intuition discriminate|]). constructor.
  - cbn. lia.
Defined.

Lemma pickRandom_never_returns_on_stuck_draws_witness :
  pickRandom (stuck_at 0) [10; 20; 30; 40]%nat 2 1000 0 = None.
Proof.
  apply (pickRandom_never_returns_on_stuck_draws nat [10; 20; 30; 40]%nat 2 0 1000 0).
  - lia.
  - cbn. lia.
Defined.

(** ** The nonce *)

Lemma charAt_nonce_chars (i : nat) :
  forallb is_alnum (charAt NONCE_CHARS i) = true
  /\ (List.length (charAt NONCE_CHARS i) <= 1)%nat
  /\ ((i < 62)%nat -> List.length (charAt NONCE_CHARS i) = 1%nat).
Proof.
  unfold charAt. destruct (nth_error NONCE_CHARS i) as [c|] eqn:Hc.
  - repeat split; [|cbn; lia].
    cbn [forallb]. rewrite andb_true_r.
    assert (Hall : forallb is_alnum NONCE_CHARS = true) by reflexivity.
    rewrite forallb_forall in Hall. apply Hall. now apply nth_error_In in Hc.
  - repeat split; [cbn; lia|].
    intros Hi. apply nth_error_None in Hc. change (List.length NONCE_CHARS) with 62%nat in Hc.
    lia.
Qed.

Lemma nonce_loop_alnum (draws : Draws) (n k : nat) (nonce : jsstring) :
  forallb is_alnum nonce = true ->
  forallb is_alnum (nonce_loop draws n k nonce) = true
  /\ (List.length (nonce_loop draws n k nonce) <= List.length nonce + n)%nat
  /\ ((forall j, (draws j 62%nat < 62)%nat) ->
      List.length (nonce_loop draws n k nonce) = (List.length nonce + n)%nat).
Proof.
  revert k nonce; induction n as [|n IH]; intros k nonce Hn; cbn [nonce_loop].
  - repeat split; [exact Hn | lia | intros; lia].
  - destruct (charAt_nonce_chars (draws k (List.length NONCE_CHARS))) as (Ha & Hl & He).
    destruct (IH (S k) (nonce ++ charAt NONCE_CHARS (draws k (List.length NONCE_CHARS)))) as (Ha' & Hl' & He').
    { rewrite forallb_app. now rewrite Hn, Ha. }
    rewrite length_app in Hl', He'. repeat split; [exact Ha' | lia|].
    intros Hr. rewrite (He' Hr), (He (Hr k)). lia.
Qed.

(** X15.  Whatever the draws, the nonce holds only ASCII letters and
    digits and at most 32 of them; it has exactly 32 when every draw is an
    index of the 62-character alphabet. *)
Theorem getNonce_is_alphanumeric (draws : Draws) (k : nat) :
  forallb is_alnum (getNonce draws k) = true
  /\ (List.length (getNonce draws k) <= 32)%nat
  /\ ((forall j, (draws j 62%nat < 62)%nat) -> List.length (getNonce draws k) = 32%nat).
Proof.
  destruct (nonce_loop_alnum draws 32 k [] eq_refl) as (Ha & Hl & He).
  repeat split; [exact Ha | exact Hl | exact He].
Qed.

(** ** The matcher decides the language *)

Lemma Lang_eps_inv (w : jsstring) : Lang Eps w -> w = [].
Proof. inversion 1. reflexivity. Qed.

Lemma Lang_cls_inv (p : N -> bool) (w : jsstring) :
  Lang (Cls p) w -> exists c, w = [c] /\ p c = true.
Proof. inversion 1. eauto. Qed.

Lemma Lang_cat_inv (r s : regex) (w : jsstring) :
  Lang (Cat r s) w -> exists a b, w = a ++ b /\ Lang r a /\ Lang s b.
Proof. inversion 1. eauto. Qed.

Lemma Lang_alt_inv (r s : regex) (w : jsstring) :
  Lang (Alt r s) w -> Lang r w \/ Lang s w.
Proof. inversion 1; auto. Qed.

Lemma Lang_void_inv (w : jsstring) : ~ Lang Void w.
Proof. inversion 1. Qed.

(** A non-empty word of [r*] starts with a non-empty word of [r]. *)
Lemma Lang_star_cons (r : regex) (c : N) (w : jsstring) :
  Lang (Star r) (c :: w) ->
  exists a b, w = a ++ b /\ Lang r (c :: a) /\ Lang (Star r) b.
Proof.
  intros H. remember (Star r) as sr eqn:Hsr. remember (c :: w) as cw eqn:Hcw.
  revert w Hcw. induction H as [| | | | | |r' a b Ha _ Hb IHb]; intros w Hcw;
    try discriminate.
  injection Hsr as ->. destruct a as [|x a].
  - cbn [app] in Hcw. now apply IHb.
  - cbn [app] in Hcw. injection Hcw as -> <-. eauto.
Qed.

Lemma nullable_spec (r : regex) : nullable r = true <-> Lang r [].
Proof.
  induction r as [| |p|r IHr s IHs|r IHr s IHs|r IHr]; cbn [nullable].
  - split; [discriminate | intros H; now apply Lang_void_inv in H].
  - split; [constructor | reflexivity].
  - split; [discriminate|].
    intros H. apply Lang_cls_inv in H as (c & Hc & _). discriminate.
  - split; intros H.
    + apply andb_true_iff in H as [Hr Hs].
      change (@nil N) with (@nil N ++ []). constructor; [now apply IHr | now apply IHs].
    + apply Lang_cat_inv in H as (a & b & Hab & Ha & Hb).
      symmetry in Hab. apply app_eq_nil in Hab as [-> ->].
      apply andb_true_iff. split; [now apply IHr | now apply IHs].
  - split; intros H.
    + apply orb_true_iff in H as [H | H];
        [apply Lang_alt_l; now apply IHr | apply Lang_alt_r; now apply IHs].
    + apply orb_true_iff. apply Lang_alt_inv in H as [H | H];
        [left; now apply IHr | right; now apply IHs].
  - split; [constructor | reflexivity].
Qed.

Lemma deriv_spec (c : N) (r : regex) (w : jsstring) :
  Lang (deriv c r) w <-> Lang r (c :: w).
Proof.
  revert w; induction r as [| |p|r IHr s IHs|r IHr s IHs|r IHr]; intros w; cbn [deriv].
  - split; intros H; now apply Lang_void_inv in H.
  - split; intros H; [now apply Lang_void_inv in H | apply Lang_eps_inv in H; discriminate].
  - destruct (p c) eqn:Hp; split; intros H.
    + apply Lang_eps_inv in H as ->. now constructor.
    + apply Lang_cls_inv in H as (x & Hx & _). injection Hx as <- ->. constructor.
    + now apply Lang_void_inv in H.
    + apply Lang_cls_inv in H as (x & Hx & Hpx). injection Hx as <- _. congruence.
  - assert (Hfront : forall v, Lang (Cat (deriv c r) s) v -> Lang (Cat r s) (c :: v)).
    { intros v H. apply Lang_cat_inv in H as (a & b & -> & Ha & Hb).
      change (c :: a ++ b) with ((c :: a) ++ b). constructor; [now apply IHr | exact Hb]. }
    assert (Hback : forall v, Lang (Cat r s) (c :: v) ->
              Lang (Cat (deriv c r) s) v \/ (Lang r [] /\ Lang (deriv c s) v)).
    { intros v H. apply Lang_cat_inv in H as (a & b & Hab & Ha & Hb).
      destruct a as [|x a]; cbn [app] in Hab.
      - right. subst b. split; [exact Ha | now apply IHs].
      - injection Hab as <- ->. left. constructor; [now apply IHr | exact Hb]. }
    destruct (nullable r) eqn:Hn; split; intros H.
    + apply Lang_alt_inv in H as [H | H]; [now apply Hfront|].
      change (c :: w) with ([] ++ c :: w).
      constructor; [now apply nullable_spec | now apply IHs].
    + destruct (Hback w H) as [H' | [_ H']]; [now apply Lang_alt_l | now apply Lang_alt_r].
    + now apply Hfront.
    + destruct (Hback w H) as [H' | [Hr _]]; [exact H'|].
      apply nullable_spec in Hr. congruence.
  - split; intros H.
    + apply Lang_alt_inv in H as [H | H];
        [apply Lang_alt_l; now apply IHr | apply Lang_alt_r; now apply IHs].
    + apply Lang_alt_inv in H as [H | H];
        [apply Lang_alt_l; now apply IHr | apply Lang_alt_r; now apply IHs].
  - split; intros H.
    + apply Lang_cat_inv in H as (a & b & -> & Ha & Hb).
      change (c :: a ++ b) with ((c :: a) ++ b). constructor; [now apply IHr | exact Hb].
    + apply Lang_star_cons in H as (a & b & -> & Ha & Hb).
      constructor; [now apply IHr | exact Hb].
Qed.

Lemma matches_spec (r : regex) (w : jsstring) : matches r w = true <-> Lang r w.
Proof.
  revert r; induction w as [|c w IH]; intros r; cbn [matches].
  - apply nullable_spec.
  - rewrite IH. apply deriv_spec.
Qed.

(** ** Reading the patterns *)

Lemma Lang_any_star (w : jsstring) : Lang (Star any) w.
Proof.
  induction w as [|c w IH]; [constructor|].
  change (c :: w) with ([c] ++ w). constructor; [now constructor | exact IH].
Qed.

Lemma Lang_str (v w : jsstring) : Lang (Str v) w <-> w = v.
Proof.
  revert w; induction v as [|c v IH]; intros w; cbn [Str]; split; intros H.
  - now apply Lang_eps_inv in H.
  - subst. constructor.
  - apply Lang_cat_inv in H as (a & b & -> & Ha & Hb).
    apply Lang_cls_inv in Ha as (x & -> & Hx). apply N.eqb_eq in Hx. subst x.
    apply IH in Hb. now subst.
  - subst. change (c :: v) with ([c] ++ v).
    constructor; [constructor; apply N.eqb_refl | now apply IH].
Qed.

Lemma Lang_one_of (ws : list string) (w : jsstring) :
  Lang (OneOf ws) w <-> exists name, In name ws /\ w = lit name.
Proof.
  induction ws as [|x ws IH]; cbn [OneOf]; split; intros H.
  - now apply Lang_void_inv in H.
  - destruct H as (name & [] & _).
  - apply Lang_alt_inv in H as [H | H].
    + apply Lang_str in H. exists x. split; [now left | exact H].
    + apply IH in H as (name & Hin & ->). exists name. split; [now right | reflexivity].
  - destruct H as (name & [<- | Hin] & ->).
    + apply Lang_alt_l. now apply Lang_str.
    + apply Lang_alt_r. apply IH. eauto.
Qed.

Lemma Lang_star_cls (p : N -> bool) (w : jsstring) :
  Lang (Star (Cls p)) w <-> forallb p w = true.
Proof.
  induction w as [|c w IH]; split; intros H; try reflexivity; try constructor.
  - apply Lang_star_cons in H as (a & b & -> & Ha & Hb).
    apply Lang_cls_inv in Ha as (x & Hx & Hp). injection Hx as <- Ha.
    symmetry in Ha. subst a. cbn [app forallb] in *. rewrite Hp. now apply IH.
  - cbn [forallb] in H. apply andb_true_iff in H as [Hc Hw].
    change (c :: w) with ([c] ++ w). constructor; [now constructor | now apply IH].
Qed.

Lemma Lang_plus_cls (p : N -> bool) (w : jsstring) :
  Lang (Plus (Cls p)) w <-> w <> [] /\ forallb p w = true.
Proof.
  unfold Plus. split; intros H.
  - apply Lang_cat_inv in H as (a & b & -> & Ha & Hb).
    apply Lang_cls_inv in Ha as (x & -> & Hp). apply Lang_star_cls in Hb.
    split; [discriminate|]. cbn [app forallb]. now rewrite Hp.
  - destruct H as [Hne Hall]. destruct w as [|c w]; [contradiction|].
    cbn [forallb] in Hall. apply andb_true_iff in Hall as [Hc Hw].
    change (c :: w) with ([c] ++ w). constructor; [now constructor | now apply Lang_star_cls].
Qed.

Lemma Lang_extension (w : jsstring) :
  Lang EXTENSION w <-> exists ext, w = dot :: ext /\ ext <> [] /\ forallb lower_alnum ext = true.
Proof.
  unfold EXTENSION. split; intros H.
  - apply Lang_cat_inv in H as (a & b & -> & Ha & Hb).
    apply (Lang_str (lit ".")) in Ha as ->. apply Lang_plus_cls in Hb. exists b. now split.
  - destruct H as (ext & -> & Hext). change (dot :: ext) with (lit "." ++ ext).
    constructor; [now apply Lang_str | now apply Lang_plus_cls].
Qed.

Lemma test_whole_spec (r : regex) (w : jsstring) : test_whole r w = true <-> Lang r w.
Proof. apply matches_spec. Qed.

Lemma test_at_end_spec (r : regex) (w : jsstring) :
  test_at_end r w = true <-> exists pre suf, w = pre ++ suf /\ Lang r suf.
Proof.
  unfold test_at_end. rewrite matches_spec. split; intros H.
  - apply Lang_cat_inv in H as (a & b & -> & _ & Hb). eauto.
  - destruct H as (pre & suf & -> & H). constructor; [apply Lang_any_star | exact H].
Qed.

Lemma test_anywhere_spec (r : regex) (w : jsstring) :
  test_anywhere r w = true <-> exists pre mid suf, w = pre ++ mid ++ suf /\ Lang r mid.
Proof.
  unfold test_anywhere. rewrite matches_spec. split; intros H.
  - apply Lang_cat_inv in H as (a & b & -> & _ & Hb).
    apply Lang_cat_inv in Hb as (m & c & -> & Hm & _). eauto.
  - destruct H as (pre & mid & suf & -> & H).
    constructor; [apply Lang_any_star|]. constructor; [exact H | apply Lang_any_star].
Qed.

(** ** The file heuristics *)

Lemma Lang_directory (names : list string) (mid : jsstring) :
  Lang (Cat (Cls is_sep) (Cat (OneOf names) (Cls is_sep))) mid <->
  exists s1 name s2,
    mid = s1 :: lit name ++ [s2]
    /\ is_sep s1 = true /\ is_sep s2 = true /\ In name names.
Proof.
  split; intros H.
  - apply Lang_cat_inv in H as (a & b & -> & Ha & Hb).
    apply Lang_cls_inv in Ha as (s1 & -> & H1).
    apply Lang_cat_inv in Hb as (n & c & -> & Hn & Hc).
    apply Lang_cls_inv in Hc as (s2 & -> & H2).
    apply Lang_one_of in Hn as (name & Hin & ->).
    exists s1, name, s2. repeat split; assumption.
  - destruct H as (s1 & name & s2 & -> & H1 & H2 & Hin).
    change (s1 :: lit name ++ [s2]) with ([s1] ++ lit name ++ [s2]).
    constructor; [now constructor|].
    constructor; [apply Lang_one_of; eauto | now constructor].
Qed.

Lemma test_anywhere_directory (names : list string) (path : jsstring) :
  test_anywhere (Cat (Cls is_sep) (Cat (OneOf names) (Cls is_sep))) path = true
  <-> in_directory names path.
Proof.
  rewrite test_anywhere_spec. unfold in_directory. split.
  - intros (pre & mid & suf & -> & H).
    apply Lang_directory in H as (s1 & name & s2 & -> & H1 & H2 & Hin).
    exists pre, s1, name, s2, suf. repeat split; try assumption.
    cbn [app]. now rewrite <- app_assoc.
  - intros (pre & s1 & name & s2 & suf & -> & H1 & H2 & Hin).
    exists pre, (s1 :: lit name ++ [s2]), suf. split.
    + cbn [app]. now rewrite <- app_assoc.
    + apply Lang_directory. exists s1, name, s2. repeat split; assumption.
Qed.

Lemma test_anywhere_dunder (path : jsstring) :
  test_anywhere TESTS_DUNDER_DIR path = true <-> in_directory ["__tests__"%string] path.
Proof.
  rewrite <- test_anywhere_directory, !test_anywhere_spec.
  assert (Hsame : forall mid,
            Lang TESTS_DUNDER_DIR mid <->
            Lang (Cat (Cls is_sep) (Cat (OneOf ["__tests__"%string]) (Cls is_sep))) mid).
  { intros mid. unfold TESTS_DUNDER_DIR. split; intros H;
      apply Lang_cat_inv in H as (a & b & -> & Ha & Hb);
      apply Lang_cat_inv in Hb as (n & c & -> & Hn & Hc);
      (constructor; [exact Ha|]); (constructor; [|exact Hc]).
    - now apply Lang_alt_l.
    - apply Lang_alt_inv in Hn as [Hn | Hn]; [exact Hn | now apply Lang_void_inv in Hn]. }
  split; intros (pre & mid & suf & Hw & H); exists pre, mid, suf; (split; [exact Hw|]);
    now apply Hsame.
Qed.

Lemma in_directory_app (names names' : list string) (path : jsstring) :
  in_directory (names ++ names') path <-> in_directory names path \/ in_directory names' path.
Proof.
  unfold in_directory. split.
  - intros (pre & s1 & name & s2 & suf & Hp & H1 & H2 & Hin).
    apply in_app_or in Hin as [Hin | Hin]; [left | right];
      exists pre, s1, name, s2, suf; repeat split; assumption.
  - intros [H | H]; destruct H as (pre & s1 & name & s2 & suf & Hp & H1 & H2 & Hin);
      exists pre, s1, name, s2, suf; repeat split; try assumption;
      apply in_or_app; [now left | now right].
Qed.

(** What follows an optional [_] or [-], [test] and an extension. *)
Lemma Lang_test_then (tail : regex) (suf : jsstring) :
  Lang (Cat (Opt (Alt (Lit "_") (Lit "-"))) (Cat (Lit "test") tail)) suf <->
  exists opt rest,
    suf = opt ++ lit "test" ++ rest
    /\ (opt = [] \/ opt = lit "_" \/ opt = lit "-") /\ Lang tail rest.
Proof.
  split; intros H.
  - apply Lang_cat_inv in H as (o & b & -> & Ho & Hb).
    apply Lang_cat_inv in Hb as (t & rest & -> & Ht & Hrest).
    apply (Lang_str (lit "test")) in Ht as ->.
    exists o, rest. repeat split; [|exact Hrest].
    apply Lang_alt_inv in Ho as [Ho | Ho].
    + apply Lang_alt_inv in Ho as [Ho | Ho]; apply Lang_str in Ho; auto.
    + apply Lang_eps_inv in Ho. auto.
  - destruct H as (o & rest & -> & Ho & Hrest).
    constructor; [|constructor; [now apply Lang_str | exact Hrest]].
    destruct Ho as [-> | [-> | ->]].
    + apply Lang_alt_r. constructor.
    + apply Lang_alt_l, Lang_alt_l. now apply Lang_str.
    + apply Lang_alt_l, Lang_alt_r. now apply Lang_str.
Qed.

(** What follows a dot and [test] or [spec]. *)
Lemma Lang_marker_then (tail : regex) (suf : jsstring) :
  Lang (Cat (Lit ".") (Cat (OneOf ["test"; "spec"]%string) tail)) suf <->
  exists rest,
    (suf = lit ".test" ++ rest \/ suf = lit ".spec" ++ rest) /\ Lang tail rest.
Proof.
  split; intros H.
  - apply Lang_cat_inv in H as (d & b & -> & Hd & Hb).
    apply (Lang_str (lit ".")) in Hd as ->.
    apply Lang_cat_inv in Hb as (n & rest & -> & Hn & Hrest).
    apply Lang_one_of in Hn as (name & Hin & ->).
    exists rest. split; [|exact Hrest].
    destruct Hin as [<- | [<- | []]]; [left | right]; reflexivity.
  - destruct H as (rest & Hsuf & Hrest).
    destruct Hsuf as [-> | ->].
    + change (lit ".test" ++ rest) with (lit "." ++ lit "test" ++ rest).
      constructor; [now apply Lang_str|].
      constructor; [apply Lang_one_of; exists "test"%string; split; [now left | reflexivity]
                   | exact Hrest].
    + change (lit ".spec" ++ rest) with (lit "." ++ lit "spec" ++ rest).
      constructor; [now apply Lang_str|].
      constructor; [apply Lang_one_of; exists "spec"%string;
                    split; [right; now left | reflexivity]
                   | exact Hrest].
Qed.

(** A dot and one of [exts], all of them lower case letters and digits,
    is an extension. *)
Lemma Lang_listed_extension (exts : list string) (rest : jsstring) :
  (forall e, In e exts -> lit e <> [] /\ forallb lower_alnum (lit e) = true) ->
  Lang (Cat (Lit ".") (OneOf exts)) rest -> Lang EXTENSION rest.
Proof.
  intros Hexts H. apply Lang_cat_inv in H as (d & e & -> & Hd & He).
  apply (Lang_str (lit ".")) in Hd as ->.
  apply Lang_one_of in He as (name & Hin & ->).
  apply Lang_extension. exists (lit name). split; [reflexivity|]. now apply Hexts.
Qed.

Ltac listed_extensions :=
  let e := fresh "e" in let H := fresh "H" in
  intros e H; cbn [In] in H;
  repeat (destruct H as [<- | H]; [split; [discriminate | reflexivity]|]);
  contradiction.

Section HeuristicsProperties.
Variable basename : jsstring -> jsstring.

Lemma marker_test (pre rest base : jsstring) :
  base = pre ++ lit "test" ++ rest -> Lang EXTENSION rest ->
  ends_with_marker "test" base.
Proof.
  intros -> H. apply Lang_extension in H as (ext & -> & Hext).
  exists pre, ext. now split.
Qed.

Lemma marker_spec (pre rest base : jsstring) :
  base = pre ++ lit ".spec" ++ rest -> Lang EXTENSION rest ->
  ends_with_marker ".spec" base.
Proof.
  intros -> H. apply Lang_extension in H as (ext & -> & Hext).
  exists pre, ext. now split.
Qed.

(** X16.  [isTestFile] holds exactly when the base name ends with
    [test.<ext>] or [.spec.<ext>], the extension being a non-empty run of
    lower case letters and digits, or the path has a directory named
    [__tests__], [test] or [tests].  Whatever precedes [test] in the base
    name does not matter, and the two language-specific patterns add
    nothing. *)
Theorem isTestFile_characterized (path : jsstring) :
  isTestFile basename path = true <->
  ends_with_marker "test" (basename path)
  \/ ends_with_marker ".spec" (basename path)
  \/ in_directory ["__tests__"; "test"; "tests"]%string path.
Proof.
  unfold isTestFile. cbv zeta.
  change ["__tests__"; "test"; "tests"]%string
    with (["__tests__"%string] ++ ["test"%string; "tests"%string])%list.
  rewrite in_directory_app, <- test_anywhere_dunder.
  rewrite <- (test_anywhere_directory ["test"; "tests"]%string path).
  fold TEST_DIR.
  set (base := basename path).
  assert (Hmarker : forall tail,
            (forall rest, Lang tail rest -> Lang EXTENSION rest) ->
            test_at_end (Cat (Lit ".") (Cat (OneOf ["test"; "spec"]%string) tail)) base = true ->
            ends_with_marker "test" base \/ ends_with_marker ".spec" base).
  { intros tail Htail H. apply test_at_end_spec in H as (pre & suf & Hb & H).
    apply Lang_marker_then in H as (rest & Hsuf & Hrest). apply Htail in Hrest.
    destruct Hsuf as [-> | ->].
    - left. apply (marker_test (pre ++ lit ".") rest); [|exact Hrest].
      rewrite Hb, <- app_assoc. reflexivity.
    - right. now apply (marker_spec pre rest). }
  assert (Hsuffix : forall tail,
            (forall rest, Lang tail rest -> Lang EXTENSION rest) ->
            test_at_end (Cat (Opt (Alt (Lit "_") (Lit "-"))) (Cat (Lit "test") tail)) base = true ->
            ends_with_marker "test" base).
  { intros tail Htail H. apply test_at_end_spec in H as (pre & suf & Hb & H).
    apply Lang_test_then in H as (o & rest & -> & _ & Hrest). apply Htail in Hrest.
    apply (marker_test (pre ++ o) rest); [|exact Hrest].
    rewrite Hb, <- app_assoc. reflexivity. }
  split.
  - destruct (test_at_end TEST_MARKER base) eqn:H1.
    { intros _. apply (Hmarker EXTENSION) in H1; [tauto | auto]. }
    destruct (test_at_end TEST_SUFFIX base) eqn:H2.
    { intros _. left. apply (Hsuffix EXTENSION); auto. }
    destruct (test_at_end TEST_MARKER_JS base) eqn:H3.
    { intros _. apply Hmarker in H3; [tauto|].
      intros rest. apply Lang_listed_extension. listed_extensions. }
    destruct (test_at_end TEST_SUFFIX_LANG base) eqn:H4.
    { intros _. left. apply Hsuffix in H4; [exact H4|].
      intros rest. apply Lang_listed_extension. listed_extensions. }
    destruct (test_anywhere TESTS_DUNDER_DIR path); [tauto|].
    destruct (test_anywhere TEST_DIR path); [tauto | discriminate].
  - intros [Ht | [Hs | [Hd | Hd]]].
    + assert (H2 : test_at_end TEST_SUFFIX base = true).
      { destruct Ht as (pre & ext & Hb & Hext).
        apply test_at_end_spec. exists pre, (lit "test" ++ dot :: ext). split; [exact Hb|].
        apply Lang_test_then. exists [], (dot :: ext). repeat split; [now left|].
        apply Lang_extension. eauto. }
      rewrite H2. now destruct (test_at_end TEST_MARKER base).
    + assert (H1 : test_at_end TEST_MARKER base = true).
      { destruct Hs as (pre & ext & Hb & Hext).
        apply test_at_end_spec. exists pre, (lit ".spec" ++ dot :: ext). split; [exact Hb|].
        apply Lang_marker_then. exists (dot :: ext). split; [now right|].
        apply Lang_extension. eauto. }
      now rewrite H1.
    + rewrite Hd. now repeat match goal with |- context [if ?b then _ else _] => destruct b end.
    + unfold TEST_DIR in *. rewrite Hd.
      now repeat match goal with |- context [if ?b then _ else _] => destruct b end.
Qed.

Lemma isDocFile_rules (path : jsstring) :
  isDocFile basename path = true <->
  has_doc_name (basename path)
  \/ has_doc_extension (basename path)
  \/ in_directory ["docs"; "documentation"]%string path.
Proof.
  unfold isDocFile. cbv zeta.
  rewrite <- (test_anywhere_directory ["docs"; "documentation"]%string path).
  fold DOC_DIR. set (base := basename path).
  assert (Hname : test_whole DOC_NAME base = true <-> has_doc_name base).
  { rewrite test_whole_spec. unfold DOC_NAME, has_doc_name. split.
    - intros H. apply Lang_cat_inv in H as (n & e & Hb & Hn & He).
      apply Lang_one_of in Hn as (name & Hin & ->). exists name. split; [exact Hin|].
      apply Lang_alt_inv in He as [He | He].
      + right. apply Lang_extension in He as (ext & -> & Hext). exists ext. now split.
      + left. apply Lang_eps_inv in He as ->. now rewrite app_nil_r in Hb.
    - intros (name & Hin & [-> | (ext & -> & Hext)]).
      + rewrite <- (app_nil_r (lit name)).
        constructor; [apply Lang_one_of; eauto | apply Lang_alt_r; constructor].
      + constructor; [apply Lang_one_of; eauto|].
        apply Lang_alt_l. apply Lang_extension. eauto. }
  assert (Hext : test_at_end DOC_EXTENSION base = true <-> has_doc_extension base).
  { rewrite test_at_end_spec. unfold DOC_EXTENSION, has_doc_extension. split.
    - intros (pre & suf & Hb & H). apply Lang_cat_inv in H as (d & e & -> & Hd & He).
      apply (Lang_str (lit ".")) in Hd as ->.
      apply Lang_one_of in He as (name & Hin & ->). exists pre, name. now split.
    - intros (pre & e & Hin & ->). exists pre, (dot :: lit e). split; [reflexivity|].
      change (dot :: lit e) with (lit "." ++ lit e).
      constructor; [now apply Lang_str | apply Lang_one_of; eauto]. }
  rewrite <- Hname, <- Hext.
  destruct (test_whole DOC_NAME base), (test_at_end DOC_EXTENSION base),
    (test_anywhere DOC_DIR path); intuition discriminate.
Qed.

(** X17.  [isDocFile] holds exactly when the base name is [readme],
    [changelog], [contributing] or [license], alone or with one extension,
    or ends with [.md], [.mdx], [.rst], [.adoc], [.asciidoc], [.org] or
    [.txt], or the path has a directory named [docs] or
    [documentation]. *)
Theorem isDocFile_characterized (path : jsstring) :
  isDocFile basename path = true <->
  has_doc_name (basename path)
  \/ has_doc_extension (basename path)
  \/ in_directory ["docs"; "documentation"]%string path.
Proof. exact (isDocFile_rules path). Qed.

End HeuristicsProperties.

(** latest.js, whose base name ends with [test.js], counts as a test. *)
Example latest_js_is_a_test_file :
  isTestFile posix_basename (lit "/src/latest.js") = true.
Proof. reflexivity. Qed.

(** ** Slicing the workspace *)

Lemma NoDup_map_Some {A : Type} (l : list A) : NoDup l -> NoDup (map Some l).
Proof.
  induction 1 as [|x l Hx _ IH]; cbn [map]; constructor; [|exact IH].
  intros Hin. apply in_map_iff in Hin as (y & Hy & Hin). injection Hy as ->. contradiction.
Qed.

Section SliceProperties.
Variable Uri : Type.
Variable fsPath : Uri -> jsstring.
Variable basename : jsstring -> jsstring.
Variable toLowerCase : jsstring -> jsstring.
Variable draws : Draws.

(** The loop sorts the files into three arrays, in the order found; a
    documentation file is never also taken as a test. *)
Lemma classify_filter (all : list Uri) (b : Buckets Uri) :
  classify Uri fsPath basename toLowerCase all b =
    {| code := code b ++ filter (is_code Uri fsPath basename toLowerCase) all;
       tests := tests b ++ filter (is_test Uri fsPath basename toLowerCase) all;
       docs := docs b ++ filter (is_doc Uri fsPath basename toLowerCase) all |}.
Proof.
  revert b; induction all as [|uri rest IH]; intros b.
  - cbn [classify filter]. rewrite !app_nil_r. now destruct b.
  - cbn [classify filter]. cbv zeta.
    unfold is_code, is_test, is_doc.
    destruct (isDocFile basename (toLowerCase (fsPath uri)));
      [|destruct (isTestFile basename (toLowerCase (fsPath uri)))];
      rewrite IH; cbn [code tests docs negb andb]; now rewrite <- ?app_assoc.
Qed.

Lemma slice_returns (all : list Uri) (fuel k : nat) (views views' : Views Uri)
  (msg : jsstring) (k' : nat) :
  all <> [] ->
  sliceAndNotify Uri fsPath basename toLowerCase draws all fuel k views = Some (views', msg, k') ->
  exists k1 k2,
    pickRandom draws (filter (is_code Uri fsPath basename toLowerCase) all) 5 fuel k = Some (files_view views', k1)
    /\ pickRandom draws (filter (is_test Uri fsPath basename toLowerCase) all) 5 fuel k1 = Some (tests_view views', k2)
    /\ pickRandom draws (filter (is_doc Uri fsPath basename toLowerCase) all) 5 fuel k2 = Some (docs_view views', k')
    /\ msg = selected_message (List.length (files_view views'))
               (List.length (tests_view views')) (List.length (docs_view views')).
Proof.
  intros Hne H. unfold sliceAndNotify in H.
  destruct all as [|u0 rest]; [contradiction|]. cbn [is_nil] in H. cbv zeta in H.
  rewrite classify_filter in H. cbn [code tests docs app] in H.
  destruct (pickRandom draws (filter _ (u0 :: rest)) 5 fuel k) as [[sc k1]|] eqn:Hc;
    [|discriminate].
  destruct (pickRandom draws (filter _ (u0 :: rest)) 5 fuel k1) as [[st k2]|] eqn:Ht;
    [|discriminate].
  destruct (pickRandom draws (filter _ (u0 :: rest)) 5 fuel k2) as [[sd k3]|] eqn:Hd;
    [|discriminate].
  injection H as <- <- <-. exists k1, k2. cbn [files_view tests_view docs_view].
  repeat split; assumption.
Qed.

(** X18.  When the workspace is not empty and the slice completes, each
    view holds min(5, n) entries, where n is the number of files of its
    kind, and the message reports these three numbers: neither depends on
    the draws. *)
Theorem slice_reports_category_sizes
  (all : list Uri) (fuel k : nat) (views views' : Views Uri) (msg : jsstring) (k' : nat) :
  all <> [] ->
  sliceAndNotify Uri fsPath basename toLowerCase draws all fuel k views = Some (views', msg, k') ->
  List.length (files_view views') = Nat.min 5 (List.length (filter (is_code Uri fsPath basename toLowerCase) all))
  /\ List.length (tests_view views') = Nat.min 5 (List.length (filter (is_test Uri fsPath basename toLowerCase) all))
  /\ List.length (docs_view views') = Nat.min 5 (List.length (filter (is_doc Uri fsPath basename toLowerCase) all))
  /\ msg = selected_message (Nat.min 5 (List.length (filter (is_code Uri fsPath basename toLowerCase) all)))
             (Nat.min 5 (List.length (filter (is_test Uri fsPath basename toLowerCase) all)))
             (Nat.min 5 (List.length (filter (is_doc Uri fsPath basename toLowerCase) all))).
Proof.
  intros Hne H. destruct (slice_returns _ _ _ _ _ _ _ Hne H) as (k1 & k2 & Hc & Ht & Hd & ->).
  apply pickRandom_length in Hc; [|lia]. apply pickRandom_length in Ht; [|lia].
  apply pickRandom_length in Hd; [|lia].
  assert (Ec : List.length (files_view views') = Nat.min 5 (List.length (filter (is_code Uri fsPath basename toLowerCase) all)))
    by lia.
  assert (Et : List.length (tests_view views') = Nat.min 5 (List.length (filter (is_test Uri fsPath basename toLowerCase) all)))
    by lia.
  assert (Ed : List.length (docs_view views') = Nat.min 5 (List.length (filter (is_doc Uri fsPath basename toLowerCase) all)))
    by lia.
  rewrite Ec, Et, Ed. repeat split.
Qed.

Lemma selection_of_kind (kind : Uri -> bool) (all : list Uri) (fuel k : nat)
  (res : list (option Uri)) (k' : nat) :
  (forall j n, (0 < n)%nat -> (draws j n < n)%nat) ->
  pickRandom draws (filter kind all) 5 fuel k = Some (res, k') ->
  (forall e, In e res -> exists uri, e = Some uri /\ In uri all /\ kind uri = true)
  /\ (NoDup all -> NoDup res).
Proof.
  intros Hrange H.
  destruct (pickRandom_selection _ _ _ _ _ _ _ _ Hrange H) as (sel & -> & Hincl & Hnd).
  split.
  - intros e He. apply in_map_iff in He as (uri & <- & Hu).
    apply Hincl, filter_In in Hu as [Hin Hk]. eauto.
  - intros Hall. apply NoDup_map_Some, Hnd. now apply NoDup_filter.
Qed.

(** X19.  When the workspace is not empty and the draws are indices,
    every entry of a view is a file that was found and is of the view's
    kind: documentation for Documentation; a test that is not
    documentation for Tests; neither for Files.  If no file was found
    twice, no entry is shown twice. *)
Theorem slice_shows_files_of_their_kind
  (all : list Uri) (fuel k : nat) (views views' : Views Uri) (msg : jsstring) (k' : nat) :
  all <> [] ->
  (forall j n, (0 < n)%nat -> (draws j n < n)%nat) ->
  sliceAndNotify Uri fsPath basename toLowerCase draws all fuel k views = Some (views', msg, k') ->
  (forall e, In e (files_view views') ->
     exists uri, e = Some uri /\ In uri all /\ (is_code Uri fsPath basename toLowerCase) uri = true)
  /\ (forall e, In e (tests_view views') ->
        exists uri, e = Some uri /\ In uri all /\ (is_test Uri fsPath basename toLowerCase) uri = true)
  /\ (forall e, In e (docs_view views') ->
        exists uri, e = Some uri /\ In uri all /\ (is_doc Uri fsPath basename toLowerCase) uri = true)
  /\ (NoDup all ->
      NoDup (files_view views') /\ NoDup (tests_view views') /\ NoDup (docs_view views')).
Proof.
  intros Hne Hrange H.
  destruct (slice_returns _ _ _ _ _ _ _ Hne H) as (k1 & k2 & Hc & Ht & Hd & _).
  destruct (selection_of_kind _ _ _ _ _ _ Hrange Hc) as [Hc1 Hc2].
  destruct (selection_of_kind _ _ _ _ _ _ Hrange Ht) as [Ht1 Ht2].
  destruct (selection_of_kind _ _ _ _ _ _ Hrange Hd) as [Hd1 Hd2].
  repeat split; auto.
Qed.

(** X20.  A file below a directory named [docs] or [documentation] is
    shown neither under Files nor under Tests, whatever its name. *)
Theorem docs_directory_files_are_documentation
  (all : list Uri) (fuel k : nat) (views views' : Views Uri) (msg : jsstring) (k' : nat)
  (uri : Uri) :
  all <> [] ->
  (forall j n, (0 < n)%nat -> (draws j n < n)%nat) ->
  sliceAndNotify Uri fsPath basename toLowerCase draws all fuel k views = Some (views', msg, k') ->
  in_directory ["docs"; "documentation"]%string (toLowerCase (fsPath uri)) ->
  ~ In (Some uri) (files_view views') /\ ~ In (Some uri) (tests_view views').
Proof.
  intros Hne Hrange H Hdir.
  destruct (slice_returns _ _ _ _ _ _ _ Hne H) as (k1 & k2 & Hc & Ht & _ & _).
  destruct (selection_of_kind _ _ _ _ _ _ Hrange Hc) as [Hc1 _].
  destruct (selection_of_kind _ _ _ _ _ _ Hrange Ht) as [Ht1 _].
  assert (Hdoc : (is_doc Uri fsPath basename toLowerCase) uri = true).
  { unfold is_doc. apply isDocFile_rules. right. now right. }
  split; intros Hin.
  - destruct (Hc1 _ Hin) as (u & Hu & _ & Hk). injection Hu as <-.
    unfold is_code in Hk. rewrite Hdoc in Hk. discriminate.
  - destruct (Ht1 _ Hin) as (u & Hu & _ & Hk). injection Hu as <-.
    unfold is_test in Hk. rewrite Hdoc in Hk. discriminate.
Qed.

End SliceProperties.

Lemma round_robin_in_range' (j n : nat) : (0 < n)%nat -> (round_robin j n < n)%nat.
Proof. intros H. now apply round_robin_in_range. Defined.

Lemma slice_reports_category_sizes_witness :
  exists views' k',
    slice_paths small_workspace 10
    = Some (views', lit "Selected files - Code: 2, Tests: 1, Docs: 2", k').
Proof.
  destruct (slice_paths small_workspace 10) as [[[views' msg] k']|] eqn:Hrun;
    [|discriminate Hrun].
  exists views', k'. do 3 f_equal.
  destruct (slice_reports_category_sizes jsstring (fun p => p) posix_basename ascii_lower
              round_robin small_workspace 10 O no_views views' msg k'
              ltac:(discriminate) Hrun) as (_ & _ & _ & ->).
  reflexivity.
Defined.

Lemma slice_shows_files_of_their_kind_witness :
  exists views' msg k',
    slice_paths small_workspace 10 = Some (views', msg, k')
    /\ forall e, In e (tests_view views') ->
         exists p, e = Some p /\ In p small_workspace
                   /\ is_test jsstring (fun p => p) posix_basename ascii_lower p = true.
Proof.
  destruct (slice_paths small_workspace 10) as [[[views' msg] k']|] eqn:Hrun;
    [|discriminate Hrun].
  exists views', msg, k'. split; [reflexivity|].
  apply (slice_shows_files_of_their_kind jsstring (fun p => p) posix_basename ascii_lower
           round_robin small_workspace 10 O no_views views' msg k'
           ltac:(discriminate) round_robin_in_range' Hrun).
Defined.

Lemma docs_directory_files_are_documentation_witness :
  exists views' msg k',
    slice_paths small_workspace 10 = Some (views', msg, k')
    /\ ~ In (Some (lit "/w/docs/api.test.ts")) (tests_view views').
Proof.
  destruct (slice_paths small_workspace 10) as [[[views' msg] k']|] eqn:Hrun;
    [|discriminate Hrun].
  exists views', msg, k'. split; [reflexivity|].
  apply (docs_directory_files_are_documentation jsstring (fun p => p) posix_basename
           ascii_lower round_robin small_workspace 10 O no_views views' msg k'
           (lit "/w/docs/api.test.ts") ltac:(discriminate) round_robin_in_range' Hrun).
  exists (lit "/w"), slash, "docs"%string, slash, (lit "api.test.ts").
  repeat split. now left.
Defined.

(** ** The sidebar *)

Lemma fetch_length {NM : NumberModel} (server : Server) (baseUrl : jsstring)
  (fuel : nat) (issues : list JiraIssue) (reqs : list Request) :
  getCurrentUserIssues server baseUrl 10 fuel = (Returned issues, reqs) ->
  (List.length issues <= 10)%nat.
Proof.
  intros H. apply loop_bound in H; [|cbn; lia]. unfold len in H. lia.
Qed.

Section SidebarProperties.
Context {NM : NumberModel}.
Variable toLowerCase : jsstring -> jsstring.
Variable draws : Draws.

(** [ToString] throws nothing but a [TypeError]. *)
Lemma toString_throws_TypeError : forall (v : JsVal) (e : Exn),
  toString v = Throw e -> e = TypeError.
Proof.
  fix IH 1. intros v e. destruct v as [| |b|n|s|xs|ps]; cbn [toString];
    try discriminate.
  - destruct b; discriminate.
  - induction xs as [|x xs IHxs]; cbn [array_join]; [discriminate|].
    fold (array_join (lit ",") toString).
    destruct (nullish x).
    + cbn [bind]. destruct xs as [|y xs]; [discriminate|].
      destruct (array_join (lit ",") toString (y :: xs)) as [t|e'] eqn:Ht;
        cbn [bind]; [discriminate|].
      intros H. injection H as <-. now apply IHxs.
    + destruct (toString x) as [s0|e0] eqn:Hx; cbn [bind].
      * destruct xs as [|y xs]; [discriminate|].
        destruct (array_join (lit ",") toString (y :: xs)) as [t|e'] eqn:Ht;
          cbn [bind]; [discriminate|].
        intros H. injection H as <-. now apply IHxs.
      * intros H. injection H as <-. now apply (IH x).
  - destruct (has_own (lit "toString") ps); [|discriminate].
    intros H. now injection H as <-.
Qed.

Lemma ticketCard_printable (ticket : JiraIssue) :
  (printable ticket = true -> exists card, ticketCard toLowerCase ticket = Ok card)
  /\ (printable ticket = false -> ticketCard toLowerCase ticket = Throw TypeError).
Proof.
  unfold printable, ticketCard.
  destruct (toString (key ticket)) as [k|e1] eqn:Hk; cbn [bind].
  2:{ apply toString_throws_TypeError in Hk as ->. split; [discriminate | reflexivity]. }
  destruct (issueType ticket) as [| |b|n|s|xs|ps] eqn:Hty; cbn [call_toLowerCase bind];
    try (split; [discriminate | reflexivity]).
  cbn [toString bind].
  destruct (toString (summary ticket)) as [su|e2] eqn:Hsu; cbn [bind].
  2:{ apply toString_throws_TypeError in Hsu as ->. split; [discriminate | reflexivity]. }
  destruct (toString (status ticket)) as [st|e3] eqn:Hst; cbn [bind].
  2:{ apply toString_throws_TypeError in Hst as ->. split; [discriminate | reflexivity]. }
  split; [eauto | discriminate].
Qed.

Lemma ticketCards_printable (tickets : list JiraIssue) :
  (forallb printable tickets = true -> exists cards, ticketCards toLowerCase tickets = Ok cards)
  /\ (forallb printable tickets = false -> ticketCards toLowerCase tickets = Throw TypeError).
Proof.
  induction tickets as [|t rest [IHok IHbad]]; cbn [forallb ticketCards].
  - split; [eauto | discriminate].
  - destruct (ticketCard_printable t) as [Hok Hbad].
    destruct (printable t); cbn [andb].
    + destruct (Hok eq_refl) as [card ->]. cbn [bind]. split.
      * intros H. destruct (IHok H) as [cards ->]. cbn [bind]. eauto.
      * intros H. now rewrite (IHbad H).
    + rewrite (Hbad eq_refl). split; [discriminate | reflexivity].
Qed.

Lemma getHtml_printable
  (tickets : list JiraIssue) (source : jsstring) (k : nat) :
  (forallb printable tickets = true ->
     exists page, getHtml toLowerCase draws tickets source k = (Ok page, (k + 32)%nat))
  /\ (forallb printable tickets = false ->
        getHtml toLowerCase draws tickets source k = (Throw TypeError, (k + 32)%nat)).
Proof.
  unfold getHtml, ticketsHtml. cbv zeta.
  destruct (ticketCards_printable tickets) as [Hok Hbad].
  destruct tickets as [|t rest].
  - cbn [List.length Nat.ltb Nat.leb bind]. split; [eauto | discriminate].
  - change (0 <? List.length (t :: rest))%nat with true. cbv iota. split; intros H.
    + destruct (Hok H) as [cards ->]. cbn [bind]. eauto.
    + now rewrite (Hbad H).
Qed.

(** X21.  [getHtml] returns a page when every ticket has a string as
    issue type and a key, a summary and a status that print; if one ticket
    has not, it throws a [TypeError].  Either way the nonce takes 32
    draws. *)
Theorem getHtml_renders_printable_tickets
  (tickets : list JiraIssue) (source : jsstring) (k : nat) :
  (forallb printable tickets = true ->
     exists page, getHtml toLowerCase draws tickets source k = (Ok page, (k + 32)%nat))
  /\ (forallb printable tickets = false ->
        getHtml toLowerCase draws tickets source k = (Throw TypeError, (k + 32)%nat)).
Proof. exact (getHtml_printable tickets source k). Qed.

(** X22.  The record of a raw issue whose key is a string and whose
    summary, issue type name and status name are strings or missing can be
    printed: such issues never break the page. *)
Theorem well_typed_issue_is_printable
  (baseUrl : jsstring) (issue : JsVal) (r : JiraIssue) (k : jsstring) :
  transformIssue baseUrl issue = Ok r ->
  prop issue (lit "key") = JStr k ->
  (forall path, In path [[lit "fields"; lit "summary"];
                         [lit "fields"; lit "issuetype"; lit "name"];
                         [lit "fields"; lit "status"; lit "name"]] ->
     nullish (opt_path issue path) = true \/ exists s, opt_path issue path = JStr s) ->
  printable r = true.
Proof.
  intros Hr Hk Hfields. apply transformIssue_returns in Hr as (_ & ks & _ & ->).
  unfold printable. cbn [key issueType summary status]. rewrite Hk. cbn [toString].
  assert (Hco : forall path d,
            In path [[lit "fields"; lit "summary"];
                     [lit "fields"; lit "issuetype"; lit "name"];
                     [lit "fields"; lit "status"; lit "name"]] ->
            exists s, coalesce (opt_path issue path) (JStr d) = JStr s).
  { intros path d Hin. unfold coalesce.
    destruct (Hfields path Hin) as [Hn | [s Hs]]; [rewrite Hn; eauto|].
    rewrite Hs. cbn [nullish]. eauto. }
  destruct (Hco [lit "fields"; lit "summary"] (lit "No Summary")) as [s1 ->];
    [now left|].
  destruct (Hco [lit "fields"; lit "issuetype"; lit "name"] (lit "Unknown")) as [s2 ->];
    [right; now left|].
  destruct (Hco [lit "fields"; lit "status"; lit "name"] (lit "Unknown")) as [s3 ->];
    [right; right; now left|].
  reflexivity.
Qed.

(** X23.  A load leaves the tickets as they were or replaces them by at
    most 10 tickets. *)
Theorem load_shows_at_most_ten_tickets
  (settings : JiraSettings) (server : Server) (fuel k : nat) (s s' : Sidebar) (k' : nat) :
  loadJiraTickets toLowerCase draws settings server fuel k s = Some (s', k') ->
  jiraTickets s' = jiraTickets s \/ (List.length (jiraTickets s') <= 10)%nat.
Proof.
  unfold loadJiraTickets. intros H.
  destruct (set_baseUrl settings) as [baseUrl|]; [|injection H as <- _; now left].
  destruct (_ || _ || _); [injection H as <- _; now left|].
  destruct (getCurrentUserIssues server baseUrl 10 fuel) as [o reqs] eqn:Hrun.
  cbn [fst] in H. destruct o as [issues|e|]; [|injection H as <- _; now left|discriminate].
  apply fetch_length in Hrun.
  unfold updateWebview in H. cbn [view jiraTickets] in H.
  destruct (view s) as [w|]; [|injection H as <- _; right; cbn [jiraTickets]; lia].
  destruct (getHtml toLowerCase draws issues (cspSource w) k) as [[page|e] k0];
    injection H as <- _; right; cbn [jiraTickets report]; lia.
Qed.

(** X24.  If the settings are complete and some request of the fetch is
    answered with a non-success status, the load keeps the tickets and the
    page as they were and reports the error built from that response. *)
Theorem refused_load_keeps_the_sidebar
  (baseUrl email apiToken : jsstring) (server : Server) (fuel k i : nat)
  (rq : Request) (s : Sidebar) :
  baseUrl <> [] -> email <> [] -> apiToken <> [] ->
  nth_error (snd (getCurrentUserIssues server baseUrl 10 fuel)) i = Some rq ->
  res_ok (server i rq) = false ->
  loadJiraTickets toLowerCase draws
    {| set_baseUrl := Some baseUrl; set_email := Some email; set_apiToken := Some apiToken |}
    server fuel k s
  = Some ({| jiraTickets := jiraTickets s; view := view s;
             reported := reported s ++ [Error (error_message (server i rq))] |}, k).
Proof.
  intros Hb He Ht Hi Hbad. unfold loadJiraTickets. cbn [set_baseUrl set_email set_apiToken].
  destruct baseUrl as [|b0 baseUrl0] eqn:Eb; [contradiction|]. rewrite <- Eb in *.
  destruct email; [contradiction|]. destruct apiToken; [contradiction|].
  rewrite Eb at 1. cbn [unset orb].
  destruct (loop_refused server baseUrl 10 fuel O _ i rq Hi Hbad) as [Ho _].
  unfold getCurrentUserIssues. rewrite Ho. reflexivity.
Qed.

(** X25.  If the settings are complete, a view is resolved and the fetch
    returns tickets one of which cannot be printed, the load replaces the
    tickets but leaves the page as it was and reports a [TypeError]. *)
Theorem unprintable_ticket_leaves_the_page
  (baseUrl email apiToken : jsstring) (server : Server) (fuel k : nat)
  (issues : list JiraIssue) (w : Webview) (s : Sidebar) :
  baseUrl <> [] -> email <> [] -> apiToken <> [] ->
  fst (getCurrentUserIssues server baseUrl 10 fuel) = Returned issues ->
  view s = Some w ->
  forallb printable issues = false ->
  loadJiraTickets toLowerCase draws
    {| set_baseUrl := Some baseUrl; set_email := Some email; set_apiToken := Some apiToken |}
    server fuel k s
  = Some ({| jiraTickets := issues; view := Some w;
             reported := reported s ++ [TypeError] |}, (k + 32)%nat).
Proof.
  intros Hb He Ht Hrun Hview Hbad. unfold loadJiraTickets.
  cbn [set_baseUrl set_email set_apiToken].
  destruct baseUrl as [|b0 baseUrl0] eqn:Eb; [contradiction|]. rewrite <- Eb in *.
  destruct email; [contradiction|]. destruct apiToken; [contradiction|].
  rewrite Eb at 1. cbn [unset orb]. rewrite Hrun.
  unfold updateWebview. cbn [view jiraTickets]. rewrite Hview.
  destruct (getHtml_printable issues (cspSource w) k) as [_ Hthrow].
  rewrite (Hthrow Hbad). unfold report. cbn [jiraTickets view reported]. reflexivity.
Qed.

End SidebarProperties.

Lemma well_typed_issue_is_printable_witness : printable k1_record = true.
Proof.
  apply (well_typed_issue_is_printable example_base (mk_issue "K-1") k1_record (lit "K-1")
           eq_refl eq_refl).
  intros path [<- | [<- | [<- | []]]]; left; reflexivity.
Defined.

Lemma load_shows_at_most_ten_tickets_witness :
  exists s' k',
    loadJiraTickets ascii_lower round_robin example_settings
      (paging_server 50 (seven_issues ++ seven_issues)) 10 0 fresh_sidebar = Some (s', k')
    /\ (jiraTickets s' = [] \/ (List.length (jiraTickets s') <= 10)%nat).
Proof.
  destruct (loadJiraTickets ascii_lower round_robin example_settings
              (paging_server 50 (seven_issues ++ seven_issues)) 10 0 fresh_sidebar)
    as [[s' k']|] eqn:Hrun; [|discriminate Hrun].
  exists s', k'. split; [reflexivity|].
  apply (load_shows_at_most_ten_tickets ascii_lower round_robin example_settings
           (paging_server 50 (seven_issues ++ seven_issues)) 10 0 fresh_sidebar s' k' Hrun).
Defined.

Lemma refused_load_keeps_the_sidebar_witness :
  exists e,
    loadJiraTickets ascii_lower round_robin example_settings unauthorized_on_second
      10 0 shown_sidebar
    = Some ({| jiraTickets := [k1_record]; view := Some blank_webview; reported := [e] |},
            O).
Proof.
  eexists.
  apply (refused_load_keeps_the_sidebar ascii_lower round_robin example_base
           (lit "me@example.com") (lit "token") unauthorized_on_second 10 0 1
           {| rq_startAt := 5; rq_maxResults := 5 |} shown_sidebar);
    try discriminate; reflexivity.
Defined.

Lemma unprintable_ticket_leaves_the_page_witness :
  exists issues,
    loadJiraTickets ascii_lower round_robin example_settings numeric_type_server
      10 0 shown_sidebar
    = Some ({| jiraTickets := issues; view := Some blank_webview; reported := [TypeError] |},
            32%nat)
    /\ List.length issues = 1%nat.
Proof.
  eexists. split.
  - apply (unprintable_ticket_leaves_the_page ascii_lower round_robin example_base
             (lit "me@example.com") (lit "token") numeric_type_server 10 0 _
             blank_webview shown_sidebar);
      try discriminate; reflexivity.
  - reflexivity.
Defined.

(** ** The content security policy *)

Lemma getNonce_alnum (draws : Draws) (k : nat) : forallb is_alnum (getNonce draws k) = true.
Proof. now destruct (nonce_loop_alnum draws 32 k [] eq_refl) as [H _]. Qed.

Lemma is_alnum_not_ws (c : N) : is_alnum c = true -> is_ws c = false.
Proof.
  intros H. apply not_true_is_false. intros Hw. unfold is_alnum, is_ws in *.
  repeat rewrite ?orb_true_iff, ?andb_true_iff, ?N.leb_le, ?N.eqb_eq in *. lia.
Qed.

Lemma alnum_no_ws (s : jsstring) : forallb is_alnum s = true -> no_ws s = true.
Proof.
  unfold no_ws. induction s as [|c s IH]; [reflexivity|]. cbn [forallb].
  intros H. apply andb_true_iff in H as [Hc Hs].
  now rewrite (is_alnum_not_ws c Hc), IH.
Qed.

(** A stretch that ends with a code unit that is not white space is
    collapsed on its own. *)
Lemma collapse_runs_split (b : bool) (p : jsstring) (c : N) (q : jsstring) :
  is_ws c = false ->
  collapse_runs b ((p ++ [c]) ++ q) = collapse_runs b (p ++ [c]) ++ collapse_runs false q.
Proof.
  intros Hc. revert b; induction p as [|x p IH]; intros b.
  - cbn [app collapse_runs]. now rewrite Hc.
  - cbn [app collapse_runs]. destruct (is_ws x).
    + destruct b; [apply IH|].
      destruct p as [|y p]; cbn [app].
      * rewrite Hc. cbn [app]. f_equal. apply (IH false).
      * destruct (is_ws y); cbn [app]; f_equal; apply IH.
    + cbn [app]. f_equal. apply IH.
Qed.

Lemma collapse_runs_word (w q : jsstring) :
  no_ws w = true -> collapse_runs false (w ++ q) = w ++ collapse_runs false q.
Proof.
  unfold no_ws. induction w as [|c w IH]; [reflexivity|]. cbn [forallb].
  intros H. apply andb_true_iff in H as [Hc Hw]. apply negb_true_iff in Hc.
  cbn [app collapse_runs]. rewrite Hc. f_equal. now apply IH.
Qed.

Lemma trim_end_after (x y : jsstring) :
  trim_end y <> [] -> trim_end (x ++ y) = x ++ trim_end y.
Proof.
  intros Hy. induction x as [|c x IH]; [reflexivity|].
  cbn [app trim_end]. rewrite IH.
  destruct (x ++ trim_end y) eqn:E.
  - apply app_eq_nil in E as [_ E]. contradiction.
  - cbn [is_nil]. now rewrite andb_false_r.
Qed.

Lemma trim_end_nonempty_app (x y : jsstring) :
  trim_end y <> [] -> trim_end (x ++ y) <> [].
Proof.
  intros Hy. rewrite trim_end_after by exact Hy. intros H.
  apply app_eq_nil in H as [_ H]. contradiction.
Qed.

(** X26.  For a source that is not empty and holds no white space, the
    policy of the page is the one line
    [default-src 'none'; img-src <source> https:; style-src 'nonce-<nonce>';
    script-src 'nonce-<nonce>';], with the nonce of the page. *)
Theorem policy_is_one_line (draws : Draws) (k : nat) (source : jsstring) :
  source <> [] ->
  no_ws source = true ->
  contentSecurityPolicy source (getNonce draws k)
  = lit "default-src 'none'; img-src " ++ source
    ++ lit " https:; style-src 'nonce-" ++ getNonce draws k
    ++ lit "'; script-src 'nonce-" ++ getNonce draws k ++ lit "';".
Proof.
  intros Hne Hsrc. generalize (alnum_no_ws _ (getNonce_alnum draws k)).
  generalize (getNonce draws k) as nonce. intros nonce Hnonce.
  unfold contentSecurityPolicy.
  change CSP_0 with ((removelast (removelast CSP_0) ++ [99%N]) ++ [space]).
  change CSP_1 with (removelast CSP_1 ++ [45%N]).
  change CSP_2 with (removelast CSP_2 ++ [45%N]).
  rewrite <- !app_assoc.
  rewrite (app_assoc (removelast (removelast CSP_0))).
  rewrite collapse_runs_split by reflexivity.
  destruct source as [|d source]; [contradiction|].
  assert (Hd : is_ws d = false).
  { unfold no_ws in Hsrc. cbn [forallb] in Hsrc. apply andb_true_iff in Hsrc as [Hd _].
    now apply negb_true_iff. }
  cbn [app]. 
  replace (collapse_runs false (space :: d :: source ++ removelast CSP_1 ++ 45%N :: nonce ++ removelast CSP_2 ++ 45%N :: nonce ++ CSP_3))
    with (space :: collapse_runs false ((d :: source) ++ removelast CSP_1 ++ 45%N :: nonce ++ removelast CSP_2 ++ 45%N :: nonce ++ CSP_3)).
  2:{ cbn [app collapse_runs]. change (is_ws space) with true. cbv iota. now rewrite Hd. }
  rewrite (collapse_runs_word (d :: source)) by exact Hsrc.
  change (removelast CSP_1 ++ 45%N :: nonce ++ removelast CSP_2 ++ 45%N :: nonce ++ CSP_3)
    with ((removelast CSP_1 ++ [45%N]) ++ nonce ++ (removelast CSP_2 ++ [45%N]) ++ nonce ++ CSP_3).
  rewrite (collapse_runs_split false (removelast CSP_1) 45%N) by reflexivity.
  rewrite (collapse_runs_word nonce) by exact Hnonce.
  rewrite (collapse_runs_split false (removelast CSP_2) 45%N) by reflexivity.
  rewrite (collapse_runs_word nonce) by exact Hnonce.
  change (collapse_runs false (removelast (removelast CSP_0) ++ [99%N]))
    with (space :: lit "default-src 'none'; img-src").
  change (collapse_runs false (removelast CSP_1 ++ [45%N]))
    with (lit " https:; style-src 'nonce-").
  change (collapse_runs false (removelast CSP_2 ++ [45%N]))
    with (lit "'; script-src 'nonce-").
  change (collapse_runs false CSP_3) with (lit "';" ++ [space]).
  unfold trim.
  set (tail := (d :: source) ++ lit " https:; style-src 'nonce-" ++ nonce
               ++ lit "'; script-src 'nonce-" ++ nonce ++ lit "';" ++ [space]).
  change (trim_start ((space :: lit "default-src 'none'; img-src") ++ space :: tail))
    with (lit "default-src 'none'; img-src" ++ [space] ++ tail).
  subst tail.
  assert (Hend : trim_end (lit "';" ++ [space]) <> []) by discriminate.
  rewrite !trim_end_after by (repeat first [exact Hend | apply trim_end_nonempty_app]).
  reflexivity.
Qed.

Lemma policy_is_one_line_witness :
  contentSecurityPolicy (lit "vscode-webview:") (getNonce round_robin 0)
  = lit "default-src 'none'; img-src vscode-webview: https:; style-src 'nonce-"
    ++ getNonce round_robin 0 ++ lit "'; script-src 'nonce-"
    ++ getNonce round_robin 0 ++ lit "';".
Proof.
  rewrite (policy_is_one_line round_robin 0 (lit "vscode-webview:"));
    [reflexivity | discriminate | reflexivity].
Defined.
